(** * VibeTube: the acquisition core of [app/ytdlp_utils.py] and the source
    poller of [app/main.py], embedded as state-passing functions.

    Persistent tables, the file system and the process-wide globals of the
    Python program are fields of one [World]; every function that touches
    them is a computation in the state-and-exception monad [M].  What the
    program gets from outside (the yt-dlp executable, the JSON parser, the
    wall clock, an HTTP fetch) is collected in the record [Env]. *)

From stdpp Require Import gmap strings list fin_maps pretty.
From Stdlib Require Import ZArith Ascii String ssreflect.

Set Warnings "-rewrite-rw".

Local Open Scope string_scope.
Local Open Scope Z_scope.
Local Open Scope list_scope.

(** ** Python string operations used by the code

    A [string] holds the characters of a [str].  The operations are written
    for text in the ASCII range ([isascii]), where a byte is a character and
    each operation agrees with the method of [str] it is named after; on
    other text [isspace], [lower] and [int] know fewer characters than
    Python does, and [take] counts bytes.  A statement that depends on what
    one of them returns for a text that the program does not choose itself
    carries the restriction as a hypothesis. *)

Module Py.

(** [str.isspace] on the ASCII range. *)
Definition isspace (a : ascii) : bool :=
  let n := nat_of_ascii a in
  ((9 <=? n)%nat && (n <=? 13)%nat) || ((28 <=? n)%nat && (n <=? 32)%nat).

Fixpoint lstrip (s : string) : string :=
  match s with
  | EmptyString => EmptyString
  | String a s' => if isspace a then lstrip s' else s
  end.

Fixpoint rstrip (s : string) : string :=
  match s with
  | EmptyString => EmptyString
  | String a s' =>
      match rstrip s' with
      | EmptyString => if isspace a then EmptyString else String a EmptyString
      | r => String a r
      end
  end.

(** [s.strip()] *)
Definition strip (s : string) : string := rstrip (lstrip s).

(** Truthiness of a string: non-empty. *)
Definition truthy (s : string) : bool :=
  match s with EmptyString => false | _ => true end.

(** [s[:n]] *)
Fixpoint take (n : nat) (s : string) : string :=
  match n, s with
  | S n', String a s' => String a (take n' s')
  | _, _ => EmptyString
  end.

(** [s.replace(c, d)] for one-character [c] and [d]. *)
Fixpoint replace (c d : ascii) (s : string) : string :=
  match s with
  | EmptyString => EmptyString
  | String a s' => String (if Ascii.eqb a c then d else a) (replace c d s')
  end.

(** [s.replace(c, "")] for a one-character [c]. *)
Fixpoint remove (c : ascii) (s : string) : string :=
  match s with
  | EmptyString => EmptyString
  | String a s' => if Ascii.eqb a c then remove c s' else String a (remove c s')
  end.

(** [c in s] for a one-character [c]. *)
Fixpoint contains (c : ascii) (s : string) : bool :=
  match s with
  | EmptyString => false
  | String a s' => Ascii.eqb a c || contains c s'
  end.

Definition lower_ascii (a : ascii) : ascii :=
  let n := nat_of_ascii a in
  if ((65 <=? n)%nat && (n <=? 90)%nat) then ascii_of_nat (n + 32) else a.

(** [s.lower()] on ASCII text. *)
Fixpoint lower (s : string) : string :=
  match s with
  | EmptyString => EmptyString
  | String a s' => String (lower_ascii a) (lower s')
  end.

Fixpoint endswith_slash (s : string) : bool :=
  match s with
  | EmptyString => false
  | String a EmptyString => Ascii.eqb a "/"
  | String _ s' => endswith_slash s'
  end.

Definition startswith_slash (s : string) : bool :=
  match s with
  | String a _ => Ascii.eqb a "/"
  | EmptyString => false
  end.

(** [os.path.join(a, b)] of posixpath. *)
Definition join (a b : string) : string :=
  if startswith_slash b then b
  else if negb (truthy a) || endswith_slash a then a +:+ b
  else a +:+ "/" +:+ b.

Fixpoint drop (n : nat) (s : string) : string :=
  match n, s with
  | S n', String _ s' => drop n' s'
  | _, _ => s
  end.

(** [s.rfind(c)], [None] for -1. *)
Fixpoint rfind_from (c : ascii) (s : string) (i : nat) (last : option nat)
  : option nat :=
  match s with
  | EmptyString => last
  | String a s' =>
      rfind_from c s' (S i) (if Ascii.eqb a c then Some i else last)
  end.

Definition rfind (c : ascii) (s : string) : option nat := rfind_from c s 0%nat None.

Fixpoint all_of (c : ascii) (s : string) : bool :=
  match s with
  | EmptyString => true
  | String a s' => Ascii.eqb a c && all_of c s'
  end.

(** Index just after the last [/]. *)
Definition after_sep (p : string) : nat :=
  match rfind "/" p with Some k => S k | None => 0%nat end.

(** [os.path.splitext(p)[0]] *)
Definition splitext_root (p : string) : string :=
  match rfind "." p with
  | Some d =>
      if (after_sep p <=? d)%nat
         && negb (all_of "." (take (d - after_sep p) (drop (after_sep p) p)))
      then take d p else p
  | None => p
  end.

(** [os.path.basename(p)] *)
Definition basename (p : string) : string := drop (after_sep p) p.

Fixpoint rstrip_slash (s : string) : string :=
  match s with
  | EmptyString => EmptyString
  | String a s' =>
      match rstrip_slash s' with
      | EmptyString => if Ascii.eqb a "/" then EmptyString else String a EmptyString
      | r => String a r
      end
  end.

(** [os.path.dirname(p)] *)
Definition dirname (p : string) : string :=
  let head := take (after_sep p) p in
  if truthy head && negb (all_of "/" head) then rstrip_slash head else head.

Definition digit_val (a : ascii) : option Z :=
  let n := nat_of_ascii a in
  if ((48 <=? n)%nat && (n <=? 57)%nat) then Some (Z.of_nat n - 48) else None.

(** Digits of a decimal literal; single underscores may separate digits. *)
Fixpoint digits (acc : Z) (prev_digit : bool) (s : string) : option Z :=
  match s with
  | EmptyString => if prev_digit then Some acc else None
  | String a s' =>
      match digit_val a with
      | Some d => digits (10 * acc + d) true s'
      | None =>
          if Ascii.eqb a "_" && prev_digit then
            match s' with
            | String b _ =>
                match digit_val b with
                | Some _ => digits acc false s'
                | None => None
                end
            | EmptyString => None
            end
          else None
      end
  end.

(** [int(s)] for a string: [None] stands for [ValueError].  Literals of
    more than 4300 digits, which [int] refuses, are not told apart. *)
Definition int (s : string) : option Z :=
  match strip s with
  | String "-" r => Z.opp <$> digits 0 false r
  | String "+" r => digits 0 false r
  | r => digits 0 false r
  end.

(** [s.isascii()]: every character is below U+0080.  On such text a byte
    is a character, and the operations above agree with the methods of
    [str] they are named after. *)
Fixpoint isascii (s : string) : bool :=
  match s with
  | EmptyString => true
  | String a s' => (nat_of_ascii a <? 128)%nat && isascii s'
  end.

End Py.

(** ** Data model ([app/models.py]) *)

Module Subfolder.
Record t := mk {
  id : Z;
  name : string;
  path : string;
  is_default : bool
}.
End Subfolder.

Module Source.
Record t := mk {
  id : Z;
  source_type : string;          (* "video", "channel", "playlist" *)
  source_id : string;
  name : option string;
  last_checked : option Z;
  subfolder_id : option Z;
  auto_download : bool
}.

Definition set_last_checked (t0 : Z) (s : t) : t :=
  mk (id s) (source_type s) (source_id s) (name s) (Some t0)
     (subfolder_id s) (auto_download s).
End Source.

Module Video.
Record t := mk {
  id : Z;
  video_id : string;
  title : option string;
  channel_name : option string;
  upload_date : option string;
  source_id : option Z;
  downloaded : bool;
  download_path : option string;
  download_date : option Z;
  thumbnail_url : option string;
  duration : option Z;
  file_deleted : bool;
  skip : bool;
  failed_download : bool;
  error_message : option string
}.

(** [video.failed_download = b; video.error_message = m] *)
Definition set_failed (b : bool) (m : option string) (v : t) : t :=
  mk (id v) (video_id v) (title v) (channel_name v) (upload_date v)
     (source_id v) (downloaded v) (download_path v) (download_date v)
     (thumbnail_url v) (duration v) (file_deleted v) (skip v) b m.

(** [video.thumbnail_url = u] *)
Definition set_thumbnail_url (u : string) (v : t) : t :=
  mk (id v) (video_id v) (title v) (channel_name v) (upload_date v)
     (source_id v) (downloaded v) (download_path v) (download_date v)
     (Some u) (duration v) (file_deleted v) (skip v) (failed_download v)
     (error_message v).

(** The five assignments that close a successful [download_video]. *)
Definition set_downloaded (now : Z) (p : string) (v : t) : t :=
  mk (id v) (video_id v) (title v) (channel_name v) (upload_date v)
     (source_id v) true (Some p) (Some now)
     (thumbnail_url v) (duration v) (file_deleted v) (skip v) false None.

(** [video.downloaded = False; video.file_deleted = True; video.skip = True] *)
Definition set_missing (v : t) : t :=
  mk (id v) (video_id v) (title v) (channel_name v) (upload_date v)
     (source_id v) false (download_path v) (download_date v)
     (thumbnail_url v) (duration v) true true (failed_download v)
     (error_message v).

(** The two status invariants of the data model. *)
Definition flags_consistent (v : t) : Prop :=
  (downloaded v && file_deleted v = false) /\
  (downloaded v && failed_download v = false).

(** Eligibility for automatic acquisition. *)
Definition eligible (v : t) : bool :=
  negb (downloaded v) && negb (file_deleted v) && negb (skip v)
  && negb (failed_download v).
End Video.

Module Setting.
Record t := mk {
  id : Z;                        (* primary key, the SQLite rowid *)
  value : option string
}.
End Setting.

(** ** The file system as the code observes it *)

Inductive file :=
| TextFile (contents : string)     (* written by [f.write] *)
| BlobFile (size : Z).             (* produced by the external tool *)

Definition getsize (f : file) : Z :=
  match f with
  | TextFile s => Z.of_nat (String.length s)
  | BlobFile n => n
  end.

Record FS := mkFS {
  files : gmap string file;
  dirs : gset string
}.

Definition fs_exists (p : string) (f : FS) : bool :=
  bool_decide (is_Some (files f !! p)) || bool_decide (p ∈ dirs f).

(** ** Exceptions, the external tool, the world *)

Inductive exn :=
| CalledProcessError (returncode : Z) (stderr : string)
| JSONDecodeError
| PyError (msg : string).          (* any other exception, with its [str(e)] *)

Definition exn_str (e : exn) : string :=
  match e with
  | CalledProcessError _ _ => "Command returned non-zero exit status"
  | JSONDecodeError => "Expecting value"
  | PyError m => m
  end.

(** What one [subprocess.run] can do. *)
Inductive proc_outcome :=
| NotStarted (msg : string)        (* the executable cannot be run: OSError *)
| Completed (returncode : Z) (stdout stderr : string) (fs' : FS).

(** One entry of the log of [subprocess.run] calls. *)
Record tool_call := mkCall {
  call_cmd : list string;
  call_result : option (Z * string * string);  (* exit status, stdout, stderr *)
  call_fs : FS                                 (* the files the call left *)
}.

Record World := mkWorld {
  settings : gmap string Setting.t;            (* table settings, by key *)
  videos : list Video.t;                       (* table videos, storage order *)
  sources : list Source.t;
  subfolders : list Subfolder.t;
  fs : FS;
  cwd : string;
  GLOBAL_COOKIE_FILE : option string;
  COOKIE_TIMESTAMP : Z;
  tool_calls : list tool_call;
  commits : nat;                               (* number of [session.commit()] *)
  clock_reads : nat;                           (* number of [utcnow()] calls *)
  slept : list Z                               (* the sleeps that were completed *)
}.

Definition set_settings (x : gmap string Setting.t) (w : World) : World :=
  mkWorld x (videos w) (sources w) (subfolders w) (fs w) (cwd w)
    (GLOBAL_COOKIE_FILE w) (COOKIE_TIMESTAMP w) (tool_calls w) (commits w)
    (clock_reads w) (slept w).

Definition set_videos (x : list Video.t) (w : World) : World :=
  mkWorld (settings w) x (sources w) (subfolders w) (fs w) (cwd w)
    (GLOBAL_COOKIE_FILE w) (COOKIE_TIMESTAMP w) (tool_calls w) (commits w)
    (clock_reads w) (slept w).

Definition set_sources (x : list Source.t) (w : World) : World :=
  mkWorld (settings w) (videos w) x (subfolders w) (fs w) (cwd w)
    (GLOBAL_COOKIE_FILE w) (COOKIE_TIMESTAMP w) (tool_calls w) (commits w)
    (clock_reads w) (slept w).

Definition set_fs (x : FS) (w : World) : World :=
  mkWorld (settings w) (videos w) (sources w) (subfolders w) x (cwd w)
    (GLOBAL_COOKIE_FILE w) (COOKIE_TIMESTAMP w) (tool_calls w) (commits w)
    (clock_reads w) (slept w).

Definition set_cookie_file (x : option string) (w : World) : World :=
  mkWorld (settings w) (videos w) (sources w) (subfolders w) (fs w) (cwd w)
    x (COOKIE_TIMESTAMP w) (tool_calls w) (commits w)
    (clock_reads w) (slept w).

Definition set_cookie_timestamp (x : Z) (w : World) : World :=
  mkWorld (settings w) (videos w) (sources w) (subfolders w) (fs w) (cwd w)
    (GLOBAL_COOKIE_FILE w) x (tool_calls w) (commits w)
    (clock_reads w) (slept w).

Definition set_tool_calls (x : list tool_call) (w : World) : World :=
  mkWorld (settings w) (videos w) (sources w) (subfolders w) (fs w) (cwd w)
    (GLOBAL_COOKIE_FILE w) (COOKIE_TIMESTAMP w) x (commits w)
    (clock_reads w) (slept w).

Definition set_commits (x : nat) (w : World) : World :=
  mkWorld (settings w) (videos w) (sources w) (subfolders w) (fs w) (cwd w)
    (GLOBAL_COOKIE_FILE w) (COOKIE_TIMESTAMP w) (tool_calls w) x
    (clock_reads w) (slept w).

Definition set_clock_reads (x : nat) (w : World) : World :=
  mkWorld (settings w) (videos w) (sources w) (subfolders w) (fs w) (cwd w)
    (GLOBAL_COOKIE_FILE w) (COOKIE_TIMESTAMP w) (tool_calls w) (commits w)
    x (slept w).

Definition set_slept (x : list Z) (w : World) : World :=
  mkWorld (settings w) (videos w) (sources w) (subfolders w) (fs w) (cwd w)
    (GLOBAL_COOKIE_FILE w) (COOKIE_TIMESTAMP w) (tool_calls w) (commits w)
    (clock_reads w) x.

(** ** State and exceptions *)

Inductive result (A : Type) :=
| Ok (a : A)
| Raise (e : exn).
Arguments Ok {A} a.
Arguments Raise {A} e.

Definition M (A : Type) : Type := World -> result A * World.

Definition ret {A} (a : A) : M A := fun w => (Ok a, w).

Definition bind {A B} (c : M A) (k : A -> M B) : M B :=
  fun w =>
    match c w with
    | (Ok a, w') => k a w'
    | (Raise e, w') => (Raise e, w')
    end.

Definition raise {A} (e : exn) : M A := fun w => (Raise e, w).

(** [try: c  except ...: h e]; the handler re-raises what it does not catch. *)
Definition try_except {A} (c : M A) (h : exn -> M A) : M A :=
  fun w =>
    match c w with
    | (Ok a, w') => (Ok a, w')
    | (Raise e, w') => h e w'
    end.

Definition get {A} (f : World -> A) : M A := fun w => (Ok (f w), w).
Definition modify (f : World -> World) : M unit := fun w => (Ok tt, f w).

#[export] Instance M_ret : MRet M := @ret.
#[export] Instance M_bind : MBind M := fun A B k c => bind c k.

(** [session.commit()] *)
Definition commit : M unit := modify (fun w => set_commits (S (commits w)) w).

(** ** File-system calls *)

Definition os_path_exists (p : string) : M bool := get (fun w => fs_exists p (fs w)).

(** [os.makedirs(p, exist_ok=True)] *)
Definition os_makedirs (p : string) : M unit :=
  fun w =>
    match files (fs w) !! p with
    | Some _ => (Raise (PyError "File exists"), w)
    | None => (Ok tt, set_fs (mkFS (files (fs w)) ({[p]} ∪ dirs (fs w))) w)
    end.

(** [os.remove(p)] *)
Definition os_remove (p : string) : M unit :=
  fun w =>
    match files (fs w) !! p with
    | Some _ => (Ok tt, set_fs (mkFS (delete p (files (fs w))) (dirs (fs w))) w)
    | None => (Raise (PyError "No such file or is a directory"), w)
    end.

(** [with open(p, "w") as f: f.write(s)] *)
Definition write_text (p s : string) : M unit :=
  fun w =>
    if bool_decide (p ∈ dirs (fs w)) then (Raise (PyError "Is a directory"), w)
    else (Ok tt, set_fs (mkFS (<[p := TextFile s]> (files (fs w))) (dirs (fs w))) w).

(** ** Responses of the handlers of [main.py] *)

Inductive json :=
| JBool (b : bool)
| JStr (s : string)
| JInt (n : Z).

(** What a handler answers.  FastAPI turns a raised [HTTPException] into a
    response that carries its status code and detail, and a returned dict
    into a JSON body. *)
Inductive response :=
| HTTPException (status_code : Z) (detail : string)
| RedirectResponse (url : string) (status_code : Z)
| JSONResponse (content : list (string * json)).

(** ** Settings

    [get_setting] of [ytdlp_utils.py]; [update_setting] and
    [clear_youtube_cookies] are the two handlers of [main.py] that write the
    credential text. *)

Definition get_setting (key : string) : M (option string) :=
  get (fun w => s ← settings w !! key; Setting.value s).

(** The rowid SQLite gives to a new row: one more than the largest in use. *)
Definition next_rowid (t : gmap string Setting.t) : Z :=
  1 + map_fold (fun _ s acc => Z.max (Setting.id s) acc) 0 t.

Definition update_setting (key value : string) : M response :=
  st ← get settings;
  match st !! key with
  | Some s =>
      modify (set_settings (<[key := Setting.mk (Setting.id s) (Some value)]> st));;
      commit;;
      ret (RedirectResponse "/settings" 303)
  | None =>
      if bool_decide (key = "youtube_cookies") then
        modify (set_settings (<[key := Setting.mk (next_rowid st) (Some value)]> st));;
        commit;;
        ret (RedirectResponse "/settings" 303)
      else ret (HTTPException 404 ("Setting " +:+ key +:+ " not found"))
  end.

Definition clear_youtube_cookies : M response :=
  st ← get settings;
  match st !! "youtube_cookies" with
  | Some s =>
      modify (set_settings (<["youtube_cookies" := Setting.mk (Setting.id s) (Some "")]> st));;
      commit
  | None => ret tt
  end;;
  ret (RedirectResponse "/settings" 303).

(** ** Credential cache: [get_cookie_file] *)

(** [not youtube_cookies or not youtube_cookies.strip()] *)
Definition no_cookies (c : option string) : bool :=
  match c with
  | None => true
  | Some s => negb (Py.truthy s) || negb (Py.truthy (Py.strip s))
  end.

Definition cookie_file_path (w : World) : string :=
  Py.join (Py.join (Py.join (cwd w) "downloads") ".temp") "youtube_cookies.txt".

(** Lines 77-95: compare the row id of the setting with [COOKIE_TIMESTAMP]. *)
Definition check_cookie_timestamp : M bool :=
  st ← get settings;
  ts ← get COOKIE_TIMESTAMP;
  match st !! "youtube_cookies" with
  | Some cookie_setting =>
      let row_id := Setting.id cookie_setting in
      if bool_decide (row_id ≠ 0) && (ts <? row_id) then
        modify (set_cookie_timestamp row_id);; ret true
      else ret false
  | None => ret false
  end.

Definition get_cookie_file : M (option string) :=
  youtube_cookies ← get_setting "youtube_cookies";
  if no_cookies youtube_cookies then
    g ← get GLOBAL_COOKIE_FILE;
    match g with
    | Some p =>
        ex ← os_path_exists p;
        if Py.truthy p && ex then
          try_except (os_remove p;; modify (set_cookie_file None)) (fun _ => ret tt)
        else ret tt
    | None => ret tt
    end;;
    ret None
  else
    temp_dir ← get (fun w => Py.join (Py.join (cwd w) "downloads") ".temp");
    os_makedirs temp_dir;;
    path ← get cookie_file_path;
    setting_updated ← check_cookie_timestamp;
    g ← get GLOBAL_COOKIE_FILE;
    ex ← os_path_exists path;
    let cached := match g with Some p => Py.truthy p | None => false end in
    if negb cached || negb ex || setting_updated then
      written ← try_except
        (write_text path (default "" youtube_cookies);;
         modify (set_cookie_file (Some path));;
         ret true)
        (fun _ => ret false);
      if written : bool then get GLOBAL_COOKIE_FILE else ret None
    else get GLOBAL_COOKIE_FILE.

(** The text a returned cookie file holds. *)
Definition read_text (p : string) (w : World) : option string :=
  match files (fs w) !! p with
  | Some (TextFile s) => Some s
  | _ => None
  end.

(** ** The outside of the program *)

(** A JSON object of the tool's output.  The core reads the fields [id],
    [title], [channel], [upload_date] and [thumbnail], all of them strings. *)
Abbreviation descriptor := (gmap string string).

Record Env := mkEnv {
  (** yt-dlp: command line, number of earlier invocations, current files. *)
  run_tool : list string -> nat -> FS -> proc_outcome;
  (** [json.loads]: [None] is [JSONDecodeError]; the tool prints objects. *)
  json_loads : string -> option descriptor;
  (** [str.splitlines] *)
  splitlines : string -> list string;
  (** [datetime.datetime.utcnow()], by the number of earlier readings. *)
  utcnow : nat -> Z;
  (** [os.path.relpath] and [urllib.parse.quote] *)
  relpath : string -> option string -> string;
  quote : string -> string;
  (** [requests.get]: status code and body size, [None] when it raises. *)
  http_get : string -> option (Z * Z);
  (** The XML text of the two side-car documents, [None] when building it
      raises. *)
  render_nfo : Video.t -> option descriptor -> option string;
  render_plex : Video.t -> option descriptor -> option string
}.

Section Core.

Context (E : Env).

(** [subprocess.run(cmd, capture_output=True, text=True, check=check)] *)
Definition subprocess_run (check : bool) (cmd : list string)
  : M (Z * string * string) :=
  fun w =>
    match run_tool E cmd (List.length (tool_calls w)) (fs w) with
    | NotStarted msg =>
        (Raise (PyError msg),
         set_tool_calls (tool_calls w ++ [mkCall cmd None (fs w)]) w)
    | Completed rc out err fs' =>
        let w' := set_tool_calls
                    (tool_calls w ++ [mkCall cmd (Some (rc, out, err)) fs'])
                    (set_fs fs' w) in
        if check && negb (rc =? 0) then (Raise (CalledProcessError rc err), w')
        else (Ok (rc, out, err), w')
    end.

Definition with_cookies (cmd : list string) (cookie_file : option string)
  : list string :=
  match cookie_file with
  | Some p => if Py.truthy p then cmd ++ ["--cookies"; p] else cmd
  | None => cmd
  end.

(** The two [except] clauses shared by the three resolver functions. *)
Definition resolver_except {A} (fallback : A) (e : exn) : M A :=
  match e with
  | CalledProcessError _ _ => ret fallback
  | JSONDecodeError => ret fallback
  | PyError _ => raise e
  end.

(** ** Source resolver *)

Definition info_cmd (video_id : string) (cookie_file : option string)
  : list string :=
  with_cookies
    ["yt-dlp"; "https://www.youtube.com/watch?v=" +:+ video_id;
     "--dump-json"; "--no-playlist"] cookie_file.

Definition get_video_info (video_id : string) : M (option descriptor) :=
  try_except
    (cookie_file ← get_cookie_file;
     '(_, stdout, _) ← subprocess_run true (info_cmd video_id cookie_file);
     match json_loads E stdout with
     | Some d => ret (Some d)
     | None => raise JSONDecodeError
     end)
    (resolver_except None).

(** Lines 166-168 and 208-210:
    [for key, value in video_data.items():
       if key not in detailed_info: detailed_info[key] = value] *)
Definition merge_listing (video_data detailed_info : descriptor) : descriptor :=
  map_fold
    (fun key value acc =>
       match acc !! key with
       | Some _ => acc
       | None => <[key := value]> acc
       end)
    detailed_info video_data.

(** The body of the loop over the lines of a flat listing. *)
Definition listing_entry (line : string) (videos : list descriptor)
  : M (list descriptor) :=
  if Py.truthy (Py.strip line) then
    match json_loads E line with
    | None => raise JSONDecodeError
    | Some video_data =>
        match video_data !! "id" with
        | Some vid =>
            detailed_info ← get_video_info vid;
            match detailed_info with
            | Some d =>
                if bool_decide (d = ∅) then ret (videos ++ [video_data])
                else ret (videos ++ [merge_listing video_data d])
            | None => ret (videos ++ [video_data])
            end
        | None => ret (videos ++ [video_data])
        end
    end
  else ret videos.

Fixpoint listing_loop (lines : list string) (videos : list descriptor)
  : M (list descriptor) :=
  match lines with
  | [] => ret videos
  | line :: rest => videos' ← listing_entry line videos; listing_loop rest videos'
  end.

Definition listing_cmd (url : string) (cookie_file : option string)
  : list string :=
  with_cookies ["yt-dlp"; url; "--dump-json"; "--flat-playlist"] cookie_file.

(** [get_channel_videos] and [get_playlist_videos] differ in the URL only. *)
Definition flat_listing (url : string) : M (list descriptor) :=
  try_except
    (cookie_file ← get_cookie_file;
     '(_, stdout, _) ← subprocess_run true (listing_cmd url cookie_file);
     listing_loop (splitlines E stdout) [])
    (resolver_except []).

Definition get_channel_videos (channel_id : string) : M (list descriptor) :=
  flat_listing ("https://www.youtube.com/channel/" +:+ channel_id +:+ "/videos").

Definition get_playlist_videos (playlist_id : string) : M (list descriptor) :=
  flat_listing ("https://www.youtube.com/playlist?list=" +:+ playlist_id).

(** ** Download worker: [download_video] *)

(** The chain of nine [replace] calls that makes a title safe as a file name. *)
Definition sanitize (s : string) : string :=
  Py.replace "|" "_" (Py.replace ">" "_" (Py.replace "<" "_"
  (Py.replace "*" "_" (Py.replace (ascii_of_nat 34) "_" (Py.replace "?" "_"
  (Py.replace ":" "_" (Py.replace "\" "_" (Py.replace "/" "_" s)))))))).

(** [session.query(Video).filter_by(video_id=video_id).first()], with the
    position of the row, which identifies the object in the session. *)
Definition find_video (video_id : string) (vs : list Video.t)
  : option (nat * Video.t) :=
  list_find (fun v => Video.video_id v = video_id) vs.

(** Write the session's copy of row [i] back and commit. *)
Definition commit_video (i : nat) (v : Video.t) : M unit :=
  modify (fun w => set_videos (<[i := v]> (videos w)) w);; commit.

(** Lines 241-248: the base directory of the download. *)
Definition resolve_download_path (v : Video.t) : M (option string) :=
  download_path ← get_setting "download_path";
  srcs ← get sources;
  subs ← get subfolders;
  match Video.source_id v with
  | Some sid =>
      match list_find (fun s => Source.id s = sid) srcs with
      | Some (_, src) =>
          match Source.subfolder_id src with
          | Some fid =>
              if bool_decide (fid = 0) then ret download_path
              else
                match list_find (fun f => Subfolder.id f = fid) subs with
                | Some (_, subfolder) => ret (Some (Subfolder.path subfolder))
                | None => ret download_path
                end
          | None => ret download_path
          end
      | None => ret download_path
      end
  | None => ret download_path
  end.

Definition first_attempt_cmd (cookie_file : option string)
    (output_file video_id : string) : list string :=
  with_cookies
    ["yt-dlp"; "-f"; "bestvideo[ext=mp4]+bestaudio[ext=m4a]/best[ext=mp4]/best";
     "--merge-output-format"; "mp4"; "--no-check-certificate";
     "--write-thumbnail"] cookie_file
  ++ ["-o"; output_file; "https://www.youtube.com/watch?v=" +:+ video_id].

Definition second_attempt_cmd (cookie_file : option string)
    (output_file video_id : string) : list string :=
  with_cookies
    ["yt-dlp"; "-f"; "best"; "--no-check-certificate"; "--write-thumbnail"]
    cookie_file
  ++ ["-o"; output_file; "https://www.youtube.com/watch?v=" +:+ video_id].

(** Lines 357-362: the thumbnail the tool left beside the output. *)
Definition find_thumbnail (output_file : string) : M (option string) :=
  f ← get fs;
  ret (List.find (fun p => fs_exists p f)
         (List.map (fun ext => Py.splitext_root output_file +:+ "." +:+ ext)
            ["jpg"; "jpeg"; "png"; "webp"])).

Definition web_path (p : string) : M string :=
  download_path ← get_setting "download_path";
  ret ("/downloads/" +:+ quote E (relpath E p download_path)).

(** [with open(p, 'wb') as f: ...] of a fetched body. *)
Definition write_blob (p : string) (size : Z) : M unit :=
  fun w =>
    if bool_decide (p ∈ dirs (fs w)) then (Raise (PyError "Is a directory"), w)
    else (Ok tt, set_fs (mkFS (<[p := BlobFile size]> (files (fs w))) (dirs (fs w))) w).

(** Lines 372-398: fetch the thumbnail named by the detailed metadata. *)
Definition fetch_thumbnail (detailed_info : option descriptor)
    (output_file video_folder_path : string) (video : Video.t) : M Video.t :=
  match detailed_info with
  | Some d =>
      match d !! "thumbnail" with
      | Some thumbnail_url =>
          if negb (Py.truthy thumbnail_url) then ret video
          else
            try_except
              (let thumb_path :=
                 Py.join video_folder_path
                   (Py.splitext_root (Py.basename output_file) +:+ ".jpg") in
               match http_get E thumbnail_url with
               | None => raise (PyError "request failed")
               | Some (status_code, size) =>
                   if status_code =? 200 then
                     write_blob thumb_path size;;
                     u ← web_path thumb_path;
                     ret (Video.set_thumbnail_url u video)
                   else ret video
               end)
              (fun _ => ret video)
      | None => ret video
      end
  | None => ret video
  end.

(** [video.title or video.video_id], made safe. *)
Definition sidecar_title (video : Video.t) : string :=
  sanitize (match Video.title video with
            | Some t => if Py.truthy t then t else Video.video_id video
            | None => Video.video_id video
            end).

(** [create_jellyfin_nfo]: everything is inside one [try]; errors are logged. *)
Definition create_jellyfin_nfo (video : Video.t)
    (detailed_info : option descriptor) (output_dir : string) : M unit :=
  try_except
    (match render_nfo E video detailed_info with
     | Some xml => write_text (Py.join output_dir (sidecar_title video +:+ ".nfo")) xml
     | None => raise (PyError "metadata")
     end)
    (fun _ => ret tt).

(** [create_plex_metadata], likewise. *)
Definition create_plex_metadata (video : Video.t)
    (detailed_info : option descriptor) (output_dir : string) : M unit :=
  try_except
    (match render_plex E video detailed_info with
     | Some xml => write_text (Py.join output_dir (sidecar_title video +:+ ".xml")) xml
     | None => raise (PyError "metadata")
     end)
    (fun _ => ret tt).

Definition now : M Z :=
  fun w => (Ok (utcnow E (clock_reads w)), set_clock_reads (S (clock_reads w)) w).

(** [error_message[:500] if error_message else "Unknown error"] *)
Definition stored_error (error_message : string) : string :=
  if Py.truthy error_message then Py.take 500 error_message else "Unknown error".

(** [not os.path.exists(output_file) or os.path.getsize(output_file) < 10000] *)
Definition too_small (output_file : string) (f : FS) : bool :=
  negb (fs_exists output_file f)
  || match files f !! output_file with
     | Some x => getsize x <? 10000
     | None => true                 (* a directory entry: a few kilobytes *)
     end.

Definition output_too_small (output_file : string) : M bool :=
  get (fun w => too_small output_file (fs w)).

(** Lines 280-332: metadata, credential file and the one or two attempts.
    Every statement of the [try] block that can raise is in here, before
    the first assignment to [video]. *)
Definition attempts (video_id output_file : string)
  : M (option descriptor * (Z * string * string)) :=
  detailed_info ← get_video_info video_id;
  cookie_file ← get_cookie_file;
  result ← subprocess_run false (first_attempt_cmd cookie_file output_file video_id);
  result ← (if negb (result.1.1 =? 0)
            then subprocess_run false (second_attempt_cmd cookie_file output_file video_id)
            else ret result);
  ret (detailed_info, result).

(** Lines 334-415: what follows the attempts. *)
Definition record_outcome (i : nat) (video : Video.t)
    (output_file video_folder_path : string)
    (r : option descriptor * (Z * string * string)) : M (bool * string) :=
  let '(detailed_info, (returncode, _, stderr)) := r in
  if negb (returncode =? 0) then
    let error_message := Py.strip stderr in
    commit_video i (Video.set_failed true (Some (stored_error error_message)) video);;
    ret (false, "yt-dlp error: " +:+ error_message)
  else
    small ← output_too_small output_file;
    if small : bool then
      let error_message := "Download failed or file too small" in
      commit_video i (Video.set_failed true (Some error_message) video);;
      ret (false, error_message)
    else
      thumbnail_path ← find_thumbnail output_file;
      video ← match thumbnail_path with
              | Some p => u ← web_path p; ret (Video.set_thumbnail_url u video)
              | None => fetch_thumbnail detailed_info output_file video_folder_path video
              end;
      create_jellyfin_nfo video detailed_info video_folder_path;;
      create_plex_metadata video detailed_info video_folder_path;;
      t ← now;
      commit_video i (Video.set_downloaded t output_file video);;
      ret (true, "Downloaded successfully: " +:+ output_file).

(** Lines 417-427: the [except Exception] clause. *)
Definition download_except (i : nat) (video : Video.t) (e : exn)
  : M (bool * string) :=
  let error_message := exn_str e in
  commit_video i (Video.set_failed true (Some (stored_error error_message)) video);;
  ret (false, "Exception: " +:+ error_message).

Definition download_video (video_id : string) : M (bool * string) :=
  vs ← get videos;
  match find_video video_id vs with
  | None => ret (false, "Video not found in database")
  | Some (i, video) =>
      if Video.downloaded video then ret (true, "Video already downloaded")
      else
        video ← (if Video.failed_download video
                 then let video := Video.set_failed false None video in
                      commit_video i video;; ret video
                 else ret video);
        download_path ← resolve_download_path video;
        match download_path with
        | None => raise (PyError "expected str, bytes or os.PathLike object, not NoneType")
        | Some download_path =>
            let safe_title := sanitize (default "" (Video.title video)) in
            let video_folder_name :=
              if Py.truthy safe_title then safe_title else Video.video_id video in
            let video_folder_path := Py.join download_path video_folder_name in
            os_makedirs video_folder_path;;
            let output_file :=
              Py.join video_folder_path (video_folder_name +:+ ".mp4") in
            ex ← os_path_exists output_file;
            (if ex : bool then os_remove output_file else ret tt);;
            try_except
              (r ← attempts video_id output_file;
               record_outcome i video output_file video_folder_path r)
              (download_except i video)
        end
  end.

(** ** Queue processor: the selection of lines 659-691 *)

Definition next_video (w : World) : option Video.t :=
  let auto_download_source_ids :=
    List.map Source.id (List.filter Source.auto_download (sources w)) in
  match auto_download_source_ids with
  | _ :: _ =>
      List.find
        (fun v => match Video.source_id v with
                  | Some sid => bool_decide (sid ∈ auto_download_source_ids)
                  | None => false
                  end)
        (List.filter Video.eligible (videos w))
  | [] =>
      List.find
        (fun v =>
           match Video.source_id v with
           | Some sid =>
               existsb (fun s => bool_decide (Source.id s = sid)
                                 && bool_decide (Source.source_type s = "video"))
                 (sources w)
           | None => false
           end
           && negb (Video.downloaded v) && negb (Video.file_deleted v)
           && negb (Video.skip v) && negb (Video.failed_download v))
        (videos w)
  end.

(** ** Source poller: [refresh_sources] *)

(** Lines 882-886. *)
Definition normalize_upload_date (video_data : descriptor) : string :=
  let upload_date := default "" (video_data !! "upload_date") in
  if Py.truthy upload_date && Py.contains "-" upload_date
  then Py.take 8 (Py.remove "-" upload_date)
  else upload_date.

(** The primary key the store gives to an inserted video. *)
Definition next_video_pk (vs : list Video.t) : Z :=
  1 + List.fold_right (fun v acc => Z.max (Video.id v) acc) 0 vs.

(** Lines 888-898: the row built for a discovered item. *)
Definition new_video (source : Source.t) (video_data : descriptor)
    (vs : list Video.t) : Video.t :=
  Video.mk (next_video_pk vs)
    (default "" (video_data !! "id"))
    (Some (default "Unknown" (video_data !! "title")))
    (Some (default "Unknown" (video_data !! "channel")))
    (Some (normalize_upload_date video_data))
    (Some (Source.id source))
    false None None
    (Some (default "" (video_data !! "thumbnail")))
    None false (negb (Source.auto_download source)) false None.

(** Lines 874-901: insert what the session does not hold yet. *)
Fixpoint add_new_videos (source : Source.t) (videos_info : list descriptor)
    (vs : list Video.t) (new_videos_count : nat) : list Video.t * nat :=
  match videos_info with
  | [] => (vs, new_videos_count)
  | video_data :: rest =>
      match find_video (default "" (video_data !! "id")) vs with
      | Some _ => add_new_videos source rest vs new_videos_count
      | None =>
          add_new_videos source rest (vs ++ [new_video source video_data vs])
            (S new_videos_count)
      end
  end.

(** Lines 861-871: which resolver a source is sent to. *)
Definition resolve (source : Source.t) : M (list descriptor) :=
  if bool_decide (Source.source_type source = "channel")
  then get_channel_videos (Source.source_id source)
  else if bool_decide (Source.source_type source = "playlist")
  then get_playlist_videos (Source.source_id source)
  else ret [].

(** The loop over the sources; the rows of the session are local until the
    commit. *)
Fixpoint refresh_loop (srcs : list Source.t) (vs : list Video.t) (n : nat)
  : M (list Source.t * list Video.t * nat) :=
  match srcs with
  | [] => ret ([], vs, n)
  | source :: rest =>
      if bool_decide (Source.source_type source = "video") then
        '(rest', vs', n') ← refresh_loop rest vs n;
        ret (source :: rest', vs', n')
      else
        videos_info ← resolve source;
        let '(vs1, n1) := add_new_videos source videos_info vs n in
        t ← now;
        '(rest', vs', n') ← refresh_loop rest vs1 n1;
        ret (Source.set_last_checked t source :: rest', vs', n')
  end.

Definition refresh_sources : M (nat * nat) :=
  srcs ← get sources;
  vs ← get videos;
  '(srcs', vs', new_videos_count) ← refresh_loop srcs vs 0%nat;
  modify (fun w => set_sources srcs' (set_videos vs' w));;
  commit;;
  ret (List.length srcs, new_videos_count).

(** ** Library scanner and file deletion *)

(** [not video.download_path or not os.path.exists(video.download_path)] *)
Definition file_missing (f : FS) (v : Video.t) : bool :=
  match Video.download_path v with
  | Some p => negb (Py.truthy p) || negb (fs_exists p f)
  | None => true
  end.

(** Lines 970-989: one pass of [scan_library]. *)
Definition scan_pass : M nat :=
  vs ← get videos;
  f ← get fs;
  let hit v := Video.downloaded v && file_missing f v in
  let changed_count := List.length (List.filter hit vs) in
  (if (0 <? changed_count)%nat then
     modify (set_videos (List.map (fun v => if hit v then Video.set_missing v else v) vs));;
     commit
   else ret tt);;
  ret changed_count.

(** [shutil.rmtree(p)].  The tree is removed as a whole: a removal that
    fails half-way, leaving some of the files, is not modelled. *)
Definition rmtree (p : string) : M unit :=
  fun w =>
    if bool_decide (p ∈ dirs (fs w)) then
      let inside (q : string) := String.prefix (p +:+ "/") q in
      (Ok tt,
       set_fs (mkFS (filter (fun kv => inside kv.1 = false) (files (fs w)))
                    (filter (fun q => q <> p /\ inside q = false) (dirs (fs w)))) w)
    else (Raise (PyError "Not a directory"), w).

Definition delete_video_files (video_id : string) : M (bool * string) :=
  vs ← get videos;
  match find_video video_id vs with
  | None => ret (false, "Video not found in database")
  | Some (i, video) =>
      if negb (Video.downloaded video) then ret (false, "Video has not been downloaded")
      else
        f ← get fs;
        let gone :=
          match Video.download_path video with
          | Some p => negb (Py.truthy p) || negb (fs_exists (Py.dirname p) f)
          | None => true
          end in
        if gone then
          commit_video i (Video.set_missing video);;
          ret (true, "Video marked as deleted (files were already removed)")
        else
          try_except
            (let video_folder := Py.dirname (default "" (Video.download_path video)) in
             ex ← os_path_exists video_folder;
             (if ex : bool then rmtree video_folder else ret tt);;
             commit_video i (Video.set_missing video);;
             ret (true, "Video files deleted successfully"))
            (fun e => ret (false, "Error: " +:+ exn_str e))
  end.

(** ** [background_checker] of [main.py] *)

(** [time.sleep(n)] for an integer [n]: [ValueError] below zero, and
    [OverflowError] when [n] seconds do not fit the 64-bit count of
    nanoseconds; a call that raises sleeps nothing. *)
Definition time_sleep_max : Z := 9223372036.

Definition time_sleep (n : Z) : M unit :=
  fun w =>
    if n <? 0 then (Raise (PyError "sleep length must be non-negative"), w)
    else if time_sleep_max <? n then
      (Raise (PyError "timestamp too large to convert to C _PyTime_t"), w)
    else (Ok tt, set_slept (slept w ++ [n]) w).

(** [int(get_setting(key))] *)
Definition int_setting (key : string) : M Z :=
  v ← get_setting key;
  match v with
  | None => raise (PyError "int() argument must be a string, not NoneType")
  | Some s =>
      match Py.int s with
      | Some n => ret n
      | None => raise (PyError "invalid literal for int()")
      end
  end.

(** [get_setting(key).lower() == "true"] *)
Definition flag_setting (key : string) : M bool :=
  v ← get_setting key;
  match v with
  | None => raise (PyError "NoneType object has no attribute lower")
  | Some s => ret (bool_decide (Py.lower s = "true"))
  end.

(** The body of [while True:] (lines 74-90). *)
Definition background_checker_iteration : M unit :=
  try_except
    (check_interval ← int_setting "check_interval";
     auto_download ← flag_setting "auto_download";
     _ ← refresh_sources;
     time_sleep check_interval)
    (fun _ => time_sleep 60).

(** The first [n] rounds of the endless loop. *)
Fixpoint background_checker (n : nat) : M unit :=
  match n with
  | O => ret tt
  | S n' => background_checker_iteration;; background_checker n'
  end.

End Core.

(** ** Handlers of [main.py] that change the status of a row *)

(** [video.file_deleted = b] *)
Definition set_file_deleted (b : bool) (v : Video.t) : Video.t :=
  Video.mk (Video.id v) (Video.video_id v) (Video.title v)
    (Video.channel_name v) (Video.upload_date v) (Video.source_id v)
    (Video.downloaded v) (Video.download_path v) (Video.download_date v)
    (Video.thumbnail_url v) (Video.duration v) b (Video.skip v)
    (Video.failed_download v) (Video.error_message v).

(** [video.skip = b] *)
Definition set_skip (b : bool) (v : Video.t) : Video.t :=
  Video.mk (Video.id v) (Video.video_id v) (Video.title v)
    (Video.channel_name v) (Video.upload_date v) (Video.source_id v)
    (Video.downloaded v) (Video.download_path v) (Video.download_date v)
    (Video.thumbnail_url v) (Video.duration v) (Video.file_deleted v) b
    (Video.failed_download v) (Video.error_message v).

(** [source.auto_download = b] *)
Definition set_auto_download (b : bool) (s : Source.t) : Source.t :=
  Source.mk (Source.id s) (Source.source_type s) (Source.source_id s)
    (Source.name s) (Source.last_checked s) (Source.subfolder_id s) b.

Definition reset_deleted_video (video_id : string) : M response :=
  vs ← get videos;
  match find_video video_id vs with
  | None => ret (HTTPException 404 "Video not found")
  | Some (i, video) =>
      if negb (Video.file_deleted video) then
        ret (JSONResponse [("success", JBool false);
                           ("message", JStr "Video is not marked as deleted")])
      else
        commit_video i (set_skip false (set_file_deleted false video));;
        ret (JSONResponse [("success", JBool true);
                           ("message", JStr "Video reset successfully")])
  end.

Definition toggle_skip (video_id : string) : M response :=
  vs ← get videos;
  match find_video video_id vs with
  | None => ret (HTTPException 404 "Video not found")
  | Some (i, video) =>
      let video := set_skip (negb (Video.skip video)) video in
      commit_video i video;;
      ret (JSONResponse [("success", JBool true);
                         ("skip", JBool (Video.skip video))])
  end.

Definition reset_failed_video (video_id : string) : M response :=
  vs ← get videos;
  match find_video video_id vs with
  | None => ret (HTTPException 404 "Video not found")
  | Some (i, video) =>
      if negb (Video.failed_download video) then
        ret (JSONResponse [("success", JBool false);
                           ("message", JStr "Video is not marked as failed")])
      else
        commit_video i (Video.set_failed false None video);;
        ret (JSONResponse [("success", JBool true);
                           ("message", JStr "Failed status reset successfully")])
  end.

Definition toggle_auto_download (source_id : Z) : M response :=
  srcs ← get sources;
  match list_find (fun s => Source.id s = source_id) srcs with
  | None => ret (HTTPException 404 "Source not found")
  | Some (i, source) =>
      let source := set_auto_download (negb (Source.auto_download source)) source in
      modify (fun w => set_sources (<[i := source]> (sources w)) w);;
      commit;;
      ret (JSONResponse [("success", JBool true);
                         ("auto_download", JBool (Source.auto_download source))])
  end.

Definition delete_video (video_id : string) : M response :=
  '(success, message) ← delete_video_files video_id;
  ret (JSONResponse [("success", JBool success); ("message", JStr message)]).

(** ** Subfolder handlers of [main.py] *)

Definition set_subfolders (x : list Subfolder.t) (w : World) : World :=
  mkWorld (settings w) (videos w) (sources w) x (fs w) (cwd w)
    (GLOBAL_COOKIE_FILE w) (COOKIE_TIMESTAMP w) (tool_calls w) (commits w)
    (clock_reads w) (slept w).

(** [subfolder.is_default = b] *)
Definition set_is_default (b : bool) (s : Subfolder.t) : Subfolder.t :=
  Subfolder.mk (Subfolder.id s) (Subfolder.name s) (Subfolder.path s) b.

(** [current_default = db.query(Subfolder).filter_by(is_default=True).first()]
    and, if there is one, [current_default.is_default = False]. *)
Definition unset_default (subs : list Subfolder.t) : list Subfolder.t :=
  match list_find (fun s => Subfolder.is_default s = true) subs with
  | Some (j, _) => alter (set_is_default false) j subs
  | None => subs
  end.

(** The primary key the store gives to an inserted subfolder. *)
Definition next_subfolder_pk (subs : list Subfolder.t) : Z :=
  1 + List.fold_right (fun s acc => Z.max (Subfolder.id s) acc) 0 subs.

Definition add_subfolder (name description : string) (is_default : bool)
  : M response :=
  subs ← get subfolders;
  match list_find (fun s => Subfolder.name s = name) subs with
  | Some _ =>
      ret (HTTPException 400
             ("Subfolder with name '" +:+ name +:+ "' already exists"))
  | None =>
      download_path ← get_setting "download_path";
      match download_path with
      | None =>
          raise (PyError "expected str, bytes or os.PathLike object, not NoneType")
      | Some download_path =>
          let subfolder_path :=
            Py.join download_path (Py.lower (Py.replace " " "_" name)) in
          let subs := if is_default then unset_default subs else subs in
          let new_subfolder :=
            Subfolder.mk (next_subfolder_pk subs) name subfolder_path is_default in
          os_makedirs subfolder_path;;
          modify (set_subfolders (subs ++ [new_subfolder]));;
          commit;;
          ret (RedirectResponse "/subfolders" 303)
      end
  end.

Definition set_default_subfolder (subfolder_id : Z) : M response :=
  subs ← get subfolders;
  match list_find (fun s => Subfolder.id s = subfolder_id) subs with
  | None =>
      ret (HTTPException 404
             ("Subfolder " +:+ pretty subfolder_id +:+ " not found"))
  | Some (i, _) =>
      modify (set_subfolders (alter (set_is_default true) i (unset_default subs)));;
      commit;;
      ret (RedirectResponse "/subfolders" 303)
  end.

(** ** Worker loops: [process_download_queue] and [scan_library] *)

Section Workers.

Context (E : Env).

(** [download_queue_running] and [library_scan_running] are switched by
    other threads: [running k] is what the [k]-th read of the flag gives. *)
Context (running : nat -> bool).

(** [for _ in range(n): if not running: break; time.sleep(1)], from read
    number [k] on; the result is the number of the next read. *)
Fixpoint wait_seconds (n : nat) (k : nat) : M nat :=
  match n with
  | O => ret k
  | S n' =>
      if running k then time_sleep 1;; wait_seconds n' (S k) else ret (S k)
  end.

(** Lines 641-649: the delay between two downloads. *)
Definition download_delay_setting : M Z :=
  try_except
    (download_delay ← int_setting "download_delay";
     ret (if download_delay <? 5 then 5 else download_delay))
    (fun _ => ret 60).

(** The body of [while download_queue_running:] (lines 636-722). *)
Definition queue_iteration (k : nat) : M nat :=
  try_except
    (global_auto_download ← flag_setting "auto_download";
     download_delay ← download_delay_setting;
     if negb global_auto_download then time_sleep 10;; ret k
     else
       video ← get next_video;
       match video with
       | Some video =>
           _ ← download_video E (Video.video_id video);
           wait_seconds (Z.to_nat download_delay) k
       | None => wait_seconds 10 k
       end)
    (fun _ => time_sleep 10;; ret k).

(** The first [fuel] rounds of [process_download_queue]. *)
Fixpoint process_download_queue (fuel k : nat) : M nat :=
  match fuel with
  | O => ret k
  | S fuel' =>
      if running k then
        k' ← queue_iteration (S k); process_download_queue fuel' k'
      else ret (S k)
  end.

(** The body of [while library_scan_running:] (lines 966-999). *)
Definition scan_library_iteration (k : nat) : M nat :=
  try_except
    (scan_interval ← int_setting "scan_interval";
     _ ← scan_pass;
     wait_seconds (Z.to_nat scan_interval) k)
    (fun _ => time_sleep 60;; ret k).

(** The first [fuel] rounds of [scan_library]. *)
Fixpoint scan_library (fuel k : nat) : M nat :=
  match fuel with
  | O => ret k
  | S fuel' =>
      if running k then
        k' ← scan_library_iteration (S k); scan_library fuel' k'
      else ret (S k)
  end.

End Workers.

(** ** [add_source] *)

Definition upper_ascii (a : ascii) : ascii :=
  let n := nat_of_ascii a in
  if ((97 <=? n)%nat && (n <=? 122)%nat) then ascii_of_nat (n - 32) else a.

(** [s.capitalize()] on ASCII text. *)
Definition capitalize (s : string) : string :=
  match s with
  | EmptyString => EmptyString
  | String a s' => String (upper_ascii a) (Py.lower s')
  end.

(** The primary key the store gives to an inserted source. *)
Definition next_source_pk (srcs : list Source.t) : Z :=
  1 + List.fold_right (fun s acc => Z.max (Source.id s) acc) 0 srcs.

Section AddSource.

Context (E : Env).

(** What [video_data.get("duration", 0)] leaves in the integer column. *)
Context (duration_of : descriptor -> option Z).

(** Lines 827-844: the row built for a listed item. *)
Definition listed_video (source_type : string) (new_source_id : Z)
    (video_data : descriptor) (vs : list Video.t) : Video.t :=
  Video.mk (next_video_pk vs)
    (default "" (video_data !! "id"))
    (Some (default "Unknown" (video_data !! "title")))
    (Some (default "Unknown" (video_data !! "channel")))
    (Some (normalize_upload_date video_data))
    (Some new_source_id)
    false None None
    (Some (default "" (video_data !! "thumbnail")))
    (if bool_decide (source_type = "video") then duration_of video_data else None)
    false false false None.

(** Lines 811-846: insert what the session does not hold yet. *)
Fixpoint add_videos (source_type : string) (new_source_id : Z)
    (videos_info : list descriptor) (vs : list Video.t) : list Video.t :=
  match videos_info with
  | [] => vs
  | video_data :: rest =>
      match find_video (default "" (video_data !! "id")) vs with
      | Some _ => add_videos source_type new_source_id rest vs
      | None =>
          add_videos source_type new_source_id rest
            (vs ++ [listed_video source_type new_source_id video_data vs])
      end
  end.

(** Lines 758-789: the name of the source and the items to insert;
    [inl] is the message of an early return. *)
Definition source_information (source_type source_id : string)
  : M (string + option string * list descriptor) :=
  if bool_decide (source_type = "video") then
    video_info ← get_video_info E source_id;
    match video_info with
    | Some d =>
        if bool_decide (d = ∅) then ret (inl "Failed to get video information")
        else ret (inr (Some (default "Unknown video" (d !! "title")), [d]))
    | None => ret (inl "Failed to get video information")
    end
  else if bool_decide (source_type = "channel") then
    videos_info ← get_channel_videos E source_id;
    match videos_info with
    | first :: _ =>
        ret (inr (Some (default "Unknown channel" (first !! "channel")),
                  videos_info))
    | [] => ret (inl "Failed to get channel information or no videos found")
    end
  else if bool_decide (source_type = "playlist") then
    videos_info ← get_playlist_videos E source_id;
    match videos_info with
    | _ :: _ => ret (inr (Some ("Playlist " +:+ source_id), videos_info))
    | [] => ret (inl "Failed to get playlist information or no videos found")
    end
  else ret (inr (None, [])).

Definition add_source (source_type source_id : string)
    (subfolder_id : option Z) (auto_download : bool) : M (bool * string) :=
  srcs ← get sources;
  match list_find (fun s => Source.source_id s = source_id) srcs with
  | Some _ => ret (false, capitalize source_type +:+ " already exists in database")
  | None =>
      info ← source_information source_type source_id;
      match info with
      | inl message => ret (false, message)
      | inr (name, videos_info) =>
          subs ← get subfolders;
          let subfolder_id :=
            match subfolder_id with
            | Some fid => Some fid
            | None =>
                match list_find (fun s => Subfolder.is_default s = true) subs with
                | Some (_, default_subfolder) => Some (Subfolder.id default_subfolder)
                | None => None
                end
            end in
          _ ← now E;
          last_checked ← now E;
          let new_source :=
            Source.mk (next_source_pk srcs) source_type source_id name
              (Some last_checked) subfolder_id auto_download in
          vs ← get videos;
          modify (fun w =>
            set_sources (srcs ++ [new_source])
              (set_videos (add_videos source_type (Source.id new_source)
                             videos_info vs) w));;
          commit;;
          ret (true, "Added " +:+ source_type +:+ " with "
                     +:+ pretty (List.length videos_info) +:+ " videos")
      end
  end.

End AddSource.

(** ** Vocabulary of the statements *)

(** [c] moves the world along [R] whatever it returns. *)
Definition preserves {A} (R : World -> World -> Prop) (c : M A) : Prop :=
  forall w, R w (c w).2.

(** The persistent tables and the commit counter stay as they are. *)
Definition same_db (w w' : World) : Prop :=
  settings w' = settings w /\ videos w' = videos w /\ sources w' = sources w
  /\ subfolders w' = subfolders w /\ commits w' = commits w /\ cwd w' = cwd w
  /\ slept w' = slept w.

(** Nothing but the file system and the credential globals changes. *)
Definition same_but_files (w w' : World) : Prop :=
  same_db w w' /\ tool_calls w' = tool_calls w /\ clock_reads w' = clock_reads w.

(** The tables, the commit counter and the clock stay as they are; files,
    credential globals and the log of tool calls may change. *)
Definition same_but_tool (w w' : World) : Prop :=
  same_db w w' /\ clock_reads w' = clock_reads w.

Definition video_ids (vs : list Video.t) : list string := List.map Video.video_id vs.

(** What [add_new_videos] appends for one source. *)
Definition inserted (source : Source.t) (videos_info : list descriptor)
    (before : list Video.t) (v : Video.t) : Prop :=
  (Video.video_id v ∉ video_ids before)
  /\ Video.source_id v = Some (Source.id source)
  /\ Video.skip v = negb (Source.auto_download source)
  /\ exists video_data vs0, video_data ∈ videos_info
       /\ v = new_video source video_data vs0.

(** A non-video source after the pass: [last_checked] holds a reading of
    the clock taken during the pass; a video source is as it was. *)
Definition source_after (E : Env) (w : World) (s s' : Source.t) : Prop :=
  if bool_decide (Source.source_type s = "video") then s' = s
  else exists k, (clock_reads w <= k)%nat
                 /\ s' = Source.set_last_checked (utcnow E k) s.

(** A source the pass sent to the resolver, with what the resolver gave. *)
Definition polled_by (E : Env) (p : Source.t * list descriptor) : Prop :=
  Source.source_type p.1 <> "video"
  /\ exists w, (resolve E p.1 w).1 = Ok p.2.

(** What the loop of one pass has done to the session. *)
Definition pass_result (E : Env) (w : World) (srcs srcs' : list Source.t)
    (vs vs' : list Video.t) (n n' : nat) : Prop :=
  Forall2 (source_after E w) srcs srcs'
  /\ exists (polled : list (Source.t * list descriptor)) (new : list Video.t),
      polled.*1 = filter (fun s => Source.source_type s <> "video") srcs
      /\ Forall (polled_by E) polled
      /\ vs' = vs ++ new
      /\ n' = (n + List.length new)%nat
      /\ NoDup (video_ids new)
      /\ Forall (fun v => exists p, p ∈ polled /\ inserted p.1 p.2 vs v) new
      /\ Forall (fun p =>
                  Forall (fun d => default "" (d !! "id") ∈ video_ids vs') p.2)
           polled.

(** What a pass asks the resolver for one source that is not a single
    video: the listing of a channel or of a playlist, and nothing for any
    other type. *)
Inductive polled_source (E : Env) (s : Source.t) (w : World)
  : result (list descriptor) -> World -> Prop :=
| polled_channel r w1 :
    Source.source_type s = "channel" ->
    get_channel_videos E (Source.source_id s) w = (r, w1) ->
    polled_source E s w r w1
| polled_playlist r w1 :
    Source.source_type s = "playlist" ->
    get_playlist_videos E (Source.source_id s) w = (r, w1) ->
    polled_source E s w r w1
| polled_other :
    Source.source_type s <> "channel" ->
    Source.source_type s <> "playlist" ->
    polled_source E s w (Ok []) w.

(** How the resolver calls of a pass end: all of them returned, or one of
    them raised. *)
Inductive pass_end :=
| Finished (w : World)
| Aborted (e : exn) (w : World).

(** The resolver calls of one pass over [srcs], in order, from the world
    [w]: sources of type "video" are passed over; each other source is
    polled in the world the pass has reached, and the clock is read once
    after its descriptors have been handled.  [polls] collects, for each
    source polled, its descriptors and that clock reading. *)
Inductive polls (E : Env)
  : World -> list Source.t -> list (Source.t * list descriptor * Z)
    -> pass_end -> Prop :=
| polls_nil w : polls E w [] [] (Finished w)
| polls_skip w s srcs ps o :
    Source.source_type s = "video" ->
    polls E w srcs ps o ->
    polls E w (s :: srcs) ps o
| polls_step w s srcs d w1 ps o :
    Source.source_type s <> "video" ->
    polled_source E s w (Ok d) w1 ->
    polls E (set_clock_reads (S (clock_reads w1)) w1) srcs ps o ->
    polls E w (s :: srcs) ((s, d, utcnow E (clock_reads w1)) :: ps) o
| polls_abort w s srcs e w1 :
    Source.source_type s <> "video" ->
    polled_source E s w (Raise e) w1 ->
    polls E w (s :: srcs) [] (Aborted e w1).

(** A source after a pass that finished: a single video is as it was; any
    other source has, as [last_checked], the clock reading taken when it
    was polled. *)
Definition stamped (polled : list (Source.t * list descriptor * Z))
    (s s' : Source.t) : Prop :=
  if bool_decide (Source.source_type s = "video") then s' = s
  else exists d t, (s, d, t) ∈ polled /\ s' = Source.set_last_checked t s.


(** A call made by [get_video_info]. *)
Definition is_info_call (c : tool_call) : Prop :=
  call_cmd c !! 2%nat = Some "--dump-json".

(** The calls of the one or two attempts of [download_video], with what
    they return to the code that follows and the files the last one left. *)
Inductive attempt_trace (video_id output_file : string) (fs_end : FS)
  : list tool_call -> result (Z * string * string) -> Prop :=
| first_exits_zero ck out err :
    attempt_trace video_id output_file fs_end
      [mkCall (first_attempt_cmd ck output_file video_id) (Some (0, out, err)) fs_end]
      (Ok (0, out, err))
| second_exits ck rc1 out1 err1 fs1 rc out err :
    rc1 <> 0 ->
    attempt_trace video_id output_file fs_end
      [mkCall (first_attempt_cmd ck output_file video_id) (Some (rc1, out1, err1)) fs1;
       mkCall (second_attempt_cmd ck output_file video_id) (Some (rc, out, err)) fs_end]
      (Ok (rc, out, err))
| first_not_started ck msg :
    attempt_trace video_id output_file fs_end
      [mkCall (first_attempt_cmd ck output_file video_id) None fs_end]
      (Raise (PyError msg))
| second_not_started ck rc1 out1 err1 fs1 msg :
    rc1 <> 0 ->
    attempt_trace video_id output_file fs_end
      [mkCall (first_attempt_cmd ck output_file video_id) (Some (rc1, out1, err1)) fs1;
       mkCall (second_attempt_cmd ck output_file video_id) None fs_end]
      (Raise (PyError msg)).

(** The row after the thumbnail step: as before, or with a new
    [thumbnail_url]. *)
Definition thumbnail_step (video video' : Video.t) : Prop :=
  video' = video \/ exists u, video' = Video.set_thumbnail_url u video.

(** How the row [i] ends, given what the attempts returned and the files
    the last one left. *)
Definition attempt_outcome (i : nat) (video : Video.t) (output_file : string)
    (fs_end : FS) (res : result (Z * string * string))
    (before : list Video.t) (r : result (bool * string))
    (after : list Video.t) : Prop :=
  match res with
  | Raise e =>
      r = Ok (false, "Exception: " +:+ exn_str e)
      /\ after = <[i := Video.set_failed true (Some (stored_error (exn_str e)))
                          video]> before
  | Ok (rc, _, err) =>
      if negb (rc =? 0) then
        r = Ok (false, "yt-dlp error: " +:+ Py.strip err)
        /\ after = <[i := Video.set_failed true
                            (Some (stored_error (Py.strip err))) video]> before
      else if too_small output_file fs_end then
        r = Ok (false, "Download failed or file too small")
        /\ after = <[i := Video.set_failed true
                            (Some "Download failed or file too small") video]>
                     before
      else
        exists video' t,
          thumbnail_step video video'
          /\ r = Ok (true, "Downloaded successfully: " +:+ output_file)
          /\ after = <[i := Video.set_downloaded t output_file video']> before
  end.

(** Lines 235-239: the row the attempts start from. *)
Definition retry_reset (v : Video.t) : Video.t :=
  if Video.failed_download v then Video.set_failed false None v else v.

(** [c] adds at most [n] entries to the log of tool invocations. *)
Definition adds_calls {A} (n : nat) (c : M A) : Prop :=
  forall w, exists l,
    tool_calls (c w).2 = tool_calls w ++ l /\ (List.length l <= n)%nat.

Definition unsafe_chars : list ascii :=
  ["/"; "\"; ":"; "?"; ascii_of_nat 34; "*"; "<"; ">"; "|"]%char.

Definition queue_candidate (w : World) (v : Video.t) : Prop :=
  Video.eligible v = true
  /\ exists s, In s (sources w)
       /\ Video.source_id v = Some (Source.id s)
       /\ if existsb Source.auto_download (sources w)
          then Source.auto_download s = true
          else Source.source_type s = "video".

(** At most one subfolder is the default. *)
Definition one_default (subs : list Subfolder.t) : Prop :=
  forall j k s t, subs !! j = Some s -> subs !! k = Some t ->
    Subfolder.is_default s = true -> Subfolder.is_default t = true -> j = k.

(** Settings, sources, subfolders, the working directory and the record of
    sleeps stay as they are. *)
Definition same_config (w w' : World) : Prop :=
  settings w' = settings w /\ sources w' = sources w
  /\ subfolders w' = subfolders w /\ cwd w' = cwd w /\ slept w' = slept w.

(** The value [get_setting key] returns. *)
Definition setting_value (key : string) (w : World) : option string :=
  s ← settings w !! key; Setting.value s.


(** Text made of ASCII white space only (the empty text included). *)
Fixpoint ascii_blank (s : string) : bool :=
  match s with
  | EmptyString => true
  | String a s' => Py.isspace a && ascii_blank s'
  end.

(** What [int(get_setting(key))] gives: [None] when it raises. *)
Definition int_of_setting (key : string) (w : World) : option Z :=
  setting_value key w ≫= Py.int.

(** The global switch as the queue processor reads it. *)
Definition switch_on (w : World) : bool :=
  match setting_value "auto_download" w with
  | Some s => bool_decide (Py.lower s = "true")
  | None => false
  end.

(** The delay the queue processor uses. *)
Definition download_delay (w : World) : Z :=
  match int_of_setting "download_delay" w with
  | Some n => Z.max 5 n
  | None => 60
  end.

(** A row [add_source] inserts: its id was not in the table, it belongs to
    the new source, it is eligible for the queue, and it is one of the
    listed items. *)
Definition listed (new_source_id : Z) (videos_info : list descriptor)
    (before : list Video.t) (v : Video.t) : Prop :=
  (Video.video_id v ∉ video_ids before)
  /\ Video.source_id v = Some new_source_id
  /\ Video.eligible v = true
  /\ exists video_data, video_data ∈ videos_info
       /\ Video.video_id v = default "" (video_data !! "id").

(** The subfolder a new source gets. *)
Definition chosen_subfolder (subfolder_id : option Z) (subs : list Subfolder.t)
  : option Z :=
  match subfolder_id with
  | Some fid => Some fid
  | None =>
      match list_find (fun s => Subfolder.is_default s = true) subs with
      | Some (_, default_subfolder) => Some (Subfolder.id default_subfolder)
      | None => None
      end
  end.

(** ** A concrete environment and store, for running the model *)

Module Demo.

(** Lines separated by a line feed. *)
Fixpoint lines_from (cur : string) (s : string) : list string :=
  match s with
  | EmptyString => if Py.truthy cur then [cur] else []
  | String a s' =>
      if Ascii.eqb a "010" then cur :: lines_from "" s'
      else lines_from (cur +:+ String a EmptyString) s'
  end.

Definition listing_entry : descriptor :=
  {[ "id" := "v9"; "title" := "From listing"; "url" := "watch?v=v9" ]}.

Definition lookup_entry : descriptor :=
  {[ "id" := "v9"; "title" := "From lookup"; "channel" := "Chan" ]}.

Definition parse (s : string) : option descriptor :=
  if String.eqb s "{listing}" then Some listing_entry
  else if String.eqb s "{lookup}" then Some lookup_entry
  else None.

(** The argument that follows [-o]. *)
Definition target (cmd : list string) : string :=
  default "" (cmd !! (List.length cmd - 2)%nat).

(** How the tool answers a download command. *)
Inductive download_mode :=
| Delivers (size : Z)
| Fails (returncode : Z) (stderr : string)
| Missing.

Definition tool (mode : download_mode) (cmd : list string) (n : nat) (f : FS)
  : proc_outcome :=
  match mode with
  | Missing => NotStarted "[Errno 2] No such file or directory: 'yt-dlp'"
  | _ =>
      if bool_decide ("--flat-playlist" ∈ cmd) then Completed 0 "{listing}" "" f
      else if bool_decide ("--dump-json" ∈ cmd) then Completed 0 "{lookup}" "" f
      else
        match mode with
        | Delivers size =>
            Completed 0 "" ""
              (mkFS (<[target cmd := BlobFile size]> (files f)) (dirs f))
        | Fails rc err => Completed rc "" err f
        | Missing => NotStarted ""
        end
  end.

Definition env (mode : download_mode) : Env :=
  mkEnv (tool mode) parse (lines_from "")
    (fun n => 1700000000 + Z.of_nat n)
    (fun p _ => p) (fun s => s) (fun _ => None)
    (fun _ _ => Some "<movie/>") (fun _ _ => Some "<metadata/>").

Definition base_settings : gmap string Setting.t :=
  {[ "download_path" := Setting.mk 1 (Some "/data");
     "check_interval" := Setting.mk 3 (Some "3600");
     "auto_download" := Setting.mk 4 (Some "true") ]}.

(** An item whose file was deleted earlier. *)
Definition deleted_item : Video.t :=
  Video.mk 1 "v1" (Some "Clip") (Some "Chan") (Some "20240101") (Some 1)
    false (Some "/data/Clip/Clip.mp4") (Some 1600000000) None None
    true true false None.

(** An item that is in the library. *)
Definition kept_item : Video.t :=
  Video.mk 2 "v2" (Some "Talk") (Some "Chan") (Some "20240102") (Some 1)
    true (Some "/data/Talk/Talk.mp4") (Some 1600000001) None None
    false false false None.

(** An item waiting in the queue. *)
Definition queued_item : Video.t :=
  Video.mk 3 "v3" (Some "Demo") (Some "Chan") (Some "20240103") (Some 1)
    false None None None None false false false None.

Definition channel : Source.t :=
  Source.mk 1 "channel" "UC1" (Some "Chan") (Some 1500000000) None true.

Definition single : Source.t :=
  Source.mk 2 "video" "v7" (Some "One") (Some 1500000000) None true.

Definition world : World :=
  mkWorld base_settings [deleted_item; kept_item; queued_item]
    [single; channel] [] (mkFS ∅ ∅) "/app" None 0 [] 0 0 [].

End Demo.

Module Scenario.

(** The credential text is set to "A". *)
Definition cookie_world : World :=
  (update_setting "youtube_cookies" "A" Demo.world).2.

(** ... and a first call of [get_cookie_file] has written the file. *)
Definition cached_world : World := (get_cookie_file cookie_world).2.

(** ... and the credential text has then been cleared. *)
Definition cleared_world : World := (clear_youtube_cookies cached_world).2.

End Scenario.

Module Shelves.

(** A store with two subfolders, the first one the default. *)
Definition world : World :=
  set_subfolders [Subfolder.mk 1 "Default" "/data/default" true;
                  Subfolder.mk 2 "Music" "/data/music" false] Demo.world.

End Shelves.

Module Tuned.

(** The download delay is set below the minimum, and the scan interval to
    two seconds. *)
Definition world : World :=
  set_settings
    (<["download_delay" := Setting.mk 6 (Some "2")]>
       (<["scan_interval" := Setting.mk 5 (Some "2")]> Demo.base_settings))
    Demo.world.

End Tuned.

Module Paused.

(** The global switch is turned off. *)
Definition world : World := (update_setting "auto_download" "false" Demo.world).2.

End Paused.

Module Library.

(** The store after the queued item has been downloaded. *)
Definition world : World :=
  (download_video (Demo.env (Demo.Delivers 20000)) "v3" Demo.world).2.

(** Its row, now marked as downloaded. *)
Definition row : Video.t := default Demo.queued_item (videos world !! 2%nat).

End Library.

(** ** Reasoning about computations in [M] *)

Section Preserves.

Context (R : World -> World -> Prop) `{!PreOrder R}.

Lemma preserves_ret {A} (a : A) : preserves R (mret a).
Proof. intros w. reflexivity. Qed.

Lemma preserves_raise {A} (e : exn) : preserves R (@raise A e).
Proof. intros w. reflexivity. Qed.

Lemma preserves_get {A} (f : World -> A) : preserves R (get f).
Proof. intros w. reflexivity. Qed.

Lemma preserves_bind {A B} (c : M A) (k : A -> M B) :
  preserves R c -> (forall a, preserves R (k a)) -> preserves R (c ≫= k).
Proof.
  intros Hc Hk w. unfold mbind, M_bind, bind.
  specialize (Hc w). destruct (c w) as [[a|e] w1]; simpl in *; [|done].
  etrans; [exact Hc | apply Hk].
Qed.

Lemma preserves_try_except {A} (c : M A) (h : exn -> M A) :
  preserves R c -> (forall e, preserves R (h e)) -> preserves R (try_except c h).
Proof.
  intros Hc Hh w. unfold try_except.
  specialize (Hc w). destruct (c w) as [[a|e] w1]; simpl in *; [done|].
  etrans; [exact Hc | apply Hh].
Qed.

Lemma preserves_modify (f : World -> World) :
  (forall w, R w (f w)) -> preserves R (modify f).
Proof. intros Hf w. apply Hf. Qed.

End Preserves.

(** Split a goal [preserves R c] along the structure of [c]. *)
Ltac preserves_step :=
  lazymatch goal with
  | |- preserves _ (mret _) => apply: preserves_ret
  | |- preserves _ (ret _) => apply: preserves_ret
  | |- preserves _ (raise _) => apply: preserves_raise
  | |- preserves _ (get _) => apply: preserves_get
  | |- preserves _ (_ ≫= _) => apply: preserves_bind; [| intros ?]
  | |- preserves _ (try_except _ _) => apply: preserves_try_except; [| intros ?]
  | |- preserves _ (match ?x with _ => _ end) => destruct x eqn:?
  | |- preserves _ (let '(_, _) := ?x in _) => destruct x eqn:?
  end.

Ltac preserves_auto := repeat (first [ preserves_step | solve [ eauto with frame ] ]).

#[export] Instance same_db_preorder : PreOrder same_db.
Proof.
  split.
  - intros w. by repeat split.
  - intros a b c (?&?&?&?&?&?&?) (?&?&?&?&?&?&?). repeat split; congruence.
Qed.

#[export] Instance same_but_files_preorder : PreOrder same_but_files.
Proof.
  split.
  - intros w. by repeat split.
  - intros a b c (?&?&?) (?&?&?). split; [by trans b|]. split; congruence.
Qed.

Lemma os_makedirs_files p : preserves same_but_files (os_makedirs p).
Proof. intros w. unfold os_makedirs. by case_match. Qed.

Lemma os_remove_files p : preserves same_but_files (os_remove p).
Proof. intros w. unfold os_remove. by case_match. Qed.

Lemma write_text_files p s : preserves same_but_files (write_text p s).
Proof. intros w. unfold write_text. by case_match. Qed.

Lemma set_cookie_file_files x : preserves same_but_files (modify (set_cookie_file x)).
Proof. by intros w. Qed.

Lemma set_cookie_timestamp_files x :
  preserves same_but_files (modify (set_cookie_timestamp x)).
Proof. by intros w. Qed.

Create HintDb frame.
#[export] Hint Resolve os_makedirs_files os_remove_files write_text_files
  set_cookie_file_files set_cookie_timestamp_files : frame.

Lemma get_setting_files key : preserves same_but_files (get_setting key).
Proof. apply: preserves_get. Qed.

Lemma os_path_exists_files p : preserves same_but_files (os_path_exists p).
Proof. apply: preserves_get. Qed.

#[export] Hint Resolve get_setting_files os_path_exists_files : frame.

Lemma get_cookie_file_files : preserves same_but_files get_cookie_file.
Proof.
  unfold get_cookie_file, check_cookie_timestamp. preserves_auto.
Qed.

(** ** Download worker: the short-circuit on acquired items *)

(** C5.  Calling [download_video] on an item whose [downloaded] flag is set
    returns success and leaves the whole world as it was: no field of any
    row changes, nothing is committed, and the log of tool invocations is
    the same, so the external tool was not run. *)
Theorem download_video_idempotent (E : Env) (video_id : string) (w : World)
    (i : nat) (v : Video.t) :
  find_video video_id (videos w) = Some (i, v) ->
  Video.downloaded v = true ->
  download_video E video_id w = (Ok (true, "Video already downloaded"), w).
Proof.
  intros Hfind Hdone.
  rewrite /download_video /mbind /M_bind /bind /get /= Hfind Hdone. done.
Qed.

Lemma download_video_idempotent_witness :
  find_video "v2" (videos Demo.world) = Some (1%nat, Demo.kept_item)
  /\ Video.downloaded Demo.kept_item = true
  /\ download_video (Demo.env (Demo.Delivers 20000)) "v2" Demo.world
     = (Ok (true, "Video already downloaded"), Demo.world).
Proof.
  split; [reflexivity|]. split; [reflexivity|].
  apply (download_video_idempotent _ "v2" Demo.world 1%nat Demo.kept_item);
    reflexivity.
Defined.

(** ** Queue processor: what the selection can return *)

Lemma eligible_flags (v : Video.t) :
  Video.eligible v = true <->
  Video.downloaded v = false /\ Video.file_deleted v = false
  /\ Video.skip v = false /\ Video.failed_download v = false.
Proof.
  rewrite /Video.eligible.
  destruct (Video.downloaded v), (Video.file_deleted v), (Video.skip v),
    (Video.failed_download v); simpl; intuition congruence.
Qed.

(** C6.  Whatever [next_video] selects is a row of the table with
    [downloaded], [file_deleted], [skip] and [failed_download] all false;
    this covers the branch taken when some source has auto-download and the
    branch that falls back to items of single-video sources. *)
Theorem next_video_eligible (w : World) (v : Video.t) :
  next_video w = Some v ->
  In v (videos w)
  /\ Video.downloaded v = false /\ Video.file_deleted v = false
  /\ Video.skip v = false /\ Video.failed_download v = false.
Proof.
  rewrite /next_video.
  destruct (List.map Source.id (List.filter Source.auto_download (sources w)))
    as [|s0 ids] eqn:Hids; intros Hsel; apply find_some in Hsel as [Hin Hp].
  - split; [done|]. apply eligible_flags. rewrite /Video.eligible.
    destruct (Video.downloaded v), (Video.file_deleted v), (Video.skip v),
      (Video.failed_download v); try done;
      rewrite ?andb_false_r ?andb_true_r /= in Hp; done.
  - apply filter_In in Hin as [Hin Hel]. split; [done|]. by apply eligible_flags.
Qed.

Lemma next_video_eligible_witness :
  next_video Demo.world = Some Demo.queued_item
  /\ In Demo.queued_item (videos Demo.world)
  /\ Video.downloaded Demo.queued_item = false
  /\ Video.file_deleted Demo.queued_item = false
  /\ Video.skip Demo.queued_item = false
  /\ Video.failed_download Demo.queued_item = false.
Proof.
  split; [reflexivity|].
  apply (next_video_eligible Demo.world Demo.queued_item). reflexivity.
Defined.

(** ** Source resolver: how a listing entry and its lookup are merged *)




(** ** Credential cache *)

(** C2 at the failing input.  The setting is written as "A" and the file
    is created; the setting is then changed to "B"; the next call still
    returns the file, and the file still holds "A". *)
Theorem cookie_file_stale_after_update :
  let w1 := (update_setting "youtube_cookies" "A" Demo.world).2 in
  let w2 := (get_cookie_file w1).2 in
  let w3 := (update_setting "youtube_cookies" "B" w2).2 in
  let r := get_cookie_file w3 in
  (get_cookie_file w1).1 = Ok (Some "/app/downloads/.temp/youtube_cookies.txt")
  /\ read_text "/app/downloads/.temp/youtube_cookies.txt" w2 = Some "A"
  /\ (get_setting "youtube_cookies" w3).1 = Ok (Some "B")
  /\ r.1 = Ok (Some "/app/downloads/.temp/youtube_cookies.txt")
  /\ read_text "/app/downloads/.temp/youtube_cookies.txt" r.2 = Some "A".
Proof. vm_compute. by repeat split. Qed.

Lemma ascii_blank_lstrip s : ascii_blank s = true -> Py.lstrip s = "".
Proof.
  induction s as [|a s IH]; simpl; [done|].
  intros [Ha Hs]%andb_prop. rewrite Ha. by apply IH.
Qed.

Lemma ascii_blank_no_cookies w :
  (forall s, setting_value "youtube_cookies" w = Some s -> ascii_blank s = true) ->
  no_cookies (s ← settings w !! "youtube_cookies"; Setting.value s) = true.
Proof.
  rewrite /setting_value. intros Hblank.
  destruct (s ← settings w !! "youtube_cookies"; Setting.value s) as [c|]; [|done].
  specialize (Hblank c eq_refl). rewrite /no_cookies /Py.strip.
  rewrite (ascii_blank_lstrip _ Hblank) /=. apply orb_true_r.
Qed.

(** With a credential text that is missing, empty or made of ASCII white
    space only, the call returns none; a cached file that is on disk is
    removed and the cache is cleared. *)
Lemma get_cookie_file_blank (w : World) :
  (forall s, setting_value "youtube_cookies" w = Some s -> ascii_blank s = true) ->
  (get_cookie_file w).1 = Ok None
  /\ forall p x, GLOBAL_COOKIE_FILE w = Some p -> Py.truthy p = true ->
       files (fs w) !! p = Some x ->
       files (fs (get_cookie_file w).2) !! p = None
       /\ GLOBAL_COOKIE_FILE (get_cookie_file w).2 = None.
Proof.
  intros Hblank%ascii_blank_no_cookies.
  rewrite /get_cookie_file /get_setting /mbind /M_bind /bind /get /= Hblank.
  destruct (GLOBAL_COOKIE_FILE w) as [p|] eqn:Hg; simpl.
  - destruct (Py.truthy p && fs_exists p (fs w)) eqn:Hex; simpl.
    + rewrite /try_except /os_remove /bind /=.
      destruct (files (fs w) !! p) as [x|] eqn:Hp; simpl.
      * split; [done|]. intros p' x' [= <-] _ _. split; [|done].
        apply lookup_delete_eq.
      * split; [done|]. intros p' x' [= <-] _ Hx. congruence.
    + split; [done|]. intros p' x' [= <-] Ht Hx.
      rewrite Ht /fs_exists Hx /= in Hex. done.
  - split; [done|]. intros p' x' Hp'. congruence.
Qed.

(** With nothing cached and a credential text of ASCII characters that is
    not blank, a call writes the text and returns the file that holds it. *)
Lemma get_cookie_file_first (w : World) (row : Setting.t) (c : string) :
  settings w !! "youtube_cookies" = Some row ->
  Setting.value row = Some c ->
  Py.isascii c = true ->
  no_cookies (Some c) = false ->
  GLOBAL_COOKIE_FILE w = None ->
  files (fs w) !! Py.join (Py.join (cwd w) "downloads") ".temp" = None ->
  cookie_file_path w ∉ dirs (fs w) ->
  cookie_file_path w <> Py.join (Py.join (cwd w) "downloads") ".temp" ->
  (get_cookie_file w).1 = Ok (Some (cookie_file_path w))
  /\ read_text (cookie_file_path w) (get_cookie_file w).2 = Some c.
Proof.
  intros Hrow Hc _ Hnb Hg Hdir Hnd Hne.
  assert (Hw : forall x, write_text (cookie_file_path w) c
                 (set_fs (mkFS (files (fs w))
                    ({[Py.join (Py.join (cwd w) "downloads") ".temp"]} ∪ dirs (fs w))) x)
               = (Ok tt, set_fs (mkFS (<[cookie_file_path w := TextFile c]> (files (fs w)))
                    ({[Py.join (Py.join (cwd w) "downloads") ".temp"]} ∪ dirs (fs w))) x)).
  { intros x. rewrite /write_text /= bool_decide_eq_false_2; [|done].
    rewrite elem_of_union elem_of_singleton. by intros [?|?]. }
  rewrite /get_cookie_file /get_setting /check_cookie_timestamp
    /mbind /M_bind /bind /get /os_makedirs /os_path_exists /try_except
    /modify /= Hrow /= Hc Hnb Hdir /= Hrow.
  destruct (bool_decide (Setting.id row ≠ 0)
            && (COOKIE_TIMESTAMP w <? Setting.id row)) eqn:Hts; rewrite /= Hg /=.
  - rewrite (Hw (set_cookie_timestamp _ w)) /= /read_text /= lookup_insert_eq //.
  - rewrite (Hw w) /= /read_text /= lookup_insert_eq //.
Qed.

(** ** Download worker on an item whose file was deleted *)

(** C1 at the failing input.  The first row of the demo store is not
    downloaded and has [file_deleted] set, which satisfies both invariants;
    [download_video] succeeds on it and commits a row with [downloaded] and
    [file_deleted] both true. *)
Theorem download_video_keeps_file_deleted :
  let E := Demo.env (Demo.Delivers 20000) in
  let r := download_video E "v1" Demo.world in
  find_video "v1" (videos Demo.world) = Some (0%nat, Demo.deleted_item)
  /\ Video.flags_consistent Demo.deleted_item
  /\ Video.file_deleted Demo.deleted_item = true
  /\ r.1 = Ok (true, "Downloaded successfully: /data/Clip/Clip.mp4")
  /\ exists v, videos r.2 !! 0%nat = Some v
       /\ Video.downloaded v = true /\ Video.file_deleted v = true
       /\ ~ Video.flags_consistent v.
Proof.
  split; [reflexivity|]. split; [split; reflexivity|]. split; [reflexivity|].
  split; [vm_compute; reflexivity|].
  eexists. split; [vm_compute; reflexivity|].
  split; [reflexivity|]. split; [reflexivity|].
  intros [H _]. discriminate H.
Qed.

(** ** Source resolver when the tool cannot be started *)


(** ** Source poller loop: how it sleeps *)


Lemma preserves_weaken {A} (R R' : World -> World -> Prop) (c : M A) :
  (forall w w', R w w' -> R' w w') -> preserves R c -> preserves R' c.
Proof. intros HR Hc w. apply HR, Hc. Qed.

#[export] Instance same_but_tool_preorder : PreOrder same_but_tool.
Proof.
  split.
  - intros w. split; reflexivity.
  - intros a b c [? ?] [? ?]. split; [by trans b | congruence].
Qed.

Lemma get_cookie_file_tool : preserves same_but_tool get_cookie_file.
Proof.
  apply (preserves_weaken same_but_files); [by intros w w' (?&?&?)|].
  apply get_cookie_file_files.
Qed.

Lemma subprocess_run_tool E check cmd :
  preserves same_but_tool (subprocess_run E check cmd).
Proof.
  intros w. rewrite /subprocess_run.
  destruct (run_tool E cmd _ _); [done|]. by case_match.
Qed.

#[export] Hint Resolve get_cookie_file_tool subprocess_run_tool : frame.

Lemma get_video_info_tool E video_id :
  preserves same_but_tool (get_video_info E video_id).
Proof. rewrite /get_video_info /resolver_except. preserves_auto. Qed.

#[export] Hint Resolve get_video_info_tool : frame.

Lemma listing_entry_tool E line videos :
  preserves same_but_tool (listing_entry E line videos).
Proof. rewrite /listing_entry. preserves_auto. Qed.

#[export] Hint Resolve listing_entry_tool : frame.

Lemma listing_loop_tool E lines videos :
  preserves same_but_tool (listing_loop E lines videos).
Proof.
  revert videos. induction lines as [|line rest IH]; intros videos; simpl;
    preserves_auto.
Qed.

#[export] Hint Resolve listing_loop_tool : frame.

Lemma flat_listing_tool E url : preserves same_but_tool (flat_listing E url).
Proof. rewrite /flat_listing /resolver_except. preserves_auto. Qed.

#[export] Hint Resolve flat_listing_tool : frame.

Lemma resolve_tool E source : preserves same_but_tool (resolve E source).
Proof.
  rewrite /resolve /get_channel_videos /get_playlist_videos. preserves_auto.
Qed.

(** What can leave the resolver: its two [except] clauses stop a non-zero
    exit and unparsable output, so only another kind of error is left. *)
Lemma resolver_except_only {A} (c : M A) (fallback : A) w e w' :
  try_except c (resolver_except fallback) w = (Raise e, w') ->
  exists m, e = PyError m.
Proof.
  rewrite /try_except. destruct (c w) as [[a|e0] w1]; [done|].
  destruct e0; rewrite /resolver_except /=; try done.
  intros [= <- _]. by eexists.
Qed.

Lemma resolve_raises_only E source w e w' :
  resolve E source w = (Raise e, w') -> exists m, e = PyError m.
Proof.
  rewrite /resolve /get_channel_videos /get_playlist_videos /flat_listing.
  repeat case_match; try done; apply resolver_except_only.
Qed.

(** ** Source poller: one pass *)

Lemma find_video_None video_id vs :
  find_video video_id vs = None <-> video_id ∉ video_ids vs.
Proof.
  rewrite /find_video list_find_None /video_ids Forall_forall.
  split.
  - intros H Hin. apply list_elem_of_In, in_map_iff in Hin as (v & Hv & Hin).
    apply (H v); [by apply list_elem_of_In|done].
  - intros H v Hin Hv. apply H, list_elem_of_In, in_map_iff.
    exists v. split; [done|by apply list_elem_of_In].
Qed.

Lemma find_video_Some video_id vs i v :
  find_video video_id vs = Some (i, v) -> video_id ∈ video_ids vs.
Proof.
  rewrite /find_video. intros H. apply list_find_Some in H as (Hi & Hv & _).
  apply list_elem_of_In, in_map_iff. exists v. split; [done|].
  apply list_elem_of_In. exact (list_elem_of_lookup_2 _ _ _ Hi).
Qed.

Lemma add_new_videos_spec source videos_info : forall vs n,
  exists new,
    add_new_videos source videos_info vs n = (vs ++ new, (n + List.length new)%nat)
    /\ Forall (inserted source videos_info vs) new
    /\ NoDup (video_ids new)
    /\ Forall (fun d => default "" (d !! "id") ∈ video_ids (vs ++ new)) videos_info.
Proof.
  induction videos_info as [|d rest IH]; intros vs n; simpl.
  - exists []. rewrite app_nil_r Nat.add_0_r. repeat split; constructor.
  - destruct (find_video (default "" (d !! "id")) vs) as [[i v]|] eqn:Hf.
    + destruct (IH vs n) as (new & -> & Hins & Hnd & Hall).
      exists new. split; [done|]. split; [|split; [done|]].
      * eapply Forall_impl; [exact Hins|].
        intros v' (?&?&?&d'&vs0&?&?). repeat split; try done.
        exists d', vs0. split; [by right|done].
      * constructor; [|done]. rewrite /video_ids map_app elem_of_app. left.
        exact (find_video_Some _ _ _ _ Hf).
    + apply find_video_None in Hf.
      destruct (IH (vs ++ [new_video source d vs]) (S n))
        as (new & -> & Hins & Hnd & Hall).
      exists (new_video source d vs :: new).
      rewrite -app_assoc /= Nat.add_succ_r. split; [done|].
      assert (Hfresh : Forall (fun v' => (Video.video_id v' ∉ video_ids vs)
                  /\ Video.video_id v' <> default "" (d !! "id")) new).
      { eapply Forall_impl; [exact Hins|]. intros v' (Hn & _).
        rewrite /video_ids map_app elem_of_app /= in Hn.
        split; [tauto|]. intros Heq. apply Hn. right. rewrite Heq. by left. }
      split; [|split; [|]].
      * constructor.
        -- repeat split; try done. exists d, vs. split; [by left|done].
        -- rewrite Forall_forall in Hins. rewrite Forall_forall in Hfresh.
           apply Forall_forall. intros v' Hin.
           destruct (Hins v' Hin) as (_&?&?&d'&vs0&?&?).
           destruct (Hfresh v' Hin) as [? _].
           repeat split; try done. exists d', vs0. split; [by right|done].
      * simpl. constructor; [|done]. intros Hin.
        apply list_elem_of_In, in_map_iff in Hin as (v' & Heq & Hin).
        rewrite Forall_forall in Hfresh.
        apply list_elem_of_In, Hfresh in Hin as [_ Hne]. by apply Hne.
      * constructor.
        -- rewrite /video_ids map_app elem_of_app /=. right. by left.
        -- by rewrite -app_assoc /= in Hall.
Qed.

Lemma inserted_weaken source videos_info before extra v :
  inserted source videos_info (before ++ extra) v ->
  inserted source videos_info before v.
Proof.
  intros (Hn & ? & ? & ?). split; [|done].
  intros Hin. apply Hn. rewrite /video_ids map_app elem_of_app. by left.
Qed.

Lemma source_after_earlier E w w1 s s' :
  (clock_reads w <= clock_reads w1)%nat ->
  source_after E w1 s s' -> source_after E w s s'.
Proof.
  rewrite /source_after. case_bool_decide; [done|].
  intros Hle (k & Hk & ->). exists k. split; [lia|done].
Qed.

Lemma now_spec E w :
  now E w = (Ok (utcnow E (clock_reads w)), set_clock_reads (S (clock_reads w)) w).
Proof. done. Qed.

Lemma refresh_loop_spec E srcs : forall vs n w r w',
  refresh_loop E srcs vs n w = (r, w') ->
  same_db w w' /\ (clock_reads w <= clock_reads w')%nat
  /\ match r with
     | Raise e => exists m, e = PyError m
     | Ok (srcs', vs', n') => pass_result E w srcs srcs' vs vs' n n'
     end.
Proof.
  induction srcs as [|source rest IH]; intros vs n w r w'; simpl.
  - intros [= <- <-]. split; [reflexivity|]. split; [done|].
    split; [constructor|]. exists [], [].
    rewrite app_nil_r Nat.add_0_r. repeat split; constructor.
  - case_bool_decide as Hty.
    + rewrite /mbind /M_bind /bind.
      destruct (refresh_loop E rest vs n w) as [[[[srcs' vs'] n']|e] w1] eqn:Hrest;
        apply IH in Hrest as (Hdb & Hclk & Hres); intros [= <- <-];
        (split; [done|]); (split; [done|]); [|done].
      destruct Hres as (Hsrc & polled & new & Hp & Hres).
      split.
      * constructor; [|done]. rewrite /source_after bool_decide_eq_true_2 //.
      * exists polled, new. rewrite filter_cons_False; [|split; [exact Hp|exact Hres]].
        intros Hn. by apply Hn.
    + rewrite /mbind /M_bind /bind.
      pose proof (resolve_tool E source w) as Hfr. 
      destruct (resolve E source w) as [[videos_info|e] w1] eqn:Hres.
      2:{ intros [= <- <-]. destruct Hfr as [Hdb Hclk]. simpl in *.
          split; [done|]. split; [lia|]. exact (resolve_raises_only _ _ _ _ _ Hres). }
      destruct Hfr as [Hdb1 Hclk1]. simpl in Hdb1, Hclk1.
      destruct (add_new_videos_spec source videos_info vs n)
        as (new1 & -> & Hins1 & Hnd1 & Hall1).
      rewrite now_spec.
      destruct (refresh_loop E rest (vs ++ new1) (n + List.length new1)%nat
                  (set_clock_reads (S (clock_reads w1)) w1))
        as [[[[srcs' vs'] n']|e] w2] eqn:Hrest;
        apply IH in Hrest as (Hdb & Hclk & Hrest); simpl in Hclk;
        intros [= <- <-];
        (split; [by trans (set_clock_reads (S (clock_reads w1)) w1)|]);
        (split; [lia|]); [|done].
      destruct Hrest as (Hsrc & polled & new & Hp & Hpb & -> & -> & Hnd & Hins & Hall).
      split.
      * constructor.
        -- rewrite /source_after bool_decide_eq_false_2 //.
           exists (clock_reads w1). split; [lia|done].
        -- eapply Forall2_impl; [exact Hsrc|]. intros s s'.
           apply source_after_earlier. simpl. lia.
      * exists ((source, videos_info) :: polled), (new1 ++ new).
        rewrite filter_cons_True // fmap_cons Hp /=.
        split; [done|]. split.
        { constructor; [|done]. split; [done|]. exists w. by rewrite Hres. }
        split; [by rewrite app_assoc|].
        split; [rewrite length_app; lia|].
        split.
        { rewrite /video_ids map_app. apply NoDup_app. split; [done|].
          split; [|done]. intros x Hx1 Hx2.
          apply list_elem_of_In, in_map_iff in Hx2 as (v & <- & Hv).
          rewrite Forall_forall in Hins.
          apply list_elem_of_In, Hins in Hv as (p & _ & Hn & _).
          apply Hn. rewrite /video_ids map_app elem_of_app. by right. }
        split.
        { apply Forall_app. split.
          - eapply Forall_impl; [exact Hins1|]. intros v Hv.
            exists (source, videos_info). split; [by left|done].
          - eapply Forall_impl; [exact Hins|]. intros v (p & Hp' & Hv).
            exists p. split; [by right|]. exact (inserted_weaken _ _ _ _ _ Hv). }
        constructor; [|done]. simpl.
        eapply Forall_impl; [exact Hall1|]. intros d Hd.
        rewrite /video_ids !map_app !elem_of_app.
        rewrite /video_ids map_app elem_of_app in Hd. tauto.
Qed.

Lemma resolve_polled_source E s w :
  Source.source_type s <> "video" ->
  polled_source E s w (resolve E s w).1 (resolve E s w).2.
Proof.
  intros Hty. rewrite /resolve.
  case_bool_decide as Hc; [by apply polled_channel, surjective_pairing|].
  case_bool_decide as Hp; [by apply polled_playlist, surjective_pairing|].
  by apply polled_other.
Qed.

Lemma stamped_weaken p polled s s' :
  stamped polled s s' -> stamped (p :: polled) s s'.
Proof.
  rewrite /stamped. case_bool_decide; [done|].
  intros (d & t & Hin & ->). exists d, t. split; [by right|done].
Qed.

Lemma refresh_loop_polls E srcs : forall vs n w,
  exists polled o,
    polls E w srcs polled o
    /\ match o with
       | Aborted e w1 =>
           refresh_loop E srcs vs n w = (Raise e, w1)
           /\ (exists m, e = PyError m) /\ same_db w w1
       | Finished w1 =>
           exists srcs' new,
             refresh_loop E srcs vs n w
             = (Ok (srcs', vs ++ new, (n + List.length new)%nat), w1)
             /\ same_db w w1
             /\ Forall2 (stamped polled) srcs srcs'
             /\ NoDup (video_ids new)
             /\ Forall (fun v => exists p, p ∈ polled
                                   /\ inserted p.1.1 p.1.2 vs v) new
             /\ Forall (fun p =>
                         Forall (fun d => default "" (d !! "id")
                                          ∈ video_ids (vs ++ new)) p.1.2)
                  polled
       end.
Proof.
  induction srcs as [|source rest IH]; intros vs n w; simpl.
  - exists [], (Finished w). split; [constructor|]. exists [], [].
    rewrite app_nil_r Nat.add_0_r. split; [done|]. split; [reflexivity|].
    repeat split; constructor.
  - case_bool_decide as Hty.
    + destruct (IH vs n w) as (polled & o & Hpolls & Ho).
      exists polled, o. split; [by apply polls_skip|].
      rewrite /mbind /M_bind /bind. destruct o as [w1|e w1].
      * destruct Ho as (srcs' & new & -> & Hdb & Hsrc & Hrest).
        exists (source :: srcs'), new. split; [done|]. split; [done|].
        split; [|done]. constructor; [|done].
        by rewrite /stamped bool_decide_eq_true_2.
      * destruct Ho as (-> & Hrest). done.
    + pose proof (resolve_polled_source E source w Hty) as Hps.
      pose proof (resolve_tool E source w) as Hfr.
      rewrite /mbind /M_bind /bind.
      destruct (resolve E source w) as [[videos_info|e] w1] eqn:Hres;
        simpl in Hps, Hfr.
      2:{ exists [], (Aborted e w1). split; [by apply polls_abort|].
          split; [done|]. destruct Hfr as [Hdb _].
          split; [exact (resolve_raises_only _ _ _ _ _ Hres)|done]. }
      destruct Hfr as [Hdb1 Hclk1].
      destruct (add_new_videos_spec source videos_info vs n)
        as (new1 & -> & Hins1 & Hnd1 & Hall1).
      rewrite now_spec.
      destruct (IH (vs ++ new1) (n + List.length new1)%nat
                  (set_clock_reads (S (clock_reads w1)) w1))
        as (polled & o & Hpolls & Ho).
      exists ((source, videos_info, utcnow E (clock_reads w1)) :: polled), o.
      split; [by apply polls_step|].
      destruct o as [w2|e w2].
      * destruct Ho as (srcs' & new & -> & Hdb & Hsrc & Hnd & Hins & Hall).
        exists (Source.set_last_checked (utcnow E (clock_reads w1)) source :: srcs'),
               (new1 ++ new).
        rewrite app_assoc length_app Nat.add_assoc.
        split; [done|].
        split; [by trans (set_clock_reads (S (clock_reads w1)) w1)|].
        split.
        { constructor.
          - rewrite /stamped bool_decide_eq_false_2 //.
            exists videos_info, (utcnow E (clock_reads w1)). split; [by left|done].
          - eapply Forall2_impl; [exact Hsrc|]. intros s s'. apply stamped_weaken. }
        split.
        { rewrite /video_ids map_app. apply NoDup_app. split; [done|].
          split; [|done]. intros x Hx1 Hx2.
          apply list_elem_of_In, in_map_iff in Hx2 as (v & <- & Hv).
          rewrite Forall_forall in Hins.
          apply list_elem_of_In, Hins in Hv as (p & _ & Hn & _).
          apply Hn. rewrite /video_ids map_app elem_of_app. by right. }
        split.
        { apply Forall_app. split.
          - eapply Forall_impl; [exact Hins1|]. intros v Hv.
            exists (source, videos_info, utcnow E (clock_reads w1)).
            split; [by left|done].
          - eapply Forall_impl; [exact Hins|]. intros v (p & Hp' & Hv).
            exists p. split; [by right|]. exact (inserted_weaken _ _ _ _ _ Hv). }
        constructor.
        { simpl. eapply Forall_impl; [exact Hall1|]. intros d Hd.
          rewrite /video_ids !map_app !elem_of_app.
          rewrite /video_ids map_app elem_of_app in Hd. tauto. }
        eapply Forall_impl; [exact Hall|]. intros p Hp.
        eapply Forall_impl; [exact Hp|]. intros d Hd.
        by rewrite -?app_assoc in Hd |- *.
      * destruct Ho as (-> & Hm & Hdb). split; [done|]. split; [done|].
        by trans (set_clock_reads (S (clock_reads w1)) w1).
Qed.

(** C7 (as the code has it).  One run of [refresh_sources] passes over
    the sources of type "video" and polls the other ones in order, a channel
    and a playlist through their resolver function, any other type for
    nothing.
    - If every resolver call returns, the run returns the number of sources
      and of new rows, commits exactly once, leaves every source of type
      "video" as it was, sets [last_checked] of every other source to the
      clock reading taken when it was polled, whatever the resolver
      returned for it, the empty list included, and appends to the videos
      exactly one row for each external id that the resolver reported and
      the table did not hold, each row built by [new_video] from a reported
      descriptor of its source, so with [skip] the negation of that
      source's [auto_download].
    - If a resolver call raises, the run raises that error at once: nothing
      is committed and every table is as it was. *)
Theorem refresh_sources_pass (E : Env) (w : World) :
  exists polled o,
    polls E w (sources w) polled o
    /\ match o with
       | Aborted e w1 =>
           refresh_sources E w = (Raise e, w1)
           /\ (exists m, e = PyError m)
           /\ same_db w w1
       | Finished w1 =>
           let w' := (refresh_sources E w).2 in
           exists new,
             (refresh_sources E w).1
             = Ok (List.length (sources w), List.length new)
             /\ commits w' = S (commits w)
             /\ Forall2 (stamped polled) (sources w) (sources w')
             /\ videos w' = videos w ++ new
             /\ NoDup (video_ids new)
             /\ Forall (fun v => exists p, p ∈ polled
                                   /\ inserted p.1.1 p.1.2 (videos w) v) new
             /\ Forall (fun p =>
                         Forall (fun d => default "" (d !! "id")
                                          ∈ video_ids (videos w')) p.1.2)
                  polled
             /\ settings w' = settings w /\ subfolders w' = subfolders w
       end.
Proof.
  destruct (refresh_loop_polls E (sources w) (videos w) 0 w)
    as (polled & o & Hpolls & Ho).
  exists polled, o. split; [done|].
  rewrite /refresh_sources /mbind /M_bind /bind /get /=.
  destruct o as [w1|e w1].
  - destruct Ho as (srcs' & new & -> & Hdb & Hsrc & Hnd & Hins & Hall).
    destruct Hdb as (?&?&?&?&Hc&?&?). simpl.
    exists new. by rewrite Hc.
  - by destruct Ho as (-> & ? & ?).
Qed.

(** C7 as stated fails when the tool cannot be started: the pass raises at
    its first channel, commits nothing and advances no [last_checked]. *)
Lemma refresh_sources_aborts_without_tool :
  let r := refresh_sources (Demo.env Demo.Missing) Demo.world in
  In Demo.channel (sources Demo.world)
  /\ Source.source_type Demo.channel = "channel"
  /\ r.1 = Raise (PyError "[Errno 2] No such file or directory: 'yt-dlp'")
  /\ commits r.2 = commits Demo.world
  /\ sources r.2 = sources Demo.world
  /\ videos r.2 = videos Demo.world.
Proof.
  split; [right; by left|]. split; [reflexivity|].
  split; [vm_compute; reflexivity|]. split; [vm_compute; reflexivity|].
  split; vm_compute; reflexivity.
Qed.

(** The pass on the demo store: the channel is polled, the single video is
    not; one new item appears. *)
Example refresh_sources_demo :
  let r := refresh_sources (Demo.env (Demo.Delivers 0)) Demo.world in
  r.1 = Ok (2%nat, 1%nat)
  /\ commits r.2 = 1%nat
  /\ List.map Source.last_checked (sources r.2)
     = [Some 1500000000; Some 1700000000]
  /\ List.map Video.video_id (videos r.2) = ["v1"; "v2"; "v3"; "v9"]
  /\ List.map Video.skip (videos r.2) = [true; false; false; false].
Proof. vm_compute. by repeat split. Qed.
(** ** Source resolver: what passes its boundary *)

Lemma get_video_info_raises_only E video_id w e w' :
  get_video_info E video_id w = (Raise e, w') -> exists m, e = PyError m.
Proof. apply resolver_except_only. Qed.


Lemma listing_entry_raises E line videos w e w' :
  listing_entry E line videos w = (Raise e, w') ->
  e = JSONDecodeError \/ exists m, e = PyError m.
Proof.
  rewrite /listing_entry. case_match; [|done].
  destruct (json_loads E line) as [video_data|]; [|intros [= <- _]; by left].
  destruct (video_data !! "id") as [vid|]; [|done].
  rewrite /mbind /M_bind /bind.
  destruct (get_video_info E vid w) as [[d|e0] w1] eqn:Hinfo.
  - by repeat case_match.
  - intros [= <- _]. right. exact (get_video_info_raises_only _ _ _ _ _ Hinfo).
Qed.

Lemma listing_loop_raises E lines : forall videos w e w',
  listing_loop E lines videos w = (Raise e, w') ->
  e = JSONDecodeError \/ exists m, e = PyError m.
Proof.
  induction lines as [|line rest IH]; intros videos w e w'; simpl; [done|].
  rewrite /mbind /M_bind /bind.
  destruct (listing_entry E line videos w) as [[vs1|e0] w1] eqn:Hentry.
  - apply IH.
  - intros [= <- _]. exact (listing_entry_raises _ _ _ _ _ _ Hentry).
Qed.




(** ** Source poller loop *)

Lemma refresh_sources_slept E w : slept (refresh_sources E w).2 = slept w.
Proof.
  rewrite /refresh_sources /mbind /M_bind /bind /get /=.
  destruct (refresh_loop E (sources w) (videos w) 0 w)
    as [[[[srcs' vs'] n']|e] w1] eqn:Hloop;
    apply refresh_loop_spec in Hloop as ((?&?&?&?&?&?&?) & _); done.
Qed.



(** A round ends normally and completes one sleep. *)
Lemma background_checker_iteration_once E w :
  (background_checker_iteration E w).1 = Ok tt
  /\ exists seconds,
       slept (background_checker_iteration E w).2 = slept w ++ [seconds].
Proof.
  rewrite /background_checker_iteration /int_setting /flag_setting
    /get_setting /try_except /mbind /M_bind /bind /get /=.
  destruct (settings w !! "check_interval") as [row|]; simpl;
    [|split; [done|]; by exists 60].
  destruct (Setting.value row) as [s|]; simpl; [|split; [done|]; by exists 60].
  destruct (Py.int s) as [n|]; simpl; [|split; [done|]; by exists 60].
  destruct (settings w !! "auto_download") as [row'|]; simpl;
    [|split; [done|]; by exists 60].
  destruct (Setting.value row') as [a|]; simpl; [|split; [done|]; by exists 60].
  pose proof (refresh_sources_slept E w) as Hs.
  destruct (refresh_sources E w) as [[x|e] w1]; simpl in *;
    rewrite /time_sleep /=; [|split; [done|]; exists 60; by rewrite Hs].
  destruct (n <? 0); simpl; [split; [done|]; eexists; by rewrite Hs|].
  destruct (time_sleep_max <? n); simpl; (split; [done|]); eexists; by rewrite Hs.
Qed.

(** [n] rounds never raise and complete [n] sleeps, one per round: a
    [time.sleep] call that raises sleeps nothing and is followed by the
    60-second sleep of the handler. *)
Lemma background_checker_sleeps E n : forall w,
  (background_checker E n w).1 = Ok tt
  /\ List.length (slept (background_checker E n w).2) = (List.length (slept w) + n)%nat.
Proof.
  induction n as [|n IH]; intros w; simpl.
  - split; [done|]. by rewrite Nat.add_0_r.
  - rewrite /mbind /M_bind /bind.
    destruct (background_checker_iteration_once E w) as [Hok [seconds Hs]].
    destruct (background_checker_iteration E w) as [r w1]. simpl in *. subst r.
    destruct (IH w1) as [-> ->]. split; [done|].
    rewrite Hs length_app /=. lia.
Qed.

(** ** Download worker: the log of tool invocations *)

Lemma subprocess_run_spec E check cmd w :
  match run_tool E cmd (List.length (tool_calls w)) (fs w) with
  | NotStarted msg =>
      subprocess_run E check cmd w
      = (Raise (PyError msg),
         set_tool_calls (tool_calls w ++ [mkCall cmd None (fs w)]) w)
  | Completed rc out err fs' =>
      subprocess_run E check cmd w
      = (if check && negb (rc =? 0) then Raise (CalledProcessError rc err)
         else Ok (rc, out, err),
         set_tool_calls (tool_calls w ++ [mkCall cmd (Some (rc, out, err)) fs'])
           (set_fs fs' w))
  end.
Proof.
  rewrite /subprocess_run. destruct (run_tool E cmd _ _); [done|].
  by destruct (check && negb (_ =? 0)).
Qed.

Lemma info_cmd_kind video_id cookie_file :
  info_cmd video_id cookie_file !! 2%nat = Some "--dump-json".
Proof. rewrite /info_cmd /with_cookies. by repeat case_match. Qed.

Lemma first_attempt_cmd_kind cookie_file output_file video_id :
  first_attempt_cmd cookie_file output_file video_id !! 2%nat
  = Some "bestvideo[ext=mp4]+bestaudio[ext=m4a]/best[ext=mp4]/best".
Proof. rewrite /first_attempt_cmd /with_cookies. by repeat case_match. Qed.

Lemma second_attempt_cmd_kind cookie_file output_file video_id :
  second_attempt_cmd cookie_file output_file video_id !! 2%nat = Some "best".
Proof. rewrite /second_attempt_cmd /with_cookies. by repeat case_match. Qed.

Lemma get_video_info_calls E video_id w :
  exists info,
    tool_calls (get_video_info E video_id w).2 = tool_calls w ++ info
    /\ Forall is_info_call info.
Proof.
  rewrite /get_video_info /try_except /mbind /M_bind /bind.
  pose proof (get_cookie_file_files w) as (_ & Hcalls & _).
  destruct (get_cookie_file w) as [[ck|e] w1]; simpl in Hcalls.
  - pose proof (subprocess_run_spec E true (info_cmd video_id ck) w1) as Hrun.
    destruct (run_tool E _ _ _) as [msg|rc out err fs']; rewrite Hrun /=.
    + exists [mkCall (info_cmd video_id ck) None (fs w1)].
      rewrite Hcalls. split; [done|]. constructor; [|done]. apply info_cmd_kind.
    + exists [mkCall (info_cmd video_id ck) (Some (rc, out, err)) fs'].
      split.
      * destruct (negb (rc =? 0)); simpl; [by rewrite Hcalls|].
        destruct (json_loads E out); simpl; by rewrite Hcalls.
      * constructor; [|done]. apply info_cmd_kind.
  - exists []. rewrite app_nil_r. split; [|done].
    by destruct e; simpl.
Qed.

Lemma get_cookie_file_raises_only w e w' :
  get_cookie_file w = (Raise e, w') -> exists m, e = PyError m.
Proof.
  rewrite /get_cookie_file /get_setting /check_cookie_timestamp /os_makedirs
    /os_path_exists /os_remove /write_text /try_except /modify /mbind /M_bind
    /bind /get /=.
  repeat case_match; simplify_eq/=; intros; simplify_eq; by eexists.
Qed.

Lemma attempts_spec E video_id output_file w r w' :
  attempts E video_id output_file w = (r, w') ->
  same_but_tool w w'
  /\ exists info tail,
       tool_calls w' = tool_calls w ++ info ++ tail
       /\ Forall is_info_call info
       /\ ((tail = [] /\ exists msg, r = Raise (PyError msg))
           \/ exists detailed_info res,
                attempt_trace video_id output_file (fs w') tail res
                /\ r = match res with
                       | Ok x => Ok (detailed_info, x)
                       | Raise e => Raise e
                       end).
Proof.
  rewrite /attempts /mbind /M_bind /bind.
  pose proof (get_video_info_tool E video_id w) as Hfr0.
  destruct (get_video_info_calls E video_id w) as (info & Hinfo & Hall).
  destruct (get_video_info E video_id w) as [[detailed_info|e] w0] eqn:Hgi;
    simpl in Hfr0, Hinfo.
  2:{ intros [= <- <-]. split; [done|]. exists info, [].
      rewrite app_nil_r. split; [done|]. split; [done|]. left. split; [done|].
      destruct (get_video_info_raises_only _ _ _ _ _ Hgi) as [m ->]. by eexists. }
  pose proof (get_cookie_file_files w0) as Hfr1.
  destruct (get_cookie_file w0) as [[ck|e] w1] eqn:Hck; simpl in Hfr1.
  2:{ intros [= <- <-]. destruct Hfr1 as (Hdb & Hcalls & Hclk).
      split; [split; [by trans w0; [apply Hfr0|]|destruct Hfr0; congruence]|].
      exists info, []. rewrite app_nil_r Hcalls. split; [done|]. split; [done|].
      left. split; [done|].
      destruct (get_cookie_file_raises_only _ _ _ Hck) as [m ->]. by eexists. }
  destruct Hfr1 as (Hdb1 & Hcalls1 & Hclk1).
  assert (Hfr : same_but_tool w w1).
  { split; [by trans w0; [apply Hfr0|]|destruct Hfr0; congruence]. }
  pose proof (subprocess_run_spec E false
                (first_attempt_cmd ck output_file video_id) w1) as Hrun1.
  destruct (run_tool E _ _ _) as [msg|rc1 out1 err1 fs1]; rewrite Hrun1 /=.
  { intros [= <- <-]. split; [done|]. eexists info, [_]. simpl.
    rewrite Hcalls1 Hinfo -app_assoc. split; [done|]. split; [done|]. right.
    exists None. eexists. split; [apply first_not_started|done]. }
  destruct (rc1 =? 0) eqn:Hrc1; simpl.
  { intros [= <- <-]. apply Z.eqb_eq in Hrc1 as ->. split; [done|].
    eexists info, [_]. simpl.
    rewrite Hcalls1 Hinfo -app_assoc. split; [done|]. split; [done|]. right.
    exists detailed_info. eexists. split; [apply first_exits_zero|done]. }
  apply Z.eqb_neq in Hrc1.
  set (w2 := set_tool_calls _ (set_fs fs1 w1)).
  pose proof (subprocess_run_spec E false
                (second_attempt_cmd ck output_file video_id) w2) as Hrun2.
  destruct (run_tool E _ _ _) as [msg|rc out err fs2]; rewrite Hrun2 /=.
  { intros [= <- <-]. split; [done|]. eexists info, [_; _]. simpl.
    rewrite Hcalls1 Hinfo -!app_assoc. split; [done|]. split; [done|]. right.
    exists None. eexists. split; [by apply second_not_started|done]. }
  intros [= <- <-]. split; [done|]. eexists info, [_; _]. simpl.
  rewrite Hcalls1 Hinfo -!app_assoc. split; [done|]. split; [done|]. right.
  exists detailed_info. eexists. split; [by apply second_exits|done].
Qed.

(** ** Download worker: what follows the attempts *)

Lemma write_blob_files p size : preserves same_but_files (write_blob p size).
Proof. intros w. rewrite /write_blob. by case_match. Qed.

Lemma fetch_thumbnail_spec E detailed_info output_file folder video w :
  exists video' w',
    fetch_thumbnail E detailed_info output_file folder video w = (Ok video', w')
    /\ same_but_files w w' /\ thumbnail_step video video'.
Proof.
  rewrite /fetch_thumbnail.
  destruct detailed_info as [d|]; [|by exists video, w; repeat split; left].
  destruct (d !! "thumbnail") as [url|]; [|by exists video, w; repeat split; left].
  destruct (negb (Py.truthy url)); [by exists video, w; repeat split; left|].
  rewrite /try_except.
  destruct (http_get E url) as [[status size]|];
    [|by exists video, w; repeat split; left].
  destruct (status =? 200); [|by exists video, w; repeat split; left].
  rewrite /mbind /M_bind /bind.
  pose proof (write_blob_files
    (Py.join folder (Py.splitext_root (Py.basename output_file) +:+ ".jpg"))
    size w) as Hw.
  destruct (write_blob _ size w) as [[[]|e] w1]; simpl in Hw.
  - rewrite /web_path /get_setting /mbind /M_bind /bind /get /=.
    eexists _, w1. split; [done|]. split; [done|]. right. by eexists.
  - exists video, w1. repeat split; try apply Hw. by left.
Qed.

Lemma create_jellyfin_nfo_spec E video detailed_info output_dir w :
  exists w', create_jellyfin_nfo E video detailed_info output_dir w = (Ok tt, w')
             /\ same_but_files w w'.
Proof.
  rewrite /create_jellyfin_nfo /try_except.
  destruct (render_nfo E video detailed_info) as [xml|]; [|by exists w].
  pose proof (write_text_files
    (Py.join output_dir (sidecar_title video +:+ ".nfo")) xml w) as Hw.
  destruct (write_text _ xml w) as [[[]|e] w1]; by exists w1.
Qed.

Lemma create_plex_metadata_spec E video detailed_info output_dir w :
  exists w', create_plex_metadata E video detailed_info output_dir w = (Ok tt, w')
             /\ same_but_files w w'.
Proof.
  rewrite /create_plex_metadata /try_except.
  destruct (render_plex E video detailed_info) as [xml|]; [|by exists w].
  pose proof (write_text_files
    (Py.join output_dir (sidecar_title video +:+ ".xml")) xml w) as Hw.
  destruct (write_text _ xml w) as [[[]|e] w1]; by exists w1.
Qed.

(** The three ways [record_outcome] ends.  None of them raises, and none
    runs the tool again. *)
Lemma record_outcome_spec E i video output_file folder detailed_info
    rc out err w :
  exists r w',
    record_outcome E i video output_file folder
      (detailed_info, (rc, out, err)) w = (Ok r, w')
    /\ tool_calls w' = tool_calls w
    /\ if negb (rc =? 0) then
         r = (false, "yt-dlp error: " +:+ Py.strip err)
         /\ videos w'
            = <[i := Video.set_failed true (Some (stored_error (Py.strip err)))
                       video]> (videos w)
       else if too_small output_file (fs w) then
         r = (false, "Download failed or file too small")
         /\ videos w'
            = <[i := Video.set_failed true
                       (Some "Download failed or file too small") video]>
                (videos w)
       else
         exists video' t,
           thumbnail_step video video'
           /\ r = (true, "Downloaded successfully: " +:+ output_file)
           /\ videos w'
              = <[i := Video.set_downloaded t output_file video']> (videos w).
Proof.
  rewrite /record_outcome.
  destruct (negb (rc =? 0)); [by eexists _, _|].
  rewrite /output_too_small /mbind /M_bind /bind /get /=.
  destruct (too_small output_file (fs w)); [by eexists _, _|].
  assert (Hthumb : exists video' w1,
    (match List.find (fun p => fs_exists p (fs w))
             (List.map (fun ext => Py.splitext_root output_file +:+ "." +:+ ext)
                ["jpg"; "jpeg"; "png"; "webp"]) with
     | Some p => u ← web_path E p; ret (Video.set_thumbnail_url u video)
     | None => fetch_thumbnail E detailed_info output_file folder video
     end) w = (Ok video', w1)
    /\ same_but_files w w1 /\ thumbnail_step video video').
  { destruct (List.find _ _) as [p|]; [|apply fetch_thumbnail_spec].
    rewrite /web_path /get_setting /mbind /M_bind /bind /get /=.
    eexists _, w. split; [done|]. split; [reflexivity|]. right. by eexists. }
  destruct Hthumb as (video' & w1 & Hth & Hfr1 & Hstep).
  rewrite /find_thumbnail /mbind /M_bind /bind /get /= Hth.
  destruct (create_jellyfin_nfo_spec E video' detailed_info folder w1)
    as (w2 & -> & Hfr2).
  destruct (create_plex_metadata_spec E video' detailed_info folder w2)
    as (w3 & -> & Hfr3).
  assert (Hfr : same_but_files w w3) by (trans w1; [done|by trans w2]).
  destruct Hfr as ((_ & Hv & _) & Hcalls & _).
  eexists _, _. split; [done|]. split; [done|].
  exists video', (utcnow E (clock_reads w3)). by rewrite /= Hv.
Qed.

Lemma download_try_spec E i video video_id output_file folder w r w' :
  try_except
    (ra ← attempts E video_id output_file;
     record_outcome E i video output_file folder ra)
    (download_except i video) w = (r, w') ->
  exists info tail,
    tool_calls w' = tool_calls w ++ info ++ tail
    /\ Forall is_info_call info
    /\ ((tail = []
         /\ exists msg,
              r = Ok (false, "Exception: " +:+ msg)
              /\ videos w'
                 = <[i := Video.set_failed true (Some (stored_error msg)) video]>
                     (videos w))
        \/ exists fs_end res,
             attempt_trace video_id output_file fs_end tail res
             /\ attempt_outcome i video output_file fs_end res
                  (videos w) r (videos w')).
Proof.
  rewrite /try_except /mbind /M_bind /bind.
  destruct (attempts E video_id output_file w) as [ra wa] eqn:Hatt.
  apply attempts_spec in Hatt
    as (((_ & Hv & _) & _) & info & tail & Hcalls & Hinfo & Hcase).
  destruct Hcase as [[-> [msg ->]]|(detailed_info & res & Htrace & ->)].
  - rewrite /download_except /commit_video /mbind /M_bind /bind /modify /commit /=.
    intros [= <- <-]. exists info, []. simpl. split; [done|]. split; [done|].
    left. split; [done|]. exists msg. by rewrite Hv.
  - destruct res as [[[rc out] err]|e].
    + destruct (record_outcome_spec E i video output_file folder detailed_info
                  rc out err wa) as (r0 & w0 & -> & Hcalls0 & Hout).
      intros [= <- <-]. exists info, tail. rewrite Hcalls0.
      split; [done|]. split; [done|]. right. exists (fs wa), (Ok (rc, out, err)).
      split; [done|]. rewrite /attempt_outcome -Hv.
      destruct (negb (rc =? 0)); [by destruct Hout as [-> ->]|].
      destruct (too_small output_file (fs wa)); [by destruct Hout as [-> ->]|].
      destruct Hout as (video' & t & ? & -> & ->). by exists video', t.
    + rewrite /download_except /commit_video /mbind /M_bind /bind /modify
        /commit /=.
      intros [= <- <-]. exists info, tail. split; [done|]. split; [done|].
      right. exists (fs wa), (Raise e). split; [done|]. by rewrite /= Hv.
Qed.

(** ** Download worker: the whole of [download_video] *)

Lemma set_failed_retry_reset b m v :
  Video.set_failed b m (retry_reset v) = Video.set_failed b m v.
Proof. rewrite /retry_reset. by destruct (Video.failed_download v). Qed.

Lemma resolve_download_path_spec v w :
  exists download_path, resolve_download_path v w = (Ok download_path, w).
Proof.
  rewrite /resolve_download_path /get_setting /mbind /M_bind /bind /get /=.
  repeat case_match; by eexists.
Qed.

Lemma find_video_lookup video_id vs i v :
  find_video video_id vs = Some (i, v) -> vs !! i = Some v.
Proof. rewrite /find_video. intros H. by apply list_find_Some in H as (? & _). Qed.

(** Every run of [download_video] on a row that is not yet downloaded
    either raises before its [try] block, or makes its lookups and
    attempts and ends as [attempt_outcome] says. *)
Lemma download_video_cases E video_id w i v r w' :
  find_video video_id (videos w) = Some (i, v) ->
  Video.downloaded v = false ->
  download_video E video_id w = (r, w') ->
  ((exists e, r = Raise e) /\ tool_calls w' = tool_calls w
   /\ videos w' = <[i := retry_reset v]> (videos w))
  \/ exists output_file info tail,
       tool_calls w' = tool_calls w ++ info ++ tail
       /\ Forall is_info_call info
       /\ ((tail = []
            /\ exists msg,
                 r = Ok (false, "Exception: " +:+ msg)
                 /\ videos w'
                    = <[i := Video.set_failed true (Some (stored_error msg)) v]>
                        (videos w))
           \/ exists fs_end res,
                attempt_trace video_id output_file fs_end tail res
                /\ attempt_outcome i (retry_reset v) output_file fs_end res
                     (videos w) r (videos w')).
Proof.
  intros Hfind Hdl.
  rewrite /download_video {1}/mbind /M_bind {1}/bind /get /= Hfind Hdl.
  set (v0 := retry_reset v).
  assert (Hreset : exists w1,
    (if Video.failed_download v
     then let video := Video.set_failed false None v in
          commit_video i video;; ret video
     else ret v) w = (Ok v0, w1)
    /\ videos w1 = <[i := v0]> (videos w) /\ tool_calls w1 = tool_calls w).
  { rewrite /v0 /retry_reset. destruct (Video.failed_download v).
    - eexists. split; [reflexivity|]. done.
    - exists w. split; [done|]. split; [|done].
      symmetry. apply list_insert_id. exact (find_video_lookup _ _ _ _ Hfind). }
  destruct Hreset as (w1 & Hreset & Hv1 & Hc1).
  rewrite {1}/mbind /M_bind {1}/bind Hreset.
  destruct (resolve_download_path_spec v0 w1) as [dp Hdp].
  rewrite {1}/mbind {1}/bind Hdp.
  destruct dp as [download_path|];
    [|intros [= <- <-]; left; split; [by eexists|done]].
  set (folder := Py.join download_path _).
  set (output_file := Py.join folder _).
  rewrite {1}/mbind {1}/bind.
  pose proof (os_makedirs_files folder w1) as Hfr2.
  destruct (os_makedirs folder w1) as [[[]|e] w2]; simpl in Hfr2;
    [|intros [= <- <-]; left; split; [by eexists|];
      destruct Hfr2 as ((_ & -> & _) & -> & _); done].
  rewrite {1}/mbind {1}/bind /os_path_exists /get.
  assert (Hrm : exists rr w3,
    (if fs_exists output_file (fs w2) then os_remove output_file else ret tt) w2
    = (rr, w3) /\ same_but_files w2 w3).
  { destruct (fs_exists output_file (fs w2)).
    - eexists _, _. split; [apply surjective_pairing|]. apply os_remove_files.
    - by exists (Ok tt), w2. }
  destruct Hrm as (rr & w3 & Hrm & Hfr3).
  rewrite {1}/mbind {1}/bind Hrm.
  destruct rr as [[]|e];
    [|intros [= <- <-]; left; split; [by eexists|];
      destruct Hfr3 as ((_ & -> & _) & -> & _);
      destruct Hfr2 as ((_ & -> & _) & -> & _); done].
  intros Htry. right. exists output_file.
  apply download_try_spec in Htry as (info & tail & Hcalls & Hinfo & Hcase).
  assert (Hfr : same_but_files w1 w3) by (by trans w2).
  destruct Hfr as ((_ & Hv3 & _) & Hc3 & _).
  exists info, tail. rewrite Hcalls Hc3 Hc1. split; [done|]. split; [done|].
  rewrite Hv3 Hv1 in Hcase.
  destruct Hcase as [[-> (msg & -> & Hv)]|(fs_end & res & Htrace & Hout)].
  - left. split; [done|]. exists msg. split; [done|].
    by rewrite Hv list_insert_insert_eq set_failed_retry_reset.
  - right. exists fs_end, res. split; [done|].
    rewrite /attempt_outcome in Hout |- *.
    destruct res as [[[rc out] err]|e].
    + destruct (negb (rc =? 0));
        [by rewrite list_insert_insert_eq in Hout|].
      destruct (too_small output_file fs_end);
        [by rewrite list_insert_insert_eq in Hout|].
      destruct Hout as (video' & t & ? & ? & Hv). exists video', t.
      by rewrite Hv list_insert_insert_eq.
    + by rewrite list_insert_insert_eq in Hout.
Qed.

Lemma pair_of_fst {A B} (p : A * B) (a : A) : p.1 = a -> p = (a, p.2).
Proof. destruct p. simpl. by intros ->. Qed.

(** C10.  When [download_video] returns failure for a row that exists,
    the table differs from what it was in that row only, and the row
    differs in [failed_download] and [error_message] only: [downloaded],
    [skip], [file_deleted], [download_path] and [download_date] are as
    before. *)
Theorem download_video_failure_frame (E : Env) (video_id : string)
    (w w' : World) (i : nat) (v : Video.t) (message : string) :
  find_video video_id (videos w) = Some (i, v) ->
  download_video E video_id w = (Ok (false, message), w') ->
  exists error_message,
    let v' := Video.set_failed true (Some error_message) v in
    videos w' = <[i := v']> (videos w)
    /\ Video.downloaded v' = Video.downloaded v
    /\ Video.skip v' = Video.skip v
    /\ Video.file_deleted v' = Video.file_deleted v
    /\ Video.download_path v' = Video.download_path v
    /\ Video.download_date v' = Video.download_date v.
Proof.
  intros Hfind Hrun.
  destruct (Video.downloaded v) eqn:Hdl.
  { by rewrite /download_video /mbind /M_bind /bind /get /= Hfind Hdl in Hrun. }
  destruct (download_video_cases E _ _ _ _ _ _ Hfind Hdl Hrun)
    as [[[e ?] _]|(output_file & info & tail & _ & _ & Hcase)]; [done|].
  assert (Hgoal : exists m,
            videos w' = <[i := Video.set_failed true (Some m) v]> (videos w)).
  { destruct Hcase as [[_ (msg & _ & Hv)]|(fs_end & res & _ & Hout)];
      [eexists; exact Hv|].
    rewrite /attempt_outcome in Hout. destruct res as [[[rc out] err]|e].
    - destruct (negb (rc =? 0)).
      { destruct Hout as [_ ->]. rewrite set_failed_retry_reset. by eexists. }
      destruct (too_small output_file fs_end).
      { destruct Hout as [_ ->]. rewrite set_failed_retry_reset. by eexists. }
      by destruct Hout as (video' & t & _ & [=] & _).
    - destruct Hout as [_ ->]. rewrite set_failed_retry_reset. by eexists. }
  destruct Hgoal as [m Hm]. exists m. by rewrite /= Hm.
Qed.

Lemma download_video_failure_frame_witness :
  let E := Demo.env (Demo.Fails 1 " boom ") in
  find_video "v3" (videos Demo.world) = Some (2%nat, Demo.queued_item)
  /\ (download_video E "v3" Demo.world).1 = Ok (false, "yt-dlp error: boom")
  /\ exists error_message,
       let v' := Video.set_failed true (Some error_message) Demo.queued_item in
       videos (download_video E "v3" Demo.world).2
       = <[2%nat := v']> (videos Demo.world)
       /\ Video.downloaded v' = Video.downloaded Demo.queued_item
       /\ Video.skip v' = Video.skip Demo.queued_item
       /\ Video.file_deleted v' = Video.file_deleted Demo.queued_item
       /\ Video.download_path v' = Video.download_path Demo.queued_item
       /\ Video.download_date v' = Video.download_date Demo.queued_item.
Proof.
  intros E.
  assert (Hfst : (download_video E "v3" Demo.world).1
                 = Ok (false, "yt-dlp error: boom")) by (vm_compute; reflexivity).
  split; [reflexivity|]. split; [exact Hfst|].
  exact (download_video_failure_frame E "v3" Demo.world _ 2%nat
           Demo.queued_item "yt-dlp error: boom" eq_refl
           (pair_of_fst _ _ Hfst)).
Defined.

(** ** Download worker: failures are recorded *)

Lemma first_attempt_not_info ck o video_id res f :
  ~ is_info_call (mkCall (first_attempt_cmd ck o video_id) res f).
Proof. rewrite /is_info_call /= first_attempt_cmd_kind. by intros [=]. Qed.

Lemma second_attempt_not_info ck o video_id res f :
  ~ is_info_call (mkCall (second_attempt_cmd ck o video_id) res f).
Proof. rewrite /is_info_call /= second_attempt_cmd_kind. by intros [=]. Qed.

Lemma first_second_ne ck o video_id ck' o' video_id' :
  first_attempt_cmd ck o video_id <> second_attempt_cmd ck' o' video_id'.
Proof.
  intros Heq. apply (f_equal (fun c => c !! 2%nat)) in Heq.
  by rewrite first_attempt_cmd_kind second_attempt_cmd_kind in Heq.
Qed.

Lemma first_attempt_cmd_inj ck o video_id ck' o' video_id' :
  first_attempt_cmd ck o video_id = first_attempt_cmd ck' o' video_id' -> o = o'.
Proof.
  rewrite /first_attempt_cmd. intros Heq.
  apply app_inj_2 in Heq as [_ Heq]; [|done]. by injection Heq.
Qed.

Lemma second_attempt_cmd_inj ck o video_id ck' o' video_id' :
  second_attempt_cmd ck o video_id = second_attempt_cmd ck' o' video_id' -> o = o'.
Proof.
  rewrite /second_attempt_cmd. intros Heq.
  apply app_inj_2 in Heq as [_ Heq]; [|done]. by injection Heq.
Qed.



Lemma tail_of_calls (calls info tail : list tool_call) (base : list tool_call) w' :
  w' = base ++ calls -> w' = base ++ info ++ tail -> calls = info ++ tail.
Proof. intros -> Heq. by apply app_inv_head in Heq. Qed.




(** ** The status invariants, operation by operation *)

(** A run of [download_video] that returns success on a row that was not
    downloaded sets [downloaded] and clears the failure, and leaves
    [file_deleted] and [skip] as they were. *)
Lemma download_video_success_row E video_id w w' i v message :
  find_video video_id (videos w) = Some (i, v) ->
  Video.downloaded v = false ->
  download_video E video_id w = (Ok (true, message), w') ->
  exists v',
    videos w' = <[i := v']> (videos w)
    /\ Video.downloaded v' = true
    /\ Video.failed_download v' = false
    /\ Video.file_deleted v' = Video.file_deleted v
    /\ Video.skip v' = Video.skip v.
Proof.
  intros Hfind Hdl Hrun.
  destruct (download_video_cases E _ _ _ _ _ _ Hfind Hdl Hrun)
    as [[[e ?] _]|(output_file & info & tail & _ & _ & Hcase)]; [done|].
  destruct Hcase as [[_ (msg & ? & _)]|(fs_end & res & _ & Hout)]; [done|].
  rewrite /attempt_outcome in Hout. destruct res as [[[rc out] err]|e];
    [|by destruct Hout].
  destruct (negb (rc =? 0)); [by destruct Hout|].
  destruct (too_small output_file fs_end); [by destruct Hout|].
  destruct Hout as (video' & t & Hstep & _ & ->).
  eexists. split; [done|].
  rewrite /retry_reset in Hstep.
  destruct Hstep as [->|[u ->]]; by destruct (Video.failed_download v).
Qed.

Lemma set_failed_consistent m v :
  Video.downloaded v = false ->
  Video.flags_consistent (Video.set_failed true m v).
Proof. intros Hd. by rewrite /Video.flags_consistent /= Hd. Qed.

Lemma set_missing_consistent v : Video.flags_consistent (Video.set_missing v).
Proof. by split. Qed.

Lemma retry_reset_consistent v :
  Video.flags_consistent v -> Video.flags_consistent (retry_reset v).
Proof.
  rewrite /retry_reset /Video.flags_consistent.
  destruct (Video.failed_download v) eqn:Hf; simpl.
  - intros [? _]. split; [done|]. apply andb_false_r.
  - by rewrite Hf.
Qed.

(** [download_video] keeps both invariants on every row, provided the row
    it works on does not have [file_deleted] set. *)
Lemma download_video_consistent E video_id w :
  Forall Video.flags_consistent (videos w) ->
  (forall i v, find_video video_id (videos w) = Some (i, v) ->
               Video.file_deleted v = false) ->
  Forall Video.flags_consistent (videos (download_video E video_id w).2).
Proof.
  intros Hall Hfd.
  destruct (find_video video_id (videos w)) as [[i v]|] eqn:Hfind.
  2:{ by rewrite /download_video /mbind /M_bind /bind /get /= Hfind. }
  specialize (Hfd i v eq_refl).
  destruct (Video.downloaded v) eqn:Hdl.
  { by rewrite /download_video /mbind /M_bind /bind /get /= Hfind Hdl. }
  assert (Hv : Video.flags_consistent v).
  { rewrite Forall_forall in Hall. apply Hall.
    exact (list_elem_of_lookup_2 _ _ _ (find_video_lookup _ _ _ _ Hfind)). }
  destruct (download_video E video_id w) as [r w'] eqn:Hrun. simpl.
  destruct (download_video_cases E _ _ _ _ _ _ Hfind Hdl Hrun)
    as [(_ & _ & ->)|(output_file & info & tail & _ & _ & Hcase)].
  { apply Forall_insert; [done|]. by apply retry_reset_consistent. }
  destruct Hcase as [[_ (msg & _ & ->)]|(fs_end & res & _ & Hout)].
  { apply Forall_insert; [done|]. by apply set_failed_consistent. }
  rewrite /attempt_outcome in Hout.
  assert (Hdl0 : Video.downloaded (retry_reset v) = false).
  { rewrite /retry_reset. by destruct (Video.failed_download v). }
  destruct res as [[[rc out] err]|e].
  - destruct (negb (rc =? 0)).
    { destruct Hout as [_ ->]. apply Forall_insert; [done|].
      by apply set_failed_consistent. }
    destruct (too_small output_file fs_end).
    { destruct Hout as [_ ->]. apply Forall_insert; [done|].
      by apply set_failed_consistent. }
    destruct Hout as (video' & t & Hstep & _ & ->).
    apply Forall_insert; [done|]. rewrite /Video.flags_consistent /=.
    split; [|done].
    rewrite /retry_reset in Hstep.
    destruct Hstep as [->|[u ->]]; by destruct (Video.failed_download v).
  - destruct Hout as [_ ->]. apply Forall_insert; [done|].
    by apply set_failed_consistent.
Qed.

(** A pass of the library scanner keeps both invariants. *)
Lemma scan_pass_consistent w :
  Forall Video.flags_consistent (videos w) ->
  Forall Video.flags_consistent (videos (scan_pass w).2).
Proof.
  intros Hall. rewrite /scan_pass /mbind /M_bind /bind /get /=.
  destruct (0 <? _)%nat; simpl; [|done].
  apply Forall_forall. intros v' Hin.
  apply list_elem_of_In, in_map_iff in Hin as (v & <- & Hin).
  destruct (Video.downloaded v && file_missing (fs w) v); [done|].
  rewrite Forall_forall in Hall. by apply Hall, list_elem_of_In.
Qed.

(** [delete_video_files] keeps both invariants. *)
Lemma delete_video_files_consistent video_id w :
  Forall Video.flags_consistent (videos w) ->
  Forall Video.flags_consistent (videos (delete_video_files video_id w).2).
Proof.
  intros Hall. rewrite /delete_video_files /mbind /M_bind /bind /get /=.
  destruct (find_video video_id (videos w)) as [[i v]|]; [|done].
  destruct (negb (Video.downloaded v)); [done|].
  match goal with |- context [if ?b then _ else _] => destruct b end.
  { simpl. by apply Forall_insert. }
  rewrite /try_except /os_path_exists /get /=.
  destruct (fs_exists _ (fs w)).
  - rewrite /rmtree. case_bool_decide; simpl; [|done]. by apply Forall_insert.
  - simpl. by apply Forall_insert.
Qed.

(** What the poller inserts satisfies both invariants. *)
Lemma refresh_sources_consistent E w :
  Forall Video.flags_consistent (videos w) ->
  Forall Video.flags_consistent (videos (refresh_sources E w).2).
Proof.
  intros Hall. rewrite /refresh_sources /mbind /M_bind /bind /get /=.
  destruct (refresh_loop E (sources w) (videos w) 0 w)
    as [[[[srcs' vs'] n']|e] w1] eqn:Hloop;
    apply refresh_loop_spec in Hloop as ((_ & Hv & _) & _ & Hres); simpl.
  - destruct Hres as (_ & polled & new & _ & _ & -> & _ & _ & Hins & _).
    apply Forall_app. split; [done|].
    eapply Forall_impl; [exact Hins|].
    by intros v (p & _ & _ & _ & _ & d & vs0 & _ & ->).
  - by rewrite Hv.
Qed.

(** ** Library scanner: what one pass does *)

(** After a pass no row is marked downloaded while its file is missing. *)
Lemma scan_pass_repairs w :
  Forall (fun v => Video.downloaded v && file_missing (fs w) v = false)
    (videos (scan_pass w).2).
Proof.
  rewrite /scan_pass /mbind /M_bind /bind /get /=.
  destruct (0 <? _)%nat eqn:Hpos; simpl.
  - apply Forall_forall. intros v' Hin.
    apply list_elem_of_In, in_map_iff in Hin as (v & <- & Hin).
    by destruct (Video.downloaded v && file_missing (fs w) v) eqn:Hhit.
  - apply Nat.ltb_ge in Hpos.
    assert (Hnil : List.filter
              (fun v => Video.downloaded v && file_missing (fs w) v) (videos w) = []).
    { destruct (List.filter _ _); [done|]. simpl in Hpos. lia. }
    apply Forall_forall. intros v Hin.
    destruct (Video.downloaded v && file_missing (fs w) v) eqn:Hhit; [|done].
    assert (In v (List.filter
              (fun v => Video.downloaded v && file_missing (fs w) v) (videos w))).
    { apply filter_In. split; [by apply list_elem_of_In|done]. }
    by rewrite Hnil in H.
Qed.

Lemma scan_pass_fs w : fs (scan_pass w).2 = fs w.
Proof.
  rewrite /scan_pass /mbind /M_bind /bind /get /=. by destruct (0 <? _)%nat.
Qed.

(** The scanner is idempotent: a second pass right after a first one, with
    the files as they were, finds nothing and changes nothing. *)
Lemma scan_pass_idempotent w :
  scan_pass (scan_pass w).2 = (Ok 0%nat, (scan_pass w).2).
Proof.
  pose proof (scan_pass_repairs w) as Hrep.
  pose proof (scan_pass_fs w) as Hfs.
  set (w1 := (scan_pass w).2) in *.
  rewrite /scan_pass /mbind /M_bind /bind /get /= Hfs.
  assert (Hnil : List.filter
            (fun v => Video.downloaded v && file_missing (fs w) v) (videos w1) = []).
  { induction (videos w1) as [|v vs IH]; [done|]. simpl.
    apply Forall_cons in Hrep as [-> Hrest]. by apply IH. }
  by rewrite Hnil.
Qed.

Lemma scan_pass_rows w :
  let hit v := Video.downloaded v && file_missing (fs w) v in
  (scan_pass w).1 = Ok (List.length (List.filter hit (videos w)))
  /\ videos (scan_pass w).2
     = List.map (fun v => if hit v then Video.set_missing v else v) (videos w).
Proof.
  rewrite /scan_pass /mbind /M_bind /bind /get /=.
  destruct (0 <? _)%nat eqn:Hpos; simpl; [done|].
  split; [done|]. apply Nat.ltb_ge in Hpos.
  induction (videos w) as [|v vs IH]; [done|]. simpl in *.
  destruct (Video.downloaded v && file_missing (fs w) v); simpl in *; [lia|].
  f_equal. by apply IH.
Qed.

(** After a pass every row still marked downloaded has a recorded path that
    is on disk; the pass keeps the ids and their order, leaves every row
    that was not marked downloaded as it was, and touches no file. *)
Theorem scan_pass_postcondition (w : World) :
  let w' := (scan_pass w).2 in
  (forall v, v ∈ videos w' -> Video.downloaded v = true ->
     exists p, Video.download_path v = Some p /\ Py.truthy p = true
               /\ fs_exists p (fs w') = true)
  /\ video_ids (videos w') = video_ids (videos w)
  /\ (forall v, v ∈ videos w -> Video.downloaded v = false -> v ∈ videos w')
  /\ fs w' = fs w.
Proof.
  pose proof (scan_pass_repairs w) as Hrep.
  pose proof (scan_pass_fs w) as Hfs.
  destruct (scan_pass_rows w) as [_ Hrows]. simpl in *.
  split; [|split; [|split; [|done]]].
  - intros v Hin Hdl. rewrite Forall_forall in Hrep.
    specialize (Hrep v Hin). rewrite Hdl /= /file_missing in Hrep.
    destruct (Video.download_path v) as [p|]; [|done].
    exists p. split; [done|]. rewrite Hfs.
    destruct (Py.truthy p), (fs_exists p (fs w)); done.
  - rewrite Hrows /video_ids map_map. apply map_ext. intros v.
    by destruct (Video.downloaded v && file_missing (fs w) v).
  - intros v Hin Hdl. rewrite Hrows. apply list_elem_of_In, in_map_iff.
    exists v. split; [by rewrite Hdl|by apply list_elem_of_In].
Qed.

(** ** Download worker: further cases *)

(** An identifier that is in no row: failure, and nothing at all happens. *)
Lemma download_video_not_found E video_id w :
  find_video video_id (videos w) = None ->
  download_video E video_id w = (Ok (false, "Video not found in database"), w).
Proof.
  intros Hfind. by rewrite /download_video /mbind /M_bind /bind /get /= Hfind.
Qed.

(** An attempt that exits zero and leaves an output file of at least
    10000 bytes makes the run a success: the row is marked downloaded with
    that file as its path, and a failure recorded earlier is cleared. *)
Lemma download_video_succeeds E video_id w w' i v r calls :
  find_video video_id (videos w) = Some (i, v) ->
  Video.downloaded v = false ->
  download_video E video_id w = (r, w') ->
  tool_calls w' = tool_calls w ++ calls ->
  forall cmd ck o out err f,
    cmd = first_attempt_cmd ck o video_id
    \/ cmd = second_attempt_cmd ck o video_id ->
    mkCall cmd (Some (0, out, err)) f ∈ calls ->
    too_small o f = false ->
    r = Ok (true, "Downloaded successfully: " +:+ o)
    /\ exists v',
         videos w' = <[i := v']> (videos w)
         /\ Video.downloaded v' = true
         /\ Video.download_path v' = Some o
         /\ Video.failed_download v' = false
         /\ Video.error_message v' = None
         /\ Video.file_deleted v' = Video.file_deleted v
         /\ Video.skip v' = Video.skip v.
Proof.
  intros Hfind Hdl Hrun Hcalls cmd ck o out err f Hcmd Hin Hbig.
  destruct (download_video_cases E _ _ _ _ _ _ Hfind Hdl Hrun)
    as [(_ & Hsame & _)|(output_file & info & tail & Hlog & Hinfo & Hcase)].
  { assert (calls = []) as ->.
    { rewrite -(app_nil_r (tool_calls w)) in Hsame.
      rewrite Hsame in Hcalls. by apply app_inv_head in Hcalls. }
    by apply elem_of_nil in Hin. }
  pose proof (tail_of_calls _ _ _ _ _ Hcalls Hlog) as ->.
  rewrite Forall_forall in Hinfo.
  apply elem_of_app in Hin as [Hin|Hin].
  { apply Hinfo in Hin.
    destruct Hcmd as [->| ->];
      [by apply first_attempt_not_info in Hin
      |by apply second_attempt_not_info in Hin]. }
  destruct Hcase as [[-> _]|(fs_end & res & Htrace & Hout)];
    [by apply elem_of_nil in Hin|].
  rewrite /attempt_outcome in Hout.
  assert (Hrow : forall video' t,
    thumbnail_step (retry_reset v) video' ->
    let v' := Video.set_downloaded t output_file video' in
    Video.downloaded v' = true
    /\ Video.download_path v' = Some output_file
    /\ Video.failed_download v' = false
    /\ Video.error_message v' = None
    /\ Video.file_deleted v' = Video.file_deleted v
    /\ Video.skip v' = Video.skip v).
  { intros video' t Hstep. rewrite /retry_reset in Hstep.
    destruct Hstep as [->|[u ->]]; by destruct (Video.failed_download v). }
  destruct Htrace; repeat (apply elem_of_cons in Hin as [Hin|Hin]);
    try (by apply elem_of_nil in Hin); try (by injection Hin);
    try (injection Hin as _ Hz _ _; congruence).
  - injection Hin as Hc <- <- <-.
    assert (o = output_file) as ->.
    { destruct Hcmd as [->| ->];
        [by apply first_attempt_cmd_inj in Hc
        |symmetry in Hc; by apply first_second_ne in Hc]. }
    rewrite Hbig /= in Hout. destruct Hout as (video' & t & Hstep & -> & ->).
    split; [done|]. eexists. split; [done|]. by apply Hrow.
  - injection Hin as Hc <- <- <- <-.
    assert (o = output_file) as ->.
    { destruct Hcmd as [->| ->];
        [by apply first_second_ne in Hc
        |by apply second_attempt_cmd_inj in Hc]. }
    rewrite Hbig /= in Hout. destruct Hout as (video' & t & Hstep & -> & ->).
    split; [done|]. eexists. split; [done|]. by apply Hrow.
Qed.

(** ** How often the tool is run *)

Lemma adds_calls_weaken {A} n m (c : M A) :
  (n <= m)%nat -> adds_calls n c -> adds_calls m c.
Proof. intros Hle Hc w. destruct (Hc w) as (l & ? & ?). exists l. split; [done|lia]. Qed.

Lemma adds_calls_ret {A} (a : A) : adds_calls 0 (mret a).
Proof. intros w. exists []. by rewrite app_nil_r. Qed.

Lemma adds_calls_raise {A} e : adds_calls 0 (@raise A e).
Proof. intros w. exists []. by rewrite app_nil_r. Qed.

Lemma adds_calls_get {A} (f : World -> A) : adds_calls 0 (get f).
Proof. intros w. exists []. by rewrite app_nil_r. Qed.

Lemma adds_calls_bind {A B} n m (c : M A) (k : A -> M B) :
  adds_calls n c -> (forall a, adds_calls m (k a)) -> adds_calls (n + m) (c ≫= k).
Proof.
  intros Hc Hk w. rewrite /mbind /M_bind /bind.
  destruct (Hc w) as (l & Hl & Hn).
  destruct (c w) as [[a|e] w1]; simpl in *.
  - destruct (Hk a w1) as (l' & Hl' & Hm). exists (l ++ l').
    rewrite Hl' Hl app_assoc length_app. split; [done|lia].
  - exists l. split; [done|lia].
Qed.

Lemma adds_calls_try_except {A} n m (c : M A) (h : exn -> M A) :
  adds_calls n c -> (forall e, adds_calls m (h e)) ->
  adds_calls (n + m) (try_except c h).
Proof.
  intros Hc Hh w. rewrite /try_except.
  destruct (Hc w) as (l & Hl & Hn).
  destruct (c w) as [[a|e] w1]; simpl in *.
  - exists l. split; [done|lia].
  - destruct (Hh e w1) as (l' & Hl' & Hm). exists (l ++ l').
    rewrite Hl' Hl app_assoc length_app. split; [done|lia].
Qed.

Lemma adds_calls_files {A} (c : M A) :
  preserves same_but_files c -> adds_calls 0 c.
Proof.
  intros Hc w. destruct (Hc w) as (_ & Hcalls & _).
  exists []. by rewrite app_nil_r.
Qed.

Lemma adds_calls_subprocess_run E check cmd :
  adds_calls 1 (subprocess_run E check cmd).
Proof.
  intros w. pose proof (subprocess_run_spec E check cmd w) as Hrun.
  destruct (run_tool E cmd _ _); rewrite Hrun /=; eexists [_]; by split.
Qed.

(** A lookup runs the tool at most once. *)
Lemma get_video_info_one_call E video_id :
  adds_calls 1 (get_video_info E video_id).
Proof.
  rewrite /get_video_info.
  apply (adds_calls_try_except 1 0).
  - apply (adds_calls_bind 0 1); [apply adds_calls_files, get_cookie_file_files|].
    intros ck. apply (adds_calls_bind 1 0); [apply adds_calls_subprocess_run|].
    intros [[rc out] err]. destruct (json_loads E out);
      [apply adds_calls_ret|apply adds_calls_raise].
  - intros e. rewrite /resolver_except.
    destruct e; [apply adds_calls_ret|apply adds_calls_ret|apply adds_calls_raise].
Qed.

Lemma attempts_three_calls E video_id output_file :
  adds_calls 3 (attempts E video_id output_file).
Proof.
  rewrite /attempts.
  apply (adds_calls_bind 1 2); [apply get_video_info_one_call|]. intros d.
  apply (adds_calls_bind 0 2); [apply adds_calls_files, get_cookie_file_files|].
  intros ck.
  apply (adds_calls_bind 1 1); [apply adds_calls_subprocess_run|]. intros r1.
  apply (adds_calls_bind 1 0); [|intros r2; apply adds_calls_ret].
  destruct (negb (r1.1.1 =? 0)); [apply adds_calls_subprocess_run|].
  apply (adds_calls_weaken 0); [lia|apply adds_calls_ret].
Qed.

Lemma record_outcome_no_call E i video output_file folder r :
  adds_calls 0 (record_outcome E i video output_file folder r).
Proof.
  intros w. destruct r as [d [[rc out] err]].
  destruct (record_outcome_spec E i video output_file folder d rc out err w)
    as (r0 & w0 & -> & Hcalls & _).
  exists []. by rewrite app_nil_r.
Qed.

Lemma commit_video_no_call i v : adds_calls 0 (commit_video i v).
Proof. intros w. exists []. by rewrite app_nil_r. Qed.

(** One run of [download_video] runs the tool at most three times: one
    lookup and at most two attempts. *)
Lemma download_video_three_calls E video_id :
  adds_calls 3 (download_video E video_id).
Proof.
  rewrite /download_video.
  apply (adds_calls_bind 0 3); [apply adds_calls_get|]. intros vs.
  destruct (find_video video_id vs) as [[i video]|];
    [|apply (adds_calls_weaken 0); [lia|apply adds_calls_ret]].
  destruct (Video.downloaded video);
    [apply (adds_calls_weaken 0); [lia|apply adds_calls_ret]|].
  apply (adds_calls_bind 0 3).
  { destruct (Video.failed_download video); [|apply adds_calls_ret].
    apply (adds_calls_bind 0 0); [apply commit_video_no_call|].
    intros _. apply adds_calls_ret. }
  intros v0.
  apply (adds_calls_bind 0 3).
  { intros w. destruct (resolve_download_path_spec v0 w) as [dp ->].
    exists []. by rewrite app_nil_r. }
  intros [dp|]; [|apply (adds_calls_weaken 0); [lia|apply adds_calls_raise]].
  apply (adds_calls_bind 0 3); [apply adds_calls_files, os_makedirs_files|].
  intros _.
  apply (adds_calls_bind 0 3); [apply adds_calls_get|]. intros ex.
  apply (adds_calls_bind 0 3).
  { destruct ex; [apply adds_calls_files, os_remove_files|apply adds_calls_ret]. }
  intros _.
  apply (adds_calls_try_except 3 0).
  - apply (adds_calls_bind 3 0); [apply attempts_three_calls|].
    intros r. apply record_outcome_no_call.
  - intros e. rewrite /download_except.
    apply (adds_calls_bind 0 0); [apply commit_video_no_call|].
    intros _. apply adds_calls_ret.
Qed.

(** The scanner, file deletion and the poller keep both status invariants
    on every row. *)
Lemma operations_keep_invariants E video_id w :
  Forall Video.flags_consistent (videos w) ->
  Forall Video.flags_consistent (videos (scan_pass w).2)
  /\ Forall Video.flags_consistent (videos (delete_video_files video_id w).2)
  /\ Forall Video.flags_consistent (videos (refresh_sources E w).2).
Proof.
  intros Hall. split; [by apply scan_pass_consistent|].
  split; [by apply delete_video_files_consistent
         |by apply refresh_sources_consistent].
Qed.

Lemma demo_world_consistent : Forall Video.flags_consistent (videos Demo.world).
Proof. repeat constructor. Qed.

Lemma operations_keep_invariants_witness :
  let E := Demo.env (Demo.Delivers 20000) in
  Forall Video.flags_consistent (videos Demo.world)
  /\ Forall Video.flags_consistent (videos (scan_pass Demo.world).2)
  /\ Forall Video.flags_consistent (videos (delete_video_files "v2" Demo.world).2)
  /\ Forall Video.flags_consistent (videos (refresh_sources E Demo.world).2).
Proof.
  intros E. split; [exact demo_world_consistent|].
  exact (operations_keep_invariants E "v2" Demo.world demo_world_consistent).
Defined.

Lemma download_video_consistent_witness :
  let E := Demo.env (Demo.Delivers 20000) in
  Forall Video.flags_consistent (videos Demo.world)
  /\ (forall i v, find_video "v3" (videos Demo.world) = Some (i, v) ->
                  Video.file_deleted v = false)
  /\ Forall Video.flags_consistent (videos (download_video E "v3" Demo.world).2).
Proof.
  intros E.
  assert (Hfd : forall i v, find_video "v3" (videos Demo.world) = Some (i, v) ->
                            Video.file_deleted v = false).
  { intros i v Hfind.
    assert (Hq : find_video "v3" (videos Demo.world)
                 = Some (2%nat, Demo.queued_item)) by reflexivity.
    rewrite Hq in Hfind. by injection Hfind as _ <-. }
  split; [exact demo_world_consistent|]. split; [exact Hfd|].
  exact (download_video_consistent E "v3" Demo.world demo_world_consistent Hfd).
Defined.

Lemma download_video_success_row_witness :
  let E := Demo.env (Demo.Delivers 20000) in
  find_video "v3" (videos Demo.world) = Some (2%nat, Demo.queued_item)
  /\ Video.downloaded Demo.queued_item = false
  /\ (download_video E "v3" Demo.world).1
     = Ok (true, "Downloaded successfully: /data/Demo/Demo.mp4")
  /\ exists v',
       videos (download_video E "v3" Demo.world).2
       = <[2%nat := v']> (videos Demo.world)
       /\ Video.downloaded v' = true
       /\ Video.failed_download v' = false
       /\ Video.file_deleted v' = Video.file_deleted Demo.queued_item
       /\ Video.skip v' = Video.skip Demo.queued_item.
Proof.
  intros E.
  assert (Hfst : (download_video E "v3" Demo.world).1
                 = Ok (true, "Downloaded successfully: /data/Demo/Demo.mp4"))
    by (vm_compute; reflexivity).
  split; [reflexivity|]. split; [reflexivity|]. split; [exact Hfst|].
  exact (download_video_success_row E "v3" Demo.world _ 2%nat Demo.queued_item
           _ eq_refl eq_refl (pair_of_fst _ _ Hfst)).
Defined.

Lemma download_video_succeeds_witness :
  let E := Demo.env (Demo.Delivers 20000) in
  (download_video E "v3" Demo.world).1
  = Ok (true, "Downloaded successfully: /data/Demo/Demo.mp4")
  /\ exists v',
       videos (download_video E "v3" Demo.world).2
       = <[2%nat := v']> (videos Demo.world)
       /\ Video.downloaded v' = true
       /\ Video.download_path v' = Some "/data/Demo/Demo.mp4"
       /\ Video.failed_download v' = false
       /\ Video.error_message v' = None
       /\ Video.file_deleted v' = Video.file_deleted Demo.queued_item
       /\ Video.skip v' = Video.skip Demo.queued_item.
Proof.
  intros E.
  set (f := mkFS {["/data/Demo/Demo.mp4" := BlobFile 20000]} {["/data/Demo"]}).
  assert (Hin : mkCall (first_attempt_cmd None "/data/Demo/Demo.mp4" "v3")
                  (Some (0, "", "")) f
                ∈ tool_calls (download_video E "v3" Demo.world).2).
  { apply (list_elem_of_lookup_2 _ 1%nat). vm_compute. reflexivity. }
  exact (download_video_succeeds E "v3" Demo.world
           (download_video E "v3" Demo.world).2 2%nat Demo.queued_item
           (download_video E "v3" Demo.world).1
           (tool_calls (download_video E "v3" Demo.world).2)
           eq_refl eq_refl (surjective_pairing _) eq_refl
           _ None "/data/Demo/Demo.mp4" "" "" f (or_introl eq_refl) Hin eq_refl).
Defined.

(** ** File names made from titles *)

Lemma replace_cons c d a s :
  Py.replace c d (String a s) = String (if Ascii.eqb a c then d else a) (Py.replace c d s).
Proof. reflexivity. Qed.

Lemma sanitize_cons a s :
  sanitize (String a s) = String (if bool_decide (a ∈ unsafe_chars) then "_"%char else a) (sanitize s).
Proof.
  rewrite /sanitize !replace_cons. f_equal.
  destruct a as [[] [] [] [] [] [] [] []]; vm_compute; reflexivity.
Qed.

(** What [sanitize] returns holds none of the nine characters it replaces,
    is as long as its argument, has every other character where it was,
    and is left as it is by a second [sanitize]. *)
Lemma sanitize_safe (s : string) :
  (forall c, c ∈ unsafe_chars -> Py.contains c (sanitize s) = false)
  /\ String.length (sanitize s) = String.length s
  /\ (forall i a, String.get i s = Some a -> a ∉ unsafe_chars ->
        String.get i (sanitize s) = Some a)
  /\ sanitize (sanitize s) = sanitize s.
Proof.
  induction s as [|a s (IH1 & IH2 & IH3 & IH4)].
  { repeat split; try done. }
  rewrite !sanitize_cons. repeat split.
  - intros c Hc. simpl. rewrite (IH1 c Hc) orb_false_r.
    case_bool_decide as Ha.
    + apply Ascii.eqb_neq. intros <-.
      assert (H : bool_decide ("_"%char ∈ unsafe_chars) = false)
        by (vm_compute; reflexivity).
      by apply bool_decide_eq_false_1 in H.
    + apply Ascii.eqb_neq. by intros ->.
  - simpl. by rewrite IH2.
  - intros [|i] b; simpl.
    + intros [= ->] Hb. by rewrite bool_decide_eq_false_2.
    + apply IH3.
  - rewrite IH4. f_equal. by repeat case_bool_decide.
Qed.

(** ** Queue processor: when the selection is empty *)

Lemma auto_ids_nil (srcs : list Source.t) :
  List.map Source.id (List.filter Source.auto_download srcs) = []
  <-> existsb Source.auto_download srcs = false.
Proof.
  induction srcs as [|s srcs IH]; simpl; [done|].
  destruct (Source.auto_download s); simpl; [|done]. split; done.
Qed.

Lemma standalone_candidate (srcs : list Source.t) (v : Video.t) :
  match Video.source_id v with
  | Some sid =>
      existsb (fun s => bool_decide (Source.id s = sid)
                        && bool_decide (Source.source_type s = "video")) srcs
  | None => false
  end && negb (Video.downloaded v) && negb (Video.file_deleted v)
  && negb (Video.skip v) && negb (Video.failed_download v) = true ->
  Video.eligible v = true
  /\ exists s, In s srcs /\ Video.source_id v = Some (Source.id s)
       /\ Source.source_type s = "video".
Proof.
  rewrite /Video.eligible -!andb_assoc. intros Hp.
  apply andb_prop in Hp as [Hsrc Hel]. split; [exact Hel|].
  destruct (Video.source_id v) as [sid|]; [|done].
  apply existsb_exists in Hsrc as (s & Hs & Hb).
  apply andb_prop in Hb as [Hid Hty].
  apply bool_decide_eq_true in Hid, Hty. exists s. by rewrite Hid.
Qed.

(** The selection returns a row exactly when some row qualifies: what it
    returns is a row of the table that is a [queue_candidate], and it
    returns nothing if and only if no row of the table is one. *)
Lemma next_video_candidate (w : World) :
  (forall v, next_video w = Some v -> In v (videos w) /\ queue_candidate w v)
  /\ (next_video w = None <->
      forall v, In v (videos w) -> ~ queue_candidate w v).
Proof.
  rewrite /next_video /queue_candidate.
  destruct (List.map Source.id (List.filter Source.auto_download (sources w)))
    as [|s0 ids] eqn:Hids.
  - apply auto_ids_nil in Hids as Hex. rewrite Hex. split.
    + intros v Hsel. apply find_some in Hsel as [Hin Hp]. split; [done|].
      by apply standalone_candidate.
    + split.
      * intros Hnone v Hin (Hel & s & Hs & Hsid & Hty).
        apply (find_none _ _ Hnone) in Hin. rewrite -!andb_assoc in Hin.
        rewrite /Video.eligible -!andb_assoc in Hel.
        rewrite Hel andb_true_r Hsid in Hin.
        assert (Hx : existsb (fun s1 => bool_decide (Source.id s1 = Source.id s)
                        && bool_decide (Source.source_type s1 = "video")) (sources w) = true).
        { apply existsb_exists. exists s. split; [done|].
          by rewrite !bool_decide_eq_true_2. }
        congruence.
      * intros Hno. destruct (find _ _) as [v|] eqn:Hsel; [|done]. exfalso.
        apply find_some in Hsel as [Hin Hp]. apply (Hno v Hin).
        by apply standalone_candidate.
  - assert (Hex : existsb Source.auto_download (sources w) = true).
    { destruct (existsb _ _) eqn:Hx; [done|]. apply auto_ids_nil in Hx. congruence. }
    rewrite Hex -Hids.
    assert (Hmem : forall sid,
      sid ∈ List.map Source.id (List.filter Source.auto_download (sources w))
      <-> exists s, In s (sources w) /\ sid = Source.id s /\ Source.auto_download s = true).
    { intros sid. rewrite list_elem_of_In in_map_iff. split.
      - intros (s & <- & Hs). apply filter_In in Hs as [? ?]. by exists s.
      - intros (s & Hs & -> & Ha). exists s. split; [done|]. by apply filter_In. }
    split.
    + intros v Hsel. apply find_some in Hsel as [Hin Hp].
      apply filter_In in Hin as [Hin Hel]. split; [done|]. split; [done|].
      destruct (Video.source_id v) as [sid|]; [|done].
      apply bool_decide_eq_true, Hmem in Hp as (s & Hs & -> & Ha). by exists s.
    + split.
      * intros Hnone v Hin (Hel & s & Hs & Hsid & Ha).
        assert (Hin' : In v (List.filter Video.eligible (videos w)))
          by by apply filter_In.
        apply (find_none _ _ Hnone) in Hin'. rewrite Hsid in Hin'.
        apply bool_decide_eq_false in Hin'. apply Hin', Hmem. by exists s.
      * intros Hno. destruct (find _ _) as [v|] eqn:Hsel; [|done]. exfalso.
        apply find_some in Hsel as [Hin Hp].
        apply filter_In in Hin as [Hin Hel]. apply (Hno v Hin). split; [done|].
        destruct (Video.source_id v) as [sid|]; [|done].
        apply bool_decide_eq_true, Hmem in Hp as (s & Hs & -> & Ha). by exists s.
Qed.

(** ** Settings: writing and reading back *)

(** [update_setting] either redirects to the settings page, for a key that
    exists or for [youtube_cookies], and then [get_setting] reads the new
    value back, the other keys read as before and an existing row keeps its
    id; or it answers 404 with "Setting <key> not found" for an unknown key
    and leaves the state as it is. *)
Lemma update_setting_outcome (key value : string) (w : World) :
  let r := (update_setting key value w).1 in
  let w' := (update_setting key value w).2 in
  (r = Ok (RedirectResponse "/settings" 303)
   /\ (is_Some (settings w !! key) \/ key = "youtube_cookies")
   /\ get_setting key w' = (Ok (Some value), w')
   /\ (forall k, k <> key -> (get_setting k w').1 = (get_setting k w).1)
   /\ (forall row, settings w !! key = Some row ->
         Setting.id <$> settings w' !! key = Some (Setting.id row))
   /\ videos w' = videos w /\ sources w' = sources w /\ fs w' = fs w)
  \/ (r = Ok (HTTPException 404 ("Setting " +:+ key +:+ " not found"))
      /\ w' = w /\ settings w !! key = None /\ key <> "youtube_cookies").
Proof.
  rewrite /update_setting /get_setting /mbind /M_bind /bind /get /modify /commit /=.
  destruct (settings w !! key) as [row|] eqn:Hrow; simpl.
  - left. rewrite lookup_insert_eq /=. repeat split; try done.
    + left. by eexists.
    + intros k Hk. rewrite lookup_insert_ne; [congruence|done].
    + by intros row' [= <-].
  - case_bool_decide as Hk; simpl.
    + left. rewrite lookup_insert_eq /=. repeat split; try done.
      * by right.
      * intros k Hk'. rewrite lookup_insert_ne; [congruence|done].
    + right. done.
Qed.

(** ** Credential cache: the second call *)

(** For a credential text of ASCII characters that is not blank: after a
    first call that wrote the credential file, a second call with the
    settings unchanged returns the same path and changes nothing. *)
Lemma get_cookie_file_cached (w : World) (row : Setting.t) (c : string) :
  settings w !! "youtube_cookies" = Some row ->
  Setting.value row = Some c ->
  Py.isascii c = true ->
  no_cookies (Some c) = false ->
  GLOBAL_COOKIE_FILE w = None ->
  files (fs w) !! Py.join (Py.join (cwd w) "downloads") ".temp" = None ->
  cookie_file_path w ∉ dirs (fs w) ->
  cookie_file_path w <> Py.join (Py.join (cwd w) "downloads") ".temp" ->
  let w1 := (get_cookie_file w).2 in
  get_cookie_file w1 = (Ok (Some (cookie_file_path w)), w1).
Proof.
  intros Hrow Hc _ Hnb Hg Hdir Hnd Hne.
  assert (Hw : forall x, write_text (cookie_file_path w) c
                 (set_fs (mkFS (files (fs w))
                    ({[Py.join (Py.join (cwd w) "downloads") ".temp"]} ∪ dirs (fs w))) x)
               = (Ok tt, set_fs (mkFS (<[cookie_file_path w := TextFile c]> (files (fs w)))
                    ({[Py.join (Py.join (cwd w) "downloads") ".temp"]} ∪ dirs (fs w))) x)).
  { intros x. rewrite /write_text /= bool_decide_eq_false_2; [|done].
    rewrite elem_of_union elem_of_singleton. by intros [?|?]. }
  assert (Hpath : Py.truthy (cookie_file_path w) = true).
  { rewrite /cookie_file_path.
    generalize (Py.join (Py.join (cwd w) "downloads") ".temp"). intros a.
    rewrite /Py.join /=. by destruct (negb _ || _), a. }
  set (tmp := Py.join (Py.join (cwd w) "downloads") ".temp") in *.
  assert (Hidem : ({[tmp]} ∪ ({[tmp]} ∪ dirs (fs w)) : gset string)
                  = {[tmp]} ∪ dirs (fs w))
    by (apply set_eq; intros x; rewrite !elem_of_union; tauto).
  assert (Hfirst : exists ts,
    (get_cookie_file w).2
    = set_cookie_file (Some (cookie_file_path w))
        (set_fs (mkFS (<[cookie_file_path w := TextFile c]> (files (fs w)))
                   ({[tmp]} ∪ dirs (fs w)))
           (set_cookie_timestamp ts w))
    /\ (Setting.id row <= ts \/ Setting.id row = 0)).
  { rewrite /get_cookie_file /get_setting /check_cookie_timestamp
      /mbind /M_bind /bind /get /os_makedirs /os_path_exists /try_except
      /modify /= Hrow /= Hc Hnb. fold tmp. rewrite Hdir /= Hrow.
    destruct (bool_decide (Setting.id row ≠ 0)
              && (COOKIE_TIMESTAMP w <? Setting.id row)) eqn:Hts; rewrite /= Hg /=.
    - rewrite (Hw (set_cookie_timestamp _ w)) /=. eexists. split; [reflexivity|].
      left. lia.
    - rewrite (Hw w) /=. exists (COOKIE_TIMESTAMP w). split; [by destruct w|].
      apply andb_false_iff in Hts as [Hz|Hlt].
      + right. apply bool_decide_eq_false in Hz. by destruct (decide (Setting.id row = 0)).
      + left. lia. }
  destruct Hfirst as (ts & Hw1 & Hts). simpl. rewrite Hw1.
  rewrite /get_cookie_file /get_setting /check_cookie_timestamp
    /mbind /M_bind /bind /get /os_makedirs /os_path_exists /try_except
    /modify /= Hrow /= Hc Hnb. fold tmp.
  rewrite lookup_insert_ne; [done|]. rewrite Hdir /= Hrow.
  assert (Hno : bool_decide (Setting.id row ≠ 0) && (ts <? Setting.id row) = false).
  { destruct Hts as [Hle|Hz].
    - apply andb_false_iff. right. lia.
    - apply andb_false_iff. left. by apply bool_decide_eq_false_2; intros ?. }
  rewrite Hno /= Hpath /fs_exists /= lookup_insert_eq /= Hidem. done.
Qed.

Lemma get_cookie_file_first_witness :
  (get_cookie_file Scenario.cookie_world).1
  = Ok (Some (cookie_file_path Scenario.cookie_world))
  /\ read_text (cookie_file_path Scenario.cookie_world)
       (get_cookie_file Scenario.cookie_world).2 = Some "A".
Proof.
  apply (get_cookie_file_first Scenario.cookie_world (Setting.mk 5 (Some "A")) "A").
  - vm_compute; reflexivity.
  - reflexivity.
  - reflexivity.
  - vm_compute; reflexivity.
  - vm_compute; reflexivity.
  - vm_compute; reflexivity.
  - apply (proj1 (bool_decide_eq_false _)). vm_compute; reflexivity.
  - apply (proj1 (bool_decide_eq_false _)). vm_compute; reflexivity.
Defined.

Lemma get_cookie_file_cached_witness :
  get_cookie_file (get_cookie_file Scenario.cookie_world).2
  = (Ok (Some (cookie_file_path Scenario.cookie_world)),
     (get_cookie_file Scenario.cookie_world).2).
Proof.
  apply (get_cookie_file_cached Scenario.cookie_world (Setting.mk 5 (Some "A")) "A").
  - vm_compute; reflexivity.
  - reflexivity.
  - reflexivity.
  - vm_compute; reflexivity.
  - vm_compute; reflexivity.
  - vm_compute; reflexivity.
  - apply (proj1 (bool_decide_eq_false _)). vm_compute; reflexivity.
  - apply (proj1 (bool_decide_eq_false _)). vm_compute; reflexivity.
Defined.

Lemma get_cookie_file_blank_witness :
  GLOBAL_COOKIE_FILE Scenario.cleared_world
  = Some "/app/downloads/.temp/youtube_cookies.txt"
  /\ (get_cookie_file Scenario.cleared_world).1 = Ok None
  /\ files (fs (get_cookie_file Scenario.cleared_world).2)
       !! "/app/downloads/.temp/youtube_cookies.txt" = None
  /\ GLOBAL_COOKIE_FILE (get_cookie_file Scenario.cleared_world).2 = None.
Proof.
  split; [vm_compute; reflexivity|].
  assert (Hblank : forall s, setting_value "youtube_cookies" Scenario.cleared_world
                             = Some s -> ascii_blank s = true).
  { intros s Hs.
    assert (Hv : setting_value "youtube_cookies" Scenario.cleared_world = Some "")
      by (vm_compute; reflexivity).
    rewrite Hv in Hs. by injection Hs as <-. }
  destruct (get_cookie_file_blank Scenario.cleared_world Hblank) as [Hr Hf].
  split; [exact Hr|].
  apply (Hf "/app/downloads/.temp/youtube_cookies.txt" (TextFile "A"));
    vm_compute; reflexivity.
Defined.

(** ** Handlers that change the status of a row *)

Lemma find_video_insert video_id vs i v v' :
  find_video video_id vs = Some (i, v) ->
  Video.video_id v' = video_id ->
  find_video video_id (<[i := v']> vs) = Some (i, v').
Proof.
  rewrite /find_video. intros Hfind Hid.
  apply list_find_Some in Hfind as (Hi & _ & Hbefore).
  apply list_find_Some. split; [|split; [done|]].
  - apply list_lookup_insert_eq. exact (lookup_lt_Some _ _ _ Hi).
  - intros j y Hj Hlt. rewrite list_lookup_insert_ne in Hj; [lia|].
    by apply (Hbefore j).
Qed.

Lemma find_video_map video_id (f : Video.t -> Video.t) vs :
  (forall v, Video.video_id (f v) = Video.video_id v) ->
  find_video video_id (List.map f vs) = prod_map id f <$> find_video video_id vs.
Proof.
  intros Hf. rewrite /find_video. change (List.map f vs) with (f <$> vs).
  rewrite list_find_fmap. f_equal.
  apply list_find_ext. intros v. simpl. by rewrite Hf.
Qed.

(** A row that the scanner has just marked as missing is made eligible for
    the queue again by [reset_deleted_video]. *)
Lemma scan_then_reset_eligible (video_id : string) (w : World) (i : nat)
    (v : Video.t) :
  find_video video_id (videos w) = Some (i, v) ->
  Video.downloaded v = true ->
  file_missing (fs w) v = true ->
  Video.flags_consistent v ->
  let w1 := (scan_pass w).2 in
  exists v',
    reset_deleted_video video_id w1
    = (Ok (JSONResponse [("success", JBool true);
                         ("message", JStr "Video reset successfully")]),
       set_commits (S (commits w1)) (set_videos (<[i := v']> (videos w1)) w1))
    /\ Video.eligible v' = true
    /\ Video.video_id v' = video_id
    /\ Video.download_path v' = Video.download_path v.
Proof.
  intros Hfind Hdl Hmiss [_ Hfail]. rewrite Hdl /= in Hfail.
  assert (Hin : v ∈ List.filter (fun v => Video.downloaded v && file_missing (fs w) v)
                      (videos w)).
  { apply list_elem_of_In, filter_In. split.
    - apply list_elem_of_In.
      exact (list_elem_of_lookup_2 _ _ _ (find_video_lookup _ _ _ _ Hfind)).
    - by rewrite Hdl Hmiss. }
  assert (Hw1 : videos (scan_pass w).2
          = List.map (fun v => if Video.downloaded v && file_missing (fs w) v
                               then Video.set_missing v else v) (videos w)).
  { rewrite /scan_pass /mbind /M_bind /bind /get /=.
    destruct (List.filter _ _) as [|x l] eqn:Hf; [by apply elem_of_nil in Hin|].
    done. }
  assert (Hid : Video.video_id v = video_id).
  { rewrite /find_video in Hfind. by apply list_find_Some in Hfind as (_ & ? & _). }
  simpl. exists (set_skip false (set_file_deleted false (Video.set_missing v))).
  split; [|by rewrite /Video.eligible /= Hfail].
  rewrite /reset_deleted_video {1}/mbind /M_bind {1}/bind /get /= Hw1.
  rewrite find_video_map; [by intros v0; destruct (_ && _)|].
  by rewrite Hfind /= Hdl Hmiss /= -Hw1.
Qed.

Lemma toggle_skip_found video_id w i v :
  find_video video_id (videos w) = Some (i, v) ->
  toggle_skip video_id w
  = (Ok (JSONResponse [("success", JBool true);
                       ("skip", JBool (negb (Video.skip v)))]),
     set_commits (S (commits w))
       (set_videos (<[i := set_skip (negb (Video.skip v)) v]> (videos w)) w)).
Proof.
  intros Hfind.
  by rewrite /toggle_skip /commit_video /mbind /M_bind /bind /get /modify
    /commit /= Hfind.
Qed.

Lemma toggle_auto_download_found source_id w i s :
  list_find (fun s => Source.id s = source_id) (sources w) = Some (i, s) ->
  toggle_auto_download source_id w
  = (Ok (JSONResponse [("success", JBool true);
                       ("auto_download", JBool (negb (Source.auto_download s)))]),
     set_commits (S (commits w))
       (set_sources
          (<[i := set_auto_download (negb (Source.auto_download s)) s]> (sources w))
          w)).
Proof.
  intros Hfind.
  by rewrite /toggle_auto_download /mbind /M_bind /bind /get /modify
    /commit /= Hfind.
Qed.

(** Toggling twice gives the table back. *)
Lemma toggle_twice (video_id : string) (source_id : Z) (w : World) :
  videos (toggle_skip video_id (toggle_skip video_id w).2).2 = videos w
  /\ sources (toggle_auto_download source_id
                (toggle_auto_download source_id w).2).2 = sources w.
Proof.
  split.
  - destruct (find_video video_id (videos w)) as [[i v]|] eqn:Hfind.
    + assert (Hid : Video.video_id v = video_id).
      { rewrite /find_video in Hfind.
        by apply list_find_Some in Hfind as (_ & ? & _). }
      rewrite (toggle_skip_found _ _ _ _ Hfind) /=.
      erewrite toggle_skip_found;
        [|exact (find_video_insert _ _ _ _ (set_skip _ v) Hfind Hid)].
      rewrite /= list_insert_insert_eq negb_involutive.
      apply list_insert_id. rewrite (find_video_lookup _ _ _ _ Hfind).
      by destruct v.
    + by rewrite /toggle_skip /mbind /M_bind /bind /get /= Hfind /= Hfind.
  - destruct (list_find (fun s => Source.id s = source_id) (sources w))
      as [[i s]|] eqn:Hfind.
    + rewrite (toggle_auto_download_found _ _ _ _ Hfind) /=.
      apply list_find_Some in Hfind as (Hi & Hid & Hbefore).
      rewrite (toggle_auto_download_found _ _ i
                 (set_auto_download (negb (Source.auto_download s)) s)).
      { simpl. apply list_find_Some. split; [|split; [exact Hid|]].
        - apply list_lookup_insert_eq. exact (lookup_lt_Some _ _ _ Hi).
        - intros j y Hj Hlt. rewrite list_lookup_insert_ne in Hj; [lia|].
          by apply (Hbefore j). }
      rewrite /= list_insert_insert_eq negb_involutive.
      apply list_insert_id. rewrite Hi. by destruct s.
    + by rewrite /toggle_auto_download /mbind /M_bind /bind /get /= Hfind /= Hfind.
Qed.

Lemma download_video_failure_row E video_id w w' i v message :
  find_video video_id (videos w) = Some (i, v) ->
  download_video E video_id w = (Ok (false, message), w') ->
  exists m, videos w' = <[i := Video.set_failed true (Some m) v]> (videos w).
Proof.
  intros Hfind Hrun.
  destruct (Video.downloaded v) eqn:Hdl.
  { by rewrite /download_video /mbind /M_bind /bind /get /= Hfind Hdl in Hrun. }
  destruct (download_video_cases E _ _ _ _ _ _ Hfind Hdl Hrun)
    as [[[e ?] _]|(output_file & info & tail & _ & _ & Hcase)]; [done|].
  destruct Hcase as [[_ (msg & _ & Hv)]|(fs_end & res & _ & Hout)];
    [eexists; exact Hv|].
  rewrite /attempt_outcome in Hout. destruct res as [[[rc out] err]|e].
  - destruct (negb (rc =? 0)).
    { destruct Hout as [_ ->]. rewrite set_failed_retry_reset. by eexists. }
    destruct (too_small output_file fs_end).
    { destruct Hout as [_ ->]. rewrite set_failed_retry_reset. by eexists. }
    by destruct Hout as (video' & t & _ & [=] & _).
  - destruct Hout as [_ ->]. rewrite set_failed_retry_reset. by eexists.
Qed.

(** A failed download followed by [reset_failed_video] leaves the table as
    it was before the attempt. *)
Lemma failure_then_reset (E : Env) (video_id : string) (w w1 : World)
    (i : nat) (v : Video.t) (message : string) :
  find_video video_id (videos w) = Some (i, v) ->
  Video.failed_download v = false ->
  Video.error_message v = None ->
  download_video E video_id w = (Ok (false, message), w1) ->
  (reset_failed_video video_id w1).1
  = Ok (JSONResponse [("success", JBool true);
                      ("message", JStr "Failed status reset successfully")])
  /\ videos (reset_failed_video video_id w1).2 = videos w.
Proof.
  intros Hfind Hf He Hrun.
  destruct (download_video_failure_row _ _ _ _ _ _ _ Hfind Hrun) as [m Hv].
  assert (Hid : Video.video_id v = video_id).
  { rewrite /find_video in Hfind. by apply list_find_Some in Hfind as (_ & ? & _). }
  assert (Hfind1 : find_video video_id (videos w1)
                   = Some (i, Video.set_failed true (Some m) v)).
  { rewrite Hv.
    exact (find_video_insert _ _ _ _ (Video.set_failed true (Some m) v) Hfind Hid). }
  rewrite /reset_failed_video /commit_video /mbind /M_bind /bind /get /modify
    /commit /= Hfind1 /=.
  split; [done|]. rewrite Hv list_insert_insert_eq.
  apply list_insert_id. rewrite (find_video_lookup _ _ _ _ Hfind).
  destruct v; simpl in *. by rewrite Hf He.
Qed.

(** The three handlers that change the status of a video keep both status
    invariants. *)
Lemma handlers_keep_invariants (video_id : string) (w : World) :
  Forall Video.flags_consistent (videos w) ->
  Forall Video.flags_consistent (videos (reset_deleted_video video_id w).2)
  /\ Forall Video.flags_consistent (videos (reset_failed_video video_id w).2)
  /\ Forall Video.flags_consistent (videos (toggle_skip video_id w).2).
Proof.
  intros Hall.
  rewrite /reset_deleted_video /reset_failed_video /toggle_skip /commit_video
    /mbind /M_bind /bind /get /modify /commit /=.
  destruct (find_video video_id (videos w)) as [[i v]|] eqn:Hfind; [|done].
  assert (Hv : Video.flags_consistent v).
  { rewrite Forall_forall in Hall. apply Hall.
    exact (list_elem_of_lookup_2 _ _ _ (find_video_lookup _ _ _ _ Hfind)). }
  destruct Hv as [Hd Hf]. repeat split.
  - destruct (negb (Video.file_deleted v)); simpl; [done|].
    apply Forall_insert; [done|]. split; simpl; [apply andb_false_r|done].
  - destruct (negb (Video.failed_download v)); simpl; [done|].
    apply Forall_insert; [done|]. split; simpl; [done|apply andb_false_r].
  - simpl. by apply Forall_insert.
Qed.

Lemma scan_then_reset_eligible_witness :
  exists v',
    reset_deleted_video "v2" (scan_pass Demo.world).2
    = (Ok (JSONResponse [("success", JBool true);
                         ("message", JStr "Video reset successfully")]),
       set_commits (S (commits (scan_pass Demo.world).2))
         (set_videos (<[1%nat := v']> (videos (scan_pass Demo.world).2))
            (scan_pass Demo.world).2))
    /\ Video.eligible v' = true
    /\ Video.video_id v' = "v2"
    /\ Video.download_path v' = Video.download_path Demo.kept_item.
Proof.
  apply (scan_then_reset_eligible "v2" Demo.world 1%nat Demo.kept_item).
  - reflexivity.
  - reflexivity.
  - reflexivity.
  - by split.
Defined.

Lemma failure_then_reset_witness :
  let E := Demo.env (Demo.Fails 1 " boom ") in
  (download_video E "v3" Demo.world).1 = Ok (false, "yt-dlp error: boom")
  /\ (reset_failed_video "v3" (download_video E "v3" Demo.world).2).1
     = Ok (JSONResponse [("success", JBool true);
                         ("message", JStr "Failed status reset successfully")])
  /\ videos (reset_failed_video "v3" (download_video E "v3" Demo.world).2).2
     = videos Demo.world.
Proof.
  intros E.
  assert (Hfst : (download_video E "v3" Demo.world).1
                 = Ok (false, "yt-dlp error: boom")) by (vm_compute; reflexivity).
  split; [exact Hfst|].
  exact (failure_then_reset E "v3" Demo.world _ 2%nat Demo.queued_item
           "yt-dlp error: boom" eq_refl eq_refl eq_refl (pair_of_fst _ _ Hfst)).
Defined.

Lemma handlers_keep_invariants_witness :
  Forall Video.flags_consistent (videos Demo.world)
  /\ Forall Video.flags_consistent (videos (reset_deleted_video "v1" Demo.world).2)
  /\ Forall Video.flags_consistent (videos (reset_failed_video "v1" Demo.world).2)
  /\ Forall Video.flags_consistent (videos (toggle_skip "v1" Demo.world).2).
Proof.
  split; [exact demo_world_consistent|].
  exact (handlers_keep_invariants "v1" Demo.world demo_world_consistent).
Defined.

(** ** Subfolders: the default *)

Lemma set_is_default_id s : set_is_default (Subfolder.is_default s) s = s.
Proof. by destruct s. Qed.

Lemma unset_default_lookup subs k s :
  one_default subs ->
  subs !! k = Some s ->
  unset_default subs !! k = Some (set_is_default false s).
Proof.
  intros Hone Hk. rewrite /unset_default.
  destruct (list_find _ subs) as [[j d]|] eqn:Hfind.
  - apply list_find_Some in Hfind as (Hj & Hd & _).
    destruct (decide (k = j)) as [->|Hne].
    + by rewrite list_lookup_alter_eq Hk.
    + rewrite list_lookup_alter_ne; [congruence|]. rewrite Hk. f_equal.
      destruct (Subfolder.is_default s) eqn:Hs.
      * by specialize (Hone k j s d Hk Hj Hs Hd).
      * by rewrite -Hs set_is_default_id.
  - rewrite Hk. f_equal.
    destruct (Subfolder.is_default s) eqn:Hs.
    + apply list_find_None in Hfind. rewrite Forall_forall in Hfind.
      by specialize (Hfind s (list_elem_of_lookup_2 _ _ _ Hk)).
    + by rewrite -Hs set_is_default_id.
Qed.

Lemma unset_default_length subs :
  List.length (unset_default subs) = List.length subs.
Proof.
  rewrite /unset_default. destruct (list_find _ subs) as [[j d]|]; [|done].
  apply length_alter.
Qed.

(** After [set_default_subfolder] the chosen subfolder is the default and
    no other one is. *)
Lemma set_default_subfolder_spec (subfolder_id : Z) (w : World) (i : nat)
    (s0 : Subfolder.t) :
  one_default (subfolders w) ->
  list_find (fun s => Subfolder.id s = subfolder_id) (subfolders w) = Some (i, s0) ->
  let w' := (set_default_subfolder subfolder_id w).2 in
  (set_default_subfolder subfolder_id w).1 = Ok (RedirectResponse "/subfolders" 303)
  /\ List.length (subfolders w') = List.length (subfolders w)
  /\ (forall j s, subfolders w !! j = Some s ->
        subfolders w' !! j = Some (set_is_default (bool_decide (j = i)) s))
  /\ one_default (subfolders w').
Proof.
  intros Hone Hfind.
  rewrite /set_default_subfolder /mbind /M_bind /bind /get /modify /commit /=
    Hfind /=.
  assert (Hlook : forall j s, subfolders w !! j = Some s ->
            alter (set_is_default true) i (unset_default (subfolders w)) !! j
            = Some (set_is_default (bool_decide (j = i)) s)).
  { intros j s Hj. destruct (decide (j = i)) as [->|Hne].
    - by rewrite list_lookup_alter_eq (unset_default_lookup _ _ _ Hone Hj)
        bool_decide_eq_true_2.
    - rewrite list_lookup_alter_ne; [congruence|].
      by rewrite (unset_default_lookup _ _ _ Hone Hj) bool_decide_eq_false_2. }
  assert (Hlen : List.length (alter (set_is_default true) i
                                (unset_default (subfolders w)))
                 = List.length (subfolders w))
    by by rewrite length_alter unset_default_length.
  split; [done|]. split; [done|]. split; [done|].
  intros j k s t Hj Hk Hs Ht.
  destruct (lookup_lt_is_Some_2 (subfolders w) j) as [s1 Hs1].
  { rewrite -Hlen. exact (lookup_lt_Some _ _ _ Hj). }
  destruct (lookup_lt_is_Some_2 (subfolders w) k) as [t1 Ht1].
  { rewrite -Hlen. exact (lookup_lt_Some _ _ _ Hk). }
  rewrite (Hlook _ _ Hs1) in Hj. rewrite (Hlook _ _ Ht1) in Hk.
  injection Hj as <-. injection Hk as <-. simpl in Hs, Ht.
  apply bool_decide_eq_true in Hs, Ht. congruence.
Qed.

(** [add_subfolder] refuses a name that is in use and changes nothing then;
    otherwise the new row is appended, its directory exists, and at most
    one subfolder is the default afterwards. *)
Lemma add_subfolder_spec (name description : string) (is_default : bool)
    (w : World) :
  one_default (subfolders w) ->
  let r := (add_subfolder name description is_default w).1 in
  let w' := (add_subfolder name description is_default w).2 in
  one_default (subfolders w')
  /\ (name ∈ List.map Subfolder.name (subfolders w) ->
      r = Ok (HTTPException 400
                ("Subfolder with name '" +:+ name +:+ "' already exists"))
      /\ w' = w)
  /\ (r = Ok (RedirectResponse "/subfolders" 303) ->
      (name ∉ List.map Subfolder.name (subfolders w))
      /\ exists new,
           subfolders w' !! List.length (subfolders w) = Some new
           /\ List.length (subfolders w') = S (List.length (subfolders w))
           /\ Subfolder.name new = name
           /\ Subfolder.is_default new = is_default
           /\ Subfolder.path new ∈ dirs (fs w')
           /\ (forall j s, subfolders w !! j = Some s ->
                 subfolders w' !! j
                 = Some (if is_default then set_is_default false s else s))).
Proof.
  intros Hone.
  rewrite /add_subfolder /mbind /M_bind /bind /get /get_setting /=.
  destruct (list_find _ (subfolders w)) as [[j d]|] eqn:Hfind; simpl.
  { split; [done|]. split; [done|]. done. }
  apply list_find_None in Hfind.
  assert (Hfresh : name ∉ List.map Subfolder.name (subfolders w)).
  { intros Hin. apply list_elem_of_In, in_map_iff in Hin as (s & Hs & Hin).
    rewrite Forall_forall in Hfind. apply list_elem_of_In in Hin.
    by apply (Hfind s Hin). }
  destruct (settings w !! "download_path") as [row|]; simpl; [|by repeat split].
  destruct (Setting.value row) as [dp|]; simpl; [|by repeat split].
  rewrite /os_makedirs /=.
  destruct (files (fs w) !! _) as [x|] eqn:Hfile; simpl; [by repeat split|].
  rewrite /modify /commit /=.
  set (subs1 := if is_default then unset_default (subfolders w) else subfolders w).
  assert (Hlen1 : List.length subs1 = List.length (subfolders w)).
  { rewrite /subs1. destruct is_default; [apply unset_default_length|done]. }
  assert (Hlook1 : forall j s, subfolders w !! j = Some s ->
            subs1 !! j = Some (if is_default then set_is_default false s else s)).
  { intros j s Hj. rewrite /subs1. destruct is_default; [|done].
    by apply unset_default_lookup. }
  split; [|split; [done|]].
  - intros j k s t Hj Hk Hs Ht.
    assert (Hcase : forall j s, (subs1 ++ [Subfolder.mk (next_subfolder_pk subs1) name
              (Py.join dp (Py.lower (Py.replace " " "_" name))) is_default]) !! j = Some s ->
              Subfolder.is_default s = true ->
              (is_default = true /\ j = List.length subs1)
              \/ (is_default = false /\ subfolders w !! j = Some s)).
    { intros j0 s1 Hj0 Hs1. apply lookup_app_Some in Hj0 as [Hj0|[Hge Hj0]].
      - destruct (lookup_lt_is_Some_2 (subfolders w) j0) as [s2 Hs2].
        { rewrite -Hlen1. exact (lookup_lt_Some _ _ _ Hj0). }
        rewrite (Hlook1 _ _ Hs2) in Hj0. destruct is_default.
        + injection Hj0 as <-. done.
        + injection Hj0 as <-. by right.
      - apply list_lookup_singleton_Some in Hj0 as [Hz <-]. simpl in Hs1.
        left. split; [done|lia]. }
    destruct (Hcase _ _ Hj Hs) as [[Hd1 ->]|[Hd1 Hj1]],
             (Hcase _ _ Hk Ht) as [[Hd2 ->]|[Hd2 Hk1]]; try congruence.
    exact (Hone _ _ _ _ Hj1 Hk1 Hs Ht).
  - intros _. split; [done|]. eexists. split.
    { rewrite lookup_app_r; [lia|]. by rewrite Hlen1 Nat.sub_diag. }
    split; [by rewrite length_app /= Hlen1 Nat.add_1_r|].
    split; [done|]. split; [done|]. split; [set_solver|].
    intros j s Hj. rewrite lookup_app_l; [|by apply Hlook1].
    rewrite Hlen1. exact (lookup_lt_Some _ _ _ Hj).
Qed.

Lemma shelves_one_default : one_default (subfolders Shelves.world).
Proof.
  intros [|[|j]] [|[|k]] s t; simpl; try done; intros [= <-] [= <-]; done.
Qed.

Lemma set_default_subfolder_spec_witness :
  (set_default_subfolder 2 Shelves.world).1 = Ok (RedirectResponse "/subfolders" 303)
  /\ List.length (subfolders (set_default_subfolder 2 Shelves.world).2)
     = List.length (subfolders Shelves.world)
  /\ (forall j s, subfolders Shelves.world !! j = Some s ->
        subfolders (set_default_subfolder 2 Shelves.world).2 !! j
        = Some (set_is_default (bool_decide (j = 1%nat)) s))
  /\ one_default (subfolders (set_default_subfolder 2 Shelves.world).2).
Proof.
  exact (set_default_subfolder_spec 2 Shelves.world 1%nat
           (Subfolder.mk 2 "Music" "/data/music" false)
           shelves_one_default eq_refl).
Defined.

Lemma add_subfolder_spec_witness :
  (add_subfolder "Live Sets" "" true Shelves.world).1
  = Ok (RedirectResponse "/subfolders" 303)
  /\ one_default (subfolders (add_subfolder "Live Sets" "" true Shelves.world).2)
  /\ subfolders (add_subfolder "Live Sets" "" true Shelves.world).2
     = [Subfolder.mk 1 "Default" "/data/default" false;
        Subfolder.mk 2 "Music" "/data/music" false;
        Subfolder.mk 3 "Live Sets" "/data/live_sets" true].
Proof.
  split; [vm_compute; reflexivity|].
  split; [|vm_compute; reflexivity].
  exact (proj1 (add_subfolder_spec "Live Sets" "" true Shelves.world
                  shelves_one_default)).
Defined.

(** ** What [download_video] leaves alone *)

#[export] Instance same_config_preorder : PreOrder same_config.
Proof.
  split.
  - intros w. by repeat split.
  - intros a b c (?&?&?&?&?) (?&?&?&?&?). repeat split; congruence.
Qed.

Lemma files_config {A} (c : M A) :
  preserves same_but_files c -> preserves same_config c.
Proof.
  apply preserves_weaken. by intros w w' ((?&?&?&?&?&?&?)&?&?).
Qed.

Lemma tool_config {A} (c : M A) :
  preserves same_but_tool c -> preserves same_config c.
Proof.
  apply preserves_weaken. by intros w w' ((?&?&?&?&?&?&?)&?).
Qed.

Lemma commit_video_config i v : preserves same_config (commit_video i v).
Proof. by intros w. Qed.

Lemma now_config E : preserves same_config (now E).
Proof. by intros w. Qed.

Lemma record_outcome_config E i video output_file folder r :
  preserves same_config (record_outcome E i video output_file folder r).
Proof.
  destruct r as [detailed_info [[rc out] err]]. rewrite /record_outcome.
  destruct (negb (rc =? 0)).
  { apply: preserves_bind; [apply commit_video_config|].
    intros _. apply: preserves_ret. }
  apply: preserves_bind; [apply: preserves_get|]. intros small.
  destruct small.
  { apply: preserves_bind; [apply commit_video_config|].
    intros _. apply: preserves_ret. }
  apply: preserves_bind; [rewrite /find_thumbnail; preserves_auto|].
  intros thumbnail_path.
  apply: preserves_bind.
  { destruct thumbnail_path as [p|].
    - rewrite /web_path /get_setting. preserves_auto.
    - intros w.
      destruct (fetch_thumbnail_spec E detailed_info output_file folder video w)
        as (video' & w' & -> & ((?&?&?&?&?&?&?)&?&?) & _). by repeat split. }
  intros video'.
  apply: preserves_bind.
  { intros w.
    destruct (create_jellyfin_nfo_spec E video' detailed_info folder w)
      as (w' & -> & ((?&?&?&?&?&?&?)&?&?)). by repeat split. }
  intros _.
  apply: preserves_bind.
  { intros w.
    destruct (create_plex_metadata_spec E video' detailed_info folder w)
      as (w' & -> & ((?&?&?&?&?&?&?)&?&?)). by repeat split. }
  intros _.
  apply: preserves_bind; [apply now_config|]. intros t.
  apply: preserves_bind; [apply commit_video_config|].
  intros _. apply: preserves_ret.
Qed.

Lemma attempts_config E video_id output_file :
  preserves same_config (attempts E video_id output_file).
Proof.
  apply tool_config. intros w.
  destruct (attempts E video_id output_file w) as [r w'] eqn:Hatt.
  by apply attempts_spec in Hatt as [? _].
Qed.

Lemma download_video_frame E video_id :
  preserves same_config (download_video E video_id).
Proof.
  rewrite /download_video.
  apply: preserves_bind; [apply: preserves_get|]. intros vs.
  destruct (find_video video_id vs) as [[i video]|]; [|apply: preserves_ret].
  destruct (Video.downloaded video); [apply: preserves_ret|].
  apply: preserves_bind.
  { destruct (Video.failed_download video); [|apply: preserves_ret].
    apply: preserves_bind; [apply commit_video_config|].
    intros _. apply: preserves_ret. }
  intros v0.
  apply: preserves_bind.
  { intros w. by destruct (resolve_download_path_spec v0 w) as [dp ->]. }
  intros [dp|]; [|apply: preserves_raise].
  apply: preserves_bind; [apply files_config, os_makedirs_files|]. intros _.
  apply: preserves_bind; [apply: preserves_get|]. intros ex.
  apply: preserves_bind.
  { destruct ex; [apply files_config, os_remove_files|apply: preserves_ret]. }
  intros _.
  apply: preserves_try_except.
  - apply: preserves_bind; [apply attempts_config|].
    intros r. apply record_outcome_config.
  - intros e. rewrite /download_except.
    apply: preserves_bind; [apply commit_video_config|].
    intros _. apply: preserves_ret.
Qed.

(** [download_video] never changes the settings, the sources, the
    subfolders or the working directory, and it never sleeps. *)
Theorem download_video_config (E : Env) (video_id : string) (w : World) :
  settings (download_video E video_id w).2 = settings w
  /\ sources (download_video E video_id w).2 = sources w
  /\ subfolders (download_video E video_id w).2 = subfolders w
  /\ cwd (download_video E video_id w).2 = cwd w
  /\ slept (download_video E video_id w).2 = slept w.
Proof. exact (download_video_frame E video_id w). Qed.

(** ** Worker loops *)

Lemma set_slept_set_slept x y w : set_slept x (set_slept y w) = set_slept x w.
Proof. done. Qed.

Lemma set_slept_id w : set_slept (slept w) w = w.
Proof. by destruct w. Qed.

Lemma wait_seconds_steps running n : forall k w,
  exists m, (m <= n)%nat
    /\ wait_seconds running n k w
       = (Ok (if (m <? n)%nat then S (k + m) else (k + m)%nat),
          set_slept (slept w ++ repeat 1 m) w)
    /\ (forall j, (j < m)%nat -> running (k + j)%nat = true)
    /\ ((m < n)%nat -> running (k + m)%nat = false).
Proof.
  induction n as [|n IH]; intros k w; simpl.
  { exists 0%nat. rewrite /= app_nil_r set_slept_id Nat.add_0_r.
    repeat split; [done|lia|lia]. }
  destruct (running k) eqn:Hk.
  - rewrite /mbind /M_bind /bind /time_sleep /=.
    destruct (IH (S k) (set_slept (slept w ++ [1]) w))
      as (m & Hle & -> & Htrue & Hfalse).
    exists (S m). split; [lia|]. split; [|split].
    + rewrite /= set_slept_set_slept -app_assoc /=.
      replace (k + S m)%nat with (S (k + m)) by lia.
      by replace (S m <? S n)%nat with (m <? n)%nat.
    + intros [|j] Hj; [by rewrite Nat.add_0_r|].
      replace (k + S j)%nat with (S k + j)%nat by lia. apply Htrue. lia.
    + intros Hlt. replace (k + S m)%nat with (S k + m)%nat by lia.
      apply Hfalse. lia.
  - exists 0%nat. rewrite /= app_nil_r set_slept_id !Nat.add_0_r.
    repeat split; [lia|lia|done].
Qed.

(** The interruptible wait: [m] one-second sleeps, where [m] is the number
    of reads of the flag that gave true, at most [n]; a read that gives
    false ends the wait at once. *)
Theorem wait_seconds_spec (running : nat -> bool) (n k : nat) (w : World) :
  exists m, (m <= n)%nat
    /\ wait_seconds running n k w
       = (Ok (if (m <? n)%nat then S (k + m) else (k + m)%nat),
          set_slept (slept w ++ repeat 1 m) w)
    /\ (forall j, (j < m)%nat -> running (k + j)%nat = true)
    /\ ((m < n)%nat -> running (k + m)%nat = false).
Proof. apply wait_seconds_steps. Qed.


Lemma int_setting_spec key w :
  int_setting key w
  = (match int_of_setting key w with
     | Some n => Ok n
     | None =>
         match setting_value key w with
         | None => Raise (PyError "int() argument must be a string, not NoneType")
         | Some _ => Raise (PyError "invalid literal for int()")
         end
     end, w).
Proof.
  rewrite /int_setting /int_of_setting /setting_value /get_setting
    /mbind /M_bind /bind /get /=.
  destruct (settings w !! key) as [row|]; simpl; [|done].
  destruct (Setting.value row) as [s|]; simpl; [|done].
  by destruct (Py.int s).
Qed.

Lemma download_delay_setting_value w :
  download_delay_setting w
  = (Ok (match int_of_setting "download_delay" w with
         | Some n => Z.max 5 n
         | None => 60
         end), w).
Proof.
  rewrite /download_delay_setting /try_except /mbind /M_bind /bind
    int_setting_spec.
  destruct (int_of_setting "download_delay" w) as [n|]; simpl.
  - f_equal. f_equal. destruct (n <? 5) eqn:Hn; lia.
  - by destruct (setting_value _ _).
Qed.


Lemma flag_setting_spec key w :
  flag_setting key w
  = (match setting_value key w with
     | Some s => Ok (bool_decide (Py.lower s = "true"))
     | None => Raise (PyError "NoneType object has no attribute lower")
     end, w).
Proof.
  rewrite /flag_setting /setting_value /get_setting /mbind /M_bind /bind /get /=.
  destruct (settings w !! key) as [row|]; simpl; [|done].
  by destruct (Setting.value row).
Qed.

Lemma time_sleep_spec n w :
  (0 <=? n) && (n <=? time_sleep_max) = true ->
  time_sleep n w = (Ok tt, set_slept (slept w ++ [n]) w).
Proof.
  intros Hn. apply andb_prop in Hn as [H0 Hmax]. rewrite /time_sleep.
  destruct (n <? 0) eqn:Hlt; [lia|].
  destruct (time_sleep_max <? n) eqn:Hgt; [lia|done].
Qed.

(** With the global switch off, or with nothing to select, a round of the
    queue processor only sleeps: no download, no change to any table. *)
Lemma queue_iteration_idle E running k w :
  switch_on w = false \/ next_video w = None ->
  exists k' l,
    queue_iteration E running k w = (Ok k', set_slept (slept w ++ l) w)
    /\ (switch_on w = false -> l = [10] /\ k' = k)
    /\ (switch_on w = true ->
        exists m, (m <= 10)%nat /\ l = repeat 1 m
                  /\ forall j, (j < m)%nat -> running (k + j)%nat = true).
Proof.
  intros Hidle.
  rewrite /queue_iteration /try_except {1}/mbind /M_bind {1}/bind
    flag_setting_spec.
  rewrite /switch_on in Hidle |- *.
  destruct (setting_value "auto_download" w) as [s|]; cbv beta iota.
  2:{ exists k, [10]. by rewrite /mbind /bind time_sleep_spec. }
  rewrite {1}/mbind {1}/bind download_delay_setting_value.
  destruct (bool_decide (Py.lower s = "true")) eqn:Hs; cbv beta iota delta [negb].
  - destruct Hidle as [?|Hnone]; [done|].
    rewrite /mbind /bind /get Hnone.
    destruct (wait_seconds_steps running 10 k w) as (m & Hle & -> & Htrue & _).
    eexists _, _. split; [reflexivity|]. split; [done|].
    intros _. by exists m.
  - exists k, [10]. by rewrite /mbind /bind time_sleep_spec.
Qed.




Lemma queue_iteration_returns E running k w :
  exists k', (queue_iteration E running k w).1 = Ok k'.
Proof.
  rewrite /queue_iteration /try_except.
  match goal with |- context [match ?c w with _ => _ end] =>
    destruct (c w) as [[k'|e] w1] end.
  - by exists k'.
  - exists k. by rewrite /mbind /M_bind /bind time_sleep_spec.
Qed.

Lemma scan_library_iteration_returns running k w :
  exists k', (scan_library_iteration running k w).1 = Ok k'.
Proof.
  rewrite /scan_library_iteration /try_except.
  match goal with |- context [match ?c w with _ => _ end] =>
    destruct (c w) as [[k'|e] w1] end.
  - by exists k'.
  - exists k. by rewrite /mbind /M_bind /bind time_sleep_spec.
Qed.

(** Neither worker loop is ever left by an exception, whatever the tool,
    the settings and the files are. *)
Lemma workers_never_raise E running fuel : forall k w,
  (exists k', (process_download_queue E running fuel k w).1 = Ok k')
  /\ (exists k', (scan_library running fuel k w).1 = Ok k').
Proof.
  induction fuel as [|fuel IH]; intros k w; simpl.
  { split; by exists k. }
  destruct (running k); [|split; by eexists].
  rewrite /mbind /M_bind /bind. split.
  - destruct (queue_iteration_returns E running (S k) w) as [k1 Hk1].
    destruct (queue_iteration E running (S k) w) as [r w1]. simpl in Hk1.
    rewrite Hk1. apply IH.
  - destruct (scan_library_iteration_returns running (S k) w) as [k1 Hk1].
    destruct (scan_library_iteration running (S k) w) as [r w1]. simpl in Hk1.
    rewrite Hk1. apply IH.
Qed.

Lemma queue_iteration_idle_witness :
  exists k' l,
    queue_iteration (Demo.env (Demo.Delivers 20000)) (fun _ => true) 0 Paused.world
    = (Ok k', set_slept (slept Paused.world ++ l) Paused.world)
    /\ (switch_on Paused.world = false -> l = [10] /\ k' = 0%nat)
    /\ (switch_on Paused.world = true ->
        exists m, (m <= 10)%nat /\ l = repeat 1 m
                  /\ forall j, (j < m)%nat -> (fun _ : nat => true) (0 + j)%nat = true).
Proof.
  apply (queue_iteration_idle (Demo.env (Demo.Delivers 20000)) (fun _ => true)
           0 Paused.world).
  left. vm_compute. reflexivity.
Defined.






(** ** [add_source] *)

Lemma listed_weaken pk d rest before v :
  listed pk rest before v -> listed pk (d :: rest) before v.
Proof.
  intros (?&?&?&d'&?&?). repeat split; try done. exists d'. split; [by right|done].
Qed.

Lemma add_videos_spec duration_of source_type pk videos_info : forall vs,
  exists new,
    add_videos duration_of source_type pk videos_info vs = vs ++ new
    /\ Forall (listed pk videos_info vs) new
    /\ NoDup (video_ids new)
    /\ Forall (fun d => default "" (d !! "id") ∈ video_ids (vs ++ new)) videos_info.
Proof.
  induction videos_info as [|d rest IH]; intros vs; simpl.
  - exists []. rewrite app_nil_r. repeat split; constructor.
  - destruct (find_video (default "" (d !! "id")) vs) as [[i v]|] eqn:Hf.
    + destruct (IH vs) as (new & -> & Hins & Hnd & Hall).
      exists new. split; [done|]. split; [|split; [done|]].
      * eapply Forall_impl; [exact Hins|]. intros v'. apply listed_weaken.
      * constructor; [|done]. rewrite /video_ids map_app elem_of_app. left.
        exact (find_video_Some _ _ _ _ Hf).
    + apply find_video_None in Hf.
      set (v0 := listed_video duration_of source_type pk d vs).
      destruct (IH (vs ++ [v0])) as (new & -> & Hins & Hnd & Hall).
      exists (v0 :: new). rewrite -app_assoc /=. split; [done|].
      assert (Hfresh : Forall (fun v' => (Video.video_id v' ∉ video_ids vs)
                  /\ Video.video_id v' <> default "" (d !! "id")) new).
      { eapply Forall_impl; [exact Hins|]. intros v' (Hn & _).
        rewrite /video_ids map_app elem_of_app /= in Hn.
        split; [tauto|]. intros Heq. apply Hn. right. rewrite Heq. by left. }
      split; [|split; [|]].
      * constructor.
        -- repeat split; try done. exists d. split; [by left|done].
        -- rewrite Forall_forall in Hins. rewrite Forall_forall in Hfresh.
           apply Forall_forall. intros v' Hin.
           destruct (Hins v' Hin) as (_&?&?&d'&?&?).
           destruct (Hfresh v' Hin) as [? _].
           repeat split; try done. exists d'. split; [by right|done].
      * simpl. constructor; [|done]. intros Hin.
        apply list_elem_of_In, in_map_iff in Hin as (v' & Heq & Hin).
        rewrite Forall_forall in Hfresh.
        apply list_elem_of_In, Hfresh in Hin as [_ Hne]. by apply Hne.
      * constructor.
        -- rewrite /video_ids map_app elem_of_app /=. right. by left.
        -- by rewrite -app_assoc in Hall.
Qed.

Lemma source_information_tool E source_type source_id :
  preserves same_but_tool (source_information E source_type source_id).
Proof.
  rewrite /source_information /get_channel_videos /get_playlist_videos.
  preserves_auto.
Qed.

(** [add_source], case by case. *)
Lemma add_source_cases E duration_of source_type source_id subfolder_id
    auto_download w :
  add_source E duration_of source_type source_id subfolder_id auto_download w
  = match list_find (fun s => Source.source_id s = source_id) (sources w) with
    | Some _ =>
        (Ok (false, capitalize source_type +:+ " already exists in database"), w)
    | None =>
        match source_information E source_type source_id w with
        | (Ok (inl message), w1) => (Ok (false, message), w1)
        | (Ok (inr (name, videos_info)), w1) =>
            (Ok (true, "Added " +:+ source_type +:+ " with "
                       +:+ pretty (List.length videos_info) +:+ " videos"),
             set_commits (S (commits w1))
               (set_sources
                  (sources w
                   ++ [Source.mk (next_source_pk (sources w)) source_type source_id
                         name (Some (utcnow E (S (clock_reads w1))))
                         (chosen_subfolder subfolder_id (subfolders w1))
                         auto_download])
                  (set_videos
                     (add_videos duration_of source_type
                        (next_source_pk (sources w)) videos_info (videos w1))
                     (set_clock_reads (S (S (clock_reads w1))) w1))))
        | (Raise e, w1) => (Raise e, w1)
        end
    end.
Proof.
  rewrite /add_source {1}/mbind /M_bind {1}/bind /get.
  destruct (list_find _ (sources w)) as [[i s]|]; [done|].
  rewrite {1}/mbind {1}/bind.
  destruct (source_information E source_type source_id w)
    as [[[m|[name vi]]|e] w1]; [done| |done].
  by rewrite /mbind /bind /now /modify /commit /chosen_subfolder.
Qed.


(** When [add_source] reports success: the source id was new; one source
    row is appended; every row of the videos table is kept and the rows
    appended belong to the new source, are eligible for the queue and are
    listed items with ids that were not stored; every listed id is stored
    afterwards; settings and subfolders are untouched. *)
Lemma add_source_success E duration_of source_type source_id subfolder_id
    auto_download w message w' :
  add_source E duration_of source_type source_id subfolder_id auto_download w
  = (Ok (true, message), w') ->
  (source_id ∉ List.map Source.source_id (sources w))
  /\ exists name videos_info t new,
       message = "Added " +:+ source_type +:+ " with "
                 +:+ pretty (List.length videos_info) +:+ " videos"
       /\ sources w'
          = sources w
            ++ [Source.mk (next_source_pk (sources w)) source_type source_id name
                  (Some t) (chosen_subfolder subfolder_id (subfolders w))
                  auto_download]
       /\ videos w' = videos w ++ new
       /\ Forall (listed (next_source_pk (sources w)) videos_info (videos w)) new
       /\ NoDup (video_ids new)
       /\ Forall (fun d => default "" (d !! "id") ∈ video_ids (videos w'))
            videos_info
       /\ settings w' = settings w /\ subfolders w' = subfolders w.
Proof.
  rewrite add_source_cases.
  destruct (list_find _ (sources w)) as [[i s]|] eqn:Hfind; [done|].
  pose proof (source_information_tool E source_type source_id w) as Hfr.
  destruct (source_information E source_type source_id w)
    as [[[m|[name vi]]|e] w1]; [done| |done].
  destruct Hfr as ((Hset & Hv & Hsrc & Hsub & _) & _). simpl in *.
  intros [= <- <-]. split.
  { intros Hin. apply list_find_None in Hfind. rewrite Forall_forall in Hfind.
    apply list_elem_of_In, in_map_iff in Hin as (s & Hs & Hin).
    apply list_elem_of_In in Hin. by destruct (Hfind s Hin). }
  destruct (add_videos_spec duration_of source_type (next_source_pk (sources w))
              vi (videos w)) as (new & Hadd & Hins & Hnd & Hall).
  exists name, vi, (utcnow E (S (clock_reads w1))), new.
  rewrite /= Hv Hsub Hadd. by repeat split.
Qed.

Lemma add_source_success_witness :
  let E := Demo.env (Demo.Delivers 20000) in
  let w' := (add_source E (fun _ => None) "channel" "UC9" None true Demo.world).2 in
  (add_source E (fun _ => None) "channel" "UC9" None true Demo.world).1
  = Ok (true, "Added channel with 1 videos")
  /\ ("UC9" ∉ List.map Source.source_id (sources Demo.world))
  /\ exists name videos_info t new,
       "Added channel with 1 videos"
       = "Added " +:+ "channel" +:+ " with "
         +:+ pretty (List.length videos_info) +:+ " videos"
       /\ sources w'
          = sources Demo.world
            ++ [Source.mk (next_source_pk (sources Demo.world)) "channel" "UC9" name
                  (Some t) (chosen_subfolder None (subfolders Demo.world)) true]
       /\ videos w' = videos Demo.world ++ new
       /\ Forall (listed (next_source_pk (sources Demo.world)) videos_info
                    (videos Demo.world)) new
       /\ NoDup (video_ids new)
       /\ Forall (fun d => default "" (d !! "id") ∈ video_ids (videos w'))
            videos_info
       /\ settings w' = settings Demo.world
       /\ subfolders w' = subfolders Demo.world.
Proof.
  intros E w'.
  assert (Hfst : (add_source E (fun _ => None) "channel" "UC9" None true
                    Demo.world).1
                 = Ok (true, "Added channel with 1 videos"))
    by (vm_compute; reflexivity).
  split; [exact Hfst|].
  exact (add_source_success E (fun _ => None) "channel" "UC9" None true
           Demo.world "Added channel with 1 videos" _ (pair_of_fst _ _ Hfst)).
Defined.

(** ** File deletion *)

(** [delete_video_files] on a downloaded row never raises.  Either it
    answers success: the row is marked as missing, which makes it
    ineligible for the queue, and if its folder was a directory, the folder
    and every file below it are gone; or it answers failure, and then no
    table has changed and nothing has been committed. *)
Lemma delete_video_files_spec (video_id : string) (w : World) (i : nat)
    (v : Video.t) :
  find_video video_id (videos w) = Some (i, v) ->
  Video.downloaded v = true ->
  let r := (delete_video_files video_id w).1 in
  let w' := (delete_video_files video_id w).2 in
  (exists message,
     r = Ok (true, message)
     /\ videos w' = <[i := Video.set_missing v]> (videos w)
     /\ Video.eligible (Video.set_missing v) = false
     /\ forall p, Video.download_path v = Some p -> Py.truthy p = true ->
          Py.dirname p ∈ dirs (fs w) ->
          (Py.dirname p ∉ dirs (fs w'))
          /\ forall q, String.prefix (Py.dirname p +:+ "/") q = true ->
               files (fs w') !! q = None)
  \/ (exists message, r = Ok (false, message) /\ same_db w w').
Proof.
  intros Hfind Hdl.
  rewrite /delete_video_files /mbind /M_bind /bind /get /= Hfind Hdl /=.
  destruct (Video.download_path v) as [p|] eqn:Hp.
  2:{ left. eexists. split; [reflexivity|]. split; [done|]. split; [done|].
      by intros p' [=]. }
  destruct (negb (Py.truthy p) || negb (fs_exists (Py.dirname p) (fs w))) eqn:Hgone.
  { left. eexists. split; [reflexivity|]. split; [done|]. split; [done|].
    intros p' [= <-] Ht Hdir. exfalso.
    rewrite Ht /fs_exists /= in Hgone. apply negb_true_iff in Hgone.
    apply orb_false_iff in Hgone as [_ Hd].
    by rewrite bool_decide_eq_true_2 in Hd. }
  apply orb_false_iff in Hgone as [_ Hex]. apply negb_false_iff in Hex.
  rewrite /try_except /os_path_exists /get /= Hex /rmtree.
  case_bool_decide as Hdir; simpl.
  - left. eexists. split; [reflexivity|]. split; [done|]. split; [done|].
    intros p' [= <-] _ _. split.
    + rewrite elem_of_filter. by intros [[? _] _].
    + intros q Hq. apply map_lookup_filter_None. right. intros x _. simpl.
      by rewrite Hq.
  - right. eexists. split; [reflexivity|]. reflexivity.
Qed.

Lemma delete_video_files_spec_witness :
  Video.download_path Library.row = Some "/data/Demo/Demo.mp4"
  /\ "/data/Demo" ∈ dirs (fs Library.world)
  /\ ((exists message,
        (delete_video_files "v3" Library.world).1 = Ok (true, message)
        /\ videos (delete_video_files "v3" Library.world).2
           = <[2%nat := Video.set_missing Library.row]> (videos Library.world)
        /\ Video.eligible (Video.set_missing Library.row) = false
        /\ forall p, Video.download_path Library.row = Some p ->
             Py.truthy p = true ->
             Py.dirname p ∈ dirs (fs Library.world) ->
             (Py.dirname p ∉ dirs (fs (delete_video_files "v3" Library.world).2))
             /\ forall q, String.prefix (Py.dirname p +:+ "/") q = true ->
                  files (fs (delete_video_files "v3" Library.world).2) !! q = None)
      \/ (exists message,
            (delete_video_files "v3" Library.world).1 = Ok (false, message)
            /\ same_db Library.world (delete_video_files "v3" Library.world).2)).
Proof.
  split; [vm_compute; reflexivity|].
  split; [apply (proj1 (bool_decide_eq_true _)); vm_compute; reflexivity|].
  apply (delete_video_files_spec "v3" Library.world 2%nat Library.row);
    vm_compute; reflexivity.
Defined.
